(** * Weave compute daemon: wire codec, request pipeline and socket loop

    A shallow embedding of the request-handling surface of weave-compute
    ([protocol.c], [generate.c], [socket.c], [main.c]) together with the
    properties its specification states about it.

    Conventions.
    - C unsigned integers are [Z] values; every operation that can leave
      the range of its C type is wrapped explicitly ([wrap16], [wrap32],
      [wrap64]).
    - Bytes are [Byte.byte]; a buffer is a [list byte] and a pointer into
      it is an index.
    - A [float] is a [spec_float]; [memcpy] from a [uint32_t] is
      [float_of_bits].
    - Memory traffic is observable: the decoder logs every index it loads
      from, the encoders log every store. *)

From Stdlib Require Import ZArith List Lia Bool.
From Stdlib Require Import Floats.SpecFloat.
From coqutil Require Import Byte Z.bitblast.
Import ListNotations.
Local Open Scope Z_scope.

(** ** C integer arithmetic *)

Definition wrap16 (z : Z) : Z := z mod 2 ^ 16.
Definition wrap32 (z : Z) : Z := z mod 2 ^ 32.
Definition wrap64 (z : Z) : Z := z mod 2 ^ 64.

Definition UINT32_MAX : Z := 4294967295.

(** [x << n] on a [uint32_t] / [uint64_t] operand. *)
Definition shl32 (x n : Z) : Z := wrap32 (Z.shiftl x n).
Definition shl64 (x n : Z) : Z := wrap64 (Z.shiftl x n).

(** ** IEEE-754 binary32 values

    [read_f32_be] reinterprets four bytes as a [float].  The value is
    kept as a [spec_float] in canonical form (24-bit significand for
    normal numbers, exponent [-149] for subnormal ones), so that
    [SFcompare] is the C comparison. *)

Definition float_of_bits (bits : Z) : spec_float :=
  let s := Z.testbit bits 31 in
  let e := Z.land (Z.shiftr bits 23) 255 in
  let m := Z.land bits (Z.ones 23) in
  if e =? 0 then
    match m with
    | Zpos p => S754_finite s p (-149)
    | _ => S754_zero s
    end
  else if e =? 255 then
    (if m =? 0 then S754_infinity s else S754_nan)
  else
    match m + 2 ^ 23 with
    | Zpos p => S754_finite s p (e - 150)
    | _ => S754_nan
    end.

Definition isnan (f : spec_float) : bool :=
  match f with S754_nan => true | _ => false end.

Definition isinf (f : spec_float) : bool :=
  match f with S754_infinity _ => true | _ => false end.

(** ** protocol.h *)

Module Protocol.

Definition PROTOCOL_MAGIC : Z := 0x57455645.
Definition PROTOCOL_VERSION_1 : Z := 0x0001.
Definition MIN_SUPPORTED_VERSION : Z := PROTOCOL_VERSION_1.
Definition MAX_SUPPORTED_VERSION : Z := PROTOCOL_VERSION_1.
Definition MAX_MESSAGE_SIZE : Z := 10 * 1024 * 1024.
Definition MODEL_ID_SD35 : Z := 0.
Definition SD35_MIN_DIMENSION : Z := 64.
Definition SD35_MAX_DIMENSION : Z := 2048.
Definition SD35_DIMENSION_ALIGNMENT : Z := 64.
Definition SD35_MIN_STEPS : Z := 1.
Definition SD35_MAX_STEPS : Z := 100.
(** [0.0f] and [20.0f] (bit pattern [0x41A00000]). *)
Definition SD35_MIN_CFG : spec_float := S754_zero false.
Definition SD35_MAX_CFG : spec_float := S754_finite false 10485760 (-19).
Definition SD35_MIN_PROMPT_LENGTH : Z := 1.
Definition SD35_MAX_PROMPT_LENGTH : Z := 256.

Definition MSG_GENERATE_REQUEST : Z := 0x0001.
Definition MSG_GENERATE_RESPONSE : Z := 0x0002.
Definition MSG_ERROR : Z := 0x00FF.

Definition STATUS_OK : Z := 200.
Definition STATUS_BAD_REQUEST : Z := 400.
Definition STATUS_INTERNAL_SERVER_ERROR : Z := 500.

Inductive error_code_t : Type :=
| ERR_NONE
| ERR_INVALID_MAGIC
| ERR_UNSUPPORTED_VERSION
| ERR_INVALID_MODEL_ID
| ERR_INVALID_PROMPT
| ERR_INVALID_DIMENSIONS
| ERR_INVALID_STEPS
| ERR_INVALID_CFG
| ERR_OUT_OF_MEMORY
| ERR_GPU_ERROR
| ERR_TIMEOUT
| ERR_INTERNAL.

(** The enumerator values of [error_code_t]. *)
Definition error_code_value (e : error_code_t) : Z :=
  match e with
  | ERR_NONE => 0
  | ERR_INVALID_MAGIC => 1
  | ERR_UNSUPPORTED_VERSION => 2
  | ERR_INVALID_MODEL_ID => 3
  | ERR_INVALID_PROMPT => 4
  | ERR_INVALID_DIMENSIONS => 5
  | ERR_INVALID_STEPS => 6
  | ERR_INVALID_CFG => 7
  | ERR_OUT_OF_MEMORY => 8
  | ERR_GPU_ERROR => 9
  | ERR_TIMEOUT => 10
  | ERR_INTERNAL => 99
  end.

Definition is_ERR_NONE (e : error_code_t) : bool :=
  match e with ERR_NONE => true | _ => false end.

Record protocol_header_t : Type := mk_header {
  magic : Z;
  version : Z;
  msg_type : Z;
  payload_len : Z;
  reserved : Z
}.

(** [prompt_data] is a pointer into the received buffer: an index, or
    [None] for NULL. *)
Record sd35_generate_request_t : Type := mk_request {
  request_id : Z;
  model_id : Z;
  width : Z;
  height : Z;
  steps : Z;
  cfg_scale : spec_float;
  seed : Z;
  clip_l_offset : Z;
  clip_l_length : Z;
  clip_g_offset : Z;
  clip_g_length : Z;
  t5_offset : Z;
  t5_length : Z;
  prompt_data : option Z;
  prompt_data_len : Z
}.

(** [image_data] is [None] for a NULL pointer. *)
Record sd35_generate_response_t : Type := mk_response {
  resp_request_id : Z;
  resp_status : Z;
  generation_time_ms : Z;
  image_width : Z;
  image_height : Z;
  channels : Z;
  image_data_len : Z;
  image_data : option (list byte)
}.

(** [error_msg] is [None] for a NULL pointer. *)
Record error_response_t : Type := mk_error_response {
  err_request_id : Z;
  err_status : Z;
  error_code : Z;
  error_msg_len : Z;
  error_msg : option (list byte)
}.


(** ** Traced computations

    A computation returns its value together with the memory events it
    performed, in program order. *)

Definition Traced (E A : Type) : Type := (A * list E)%type.

Definition tr_ret {E A} (a : A) : Traced E A := (a, []).

Definition tr_bind {E A B} (m : Traced E A) (k : A -> Traced E B)
  : Traced E B :=
  let (a, l1) := m in
  let (b, l2) := k a in
  (b, l1 ++ l2).

Definition tr_emit {E} (e : E) : Traced E unit := (tt, [e]).

Notation "x <- m ;; k" := (tr_bind m (fun x => k))
  (at level 61, m at next level, right associativity).
Notation "m ;;; k" := (tr_bind m (fun _ => k))
  (at level 61, right associativity).

(** ** protocol.c: big-endian helpers *)

(** [buf[i]] on the input buffer: the load is logged by its index. *)
Definition load (data : list byte) (i : Z) : Traced Z Z :=
  (byte.unsigned (nth (Z.to_nat i) data Byte.x00), [i]).

Definition read_u16_be (data : list byte) (buf : Z) : Traced Z Z :=
  b0 <- load data buf ;;
  b1 <- load data (buf + 1) ;;
  tr_ret (wrap16 (Z.lor (Z.shiftl b0 8) b1)).

Definition read_u32_be (data : list byte) (buf : Z) : Traced Z Z :=
  b0 <- load data buf ;;
  b1 <- load data (buf + 1) ;;
  b2 <- load data (buf + 2) ;;
  b3 <- load data (buf + 3) ;;
  tr_ret (Z.lor (Z.lor (Z.lor (shl32 b0 24) (shl32 b1 16)) (shl32 b2 8)) b3).

Definition read_u64_be (data : list byte) (buf : Z) : Traced Z Z :=
  b0 <- load data buf ;;
  b1 <- load data (buf + 1) ;;
  b2 <- load data (buf + 2) ;;
  b3 <- load data (buf + 3) ;;
  b4 <- load data (buf + 4) ;;
  b5 <- load data (buf + 5) ;;
  b6 <- load data (buf + 6) ;;
  b7 <- load data (buf + 7) ;;
  tr_ret (Z.lor (Z.lor (Z.lor (Z.lor (Z.lor (Z.lor (Z.lor
            (shl64 b0 56) (shl64 b1 48)) (shl64 b2 40)) (shl64 b3 32))
            (shl64 b4 24)) (shl64 b5 16)) (shl64 b6 8)) b7).

Definition read_f32_be (data : list byte) (buf : Z) : Traced Z spec_float :=
  bits <- read_u32_be data buf ;;
  tr_ret (float_of_bits bits).

(** A store into the output buffer, or the assignment [*out_len = v]. *)
Inductive store : Type :=
| StoreByte (i : Z) (v : byte)
| StoreOutLen (v : Z).

Definition put (i : Z) (v : Z) : Traced store unit :=
  tr_emit (StoreByte i (byte.of_Z v)).

Definition write_u16_be (buf : Z) (value : Z) : Traced store unit :=
  put buf (Z.land (Z.shiftr value 8) 0xFF) ;;;
  put (buf + 1) (Z.land value 0xFF).

Definition write_u32_be (buf : Z) (value : Z) : Traced store unit :=
  put buf (Z.land (Z.shiftr value 24) 0xFF) ;;;
  put (buf + 1) (Z.land (Z.shiftr value 16) 0xFF) ;;;
  put (buf + 2) (Z.land (Z.shiftr value 8) 0xFF) ;;;
  put (buf + 3) (Z.land value 0xFF).

Definition write_u64_be (buf : Z) (value : Z) : Traced store unit :=
  put buf (Z.land (Z.shiftr value 56) 0xFF) ;;;
  put (buf + 1) (Z.land (Z.shiftr value 48) 0xFF) ;;;
  put (buf + 2) (Z.land (Z.shiftr value 40) 0xFF) ;;;
  put (buf + 3) (Z.land (Z.shiftr value 32) 0xFF) ;;;
  put (buf + 4) (Z.land (Z.shiftr value 24) 0xFF) ;;;
  put (buf + 5) (Z.land (Z.shiftr value 16) 0xFF) ;;;
  put (buf + 6) (Z.land (Z.shiftr value 8) 0xFF) ;;;
  put (buf + 7) (Z.land value 0xFF).

(** [memcpy(dst, src, n)] into the output buffer, byte [k] onwards. *)
Fixpoint memcpy_from (dst : Z) (src : list byte) (k : Z) (n : nat)
  : Traced store unit :=
  match n with
  | O => tr_ret tt
  | S n' =>
      tr_emit (StoreByte (dst + k) (nth (Z.to_nat k) src Byte.x00)) ;;;
      memcpy_from dst src (k + 1) n'
  end.

Definition memcpy (dst : Z) (src : list byte) (n : Z) : Traced store unit :=
  memcpy_from dst src 0 (Z.to_nat n).

(** The memory after a sequence of stores.  A store outside the buffer
    is undefined in C; here it leaves the buffer as it is, and the
    bounds theorems show that the encoders never issue one. *)
Fixpoint set_nth (i : nat) (v : byte) (l : list byte) : list byte :=
  match l, i with
  | [], _ => []
  | _ :: t, O => v :: t
  | h :: t, S i' => h :: set_nth i' v t
  end.

Definition apply_store (m : list byte * Z) (s : store) : list byte * Z :=
  match s with
  | StoreByte i v =>
      if (0 <=? i) && (i <? Z.of_nat (length (fst m)))
      then (set_nth (Z.to_nat i) v (fst m), snd m)
      else m
  | StoreOutLen v => (fst m, v)
  end.

Definition apply_stores (m : list byte * Z) (l : list store)
  : list byte * Z :=
  fold_left apply_store l m.

(** ** protocol.c: request decoder *)

Definition decode_protocol_header (data : list byte) (data_len : Z)
    (header : protocol_header_t)
  : Traced Z (error_code_t * protocol_header_t) :=
  if data_len <? 16 then tr_ret (ERR_INTERNAL, header) else
  h_magic <- read_u32_be data 0 ;;
  h_version <- read_u16_be data (0 + 4) ;;
  h_msg_type <- read_u16_be data (0 + 6) ;;
  h_payload_len <- read_u32_be data (0 + 8) ;;
  h_reserved <- read_u32_be data (0 + 12) ;;
  let header :=
    mk_header h_magic h_version h_msg_type h_payload_len h_reserved in
  if negb (magic header =? PROTOCOL_MAGIC) then
    tr_ret (ERR_INVALID_MAGIC, header)
  else if (version header <? MIN_SUPPORTED_VERSION)
          || (version header >? MAX_SUPPORTED_VERSION) then
    tr_ret (ERR_UNSUPPORTED_VERSION, header)
  else if negb (msg_type header =? MSG_GENERATE_REQUEST) then
    tr_ret (ERR_INTERNAL, header)
  else if payload_len header >? MAX_MESSAGE_SIZE - 16 then
    tr_ret (ERR_INTERNAL, header)
  else tr_ret (ERR_NONE, header).

(** The local [protocol_header_t header;] before it is filled in. *)
Definition header_uninit : protocol_header_t := mk_header 0 0 0 0 0.

Definition set_request_id (v : Z) (r : sd35_generate_request_t) :=
  mk_request v (model_id r) (width r) (height r) (steps r) (cfg_scale r)
    (seed r) (clip_l_offset r) (clip_l_length r) (clip_g_offset r)
    (clip_g_length r) (t5_offset r) (t5_length r) (prompt_data r)
    (prompt_data_len r).

Definition set_model_id (v : Z) (r : sd35_generate_request_t) :=
  mk_request (request_id r) v (width r) (height r) (steps r) (cfg_scale r)
    (seed r) (clip_l_offset r) (clip_l_length r) (clip_g_offset r)
    (clip_g_length r) (t5_offset r) (t5_length r) (prompt_data r)
    (prompt_data_len r).

Definition bad_dimension (d : Z) : bool :=
  (d <? SD35_MIN_DIMENSION) || (d >? SD35_MAX_DIMENSION)
  || negb (d mod SD35_DIMENSION_ALIGNMENT =? 0).

Definition bad_prompt_length (len : Z) : bool :=
  (len <? SD35_MIN_PROMPT_LENGTH) || (len >? SD35_MAX_PROMPT_LENGTH).

(** [decode_generate_request(data, data_len, req)].  [data] and [req]
    are [None] for NULL; the second component of the result is what
    [*req] holds on return. *)
Definition decode_generate_request (data : option (list byte))
    (data_len : Z) (req : option sd35_generate_request_t)
  : Traced Z (error_code_t * option sd35_generate_request_t) :=
  match data, req with
  | Some data, Some req =>
    if data_len <? 16 then tr_ret (ERR_INTERNAL, Some req) else
    eh <- decode_protocol_header data data_len header_uninit ;;
    let err := fst eh in
    let header := snd eh in
    if negb (is_ERR_NONE err) then tr_ret (err, Some req) else
    if data_len <? wrap32 (16 + payload_len header) then
      tr_ret (ERR_INTERNAL, Some req) else
    if payload_len header <? 12 + 48 then
      tr_ret (ERR_INTERNAL, Some req) else
    let ptr := 0 + 16 in
    let remaining := payload_len header in
    v_request_id <- read_u64_be data ptr ;;
    let req := set_request_id v_request_id req in
    let ptr := ptr + 8 in
    let remaining := wrap64 (remaining - 8) in
    v_model_id <- read_u32_be data ptr ;;
    let req := set_model_id v_model_id req in
    let ptr := ptr + 4 in
    let remaining := wrap64 (remaining - 4) in
    if negb (model_id req =? MODEL_ID_SD35) then
      tr_ret (ERR_INVALID_MODEL_ID, Some req) else
    if remaining <? 48 then tr_ret (ERR_INTERNAL, Some req) else
    v_width <- read_u32_be data ptr ;;
    let ptr := ptr + 4 in
    v_height <- read_u32_be data ptr ;;
    let ptr := ptr + 4 in
    v_steps <- read_u32_be data ptr ;;
    let ptr := ptr + 4 in
    v_cfg_scale <- read_f32_be data ptr ;;
    let ptr := ptr + 4 in
    v_seed <- read_u64_be data ptr ;;
    let ptr := ptr + 8 in
    v_clip_l_offset <- read_u32_be data ptr ;;
    let ptr := ptr + 4 in
    v_clip_l_length <- read_u32_be data ptr ;;
    let ptr := ptr + 4 in
    v_clip_g_offset <- read_u32_be data ptr ;;
    let ptr := ptr + 4 in
    v_clip_g_length <- read_u32_be data ptr ;;
    let ptr := ptr + 4 in
    v_t5_offset <- read_u32_be data ptr ;;
    let ptr := ptr + 4 in
    v_t5_length <- read_u32_be data ptr ;;
    let ptr := ptr + 4 in
    let remaining := wrap64 (remaining - 48) in
    let req :=
      mk_request (request_id req) (model_id req) v_width v_height v_steps
        v_cfg_scale v_seed v_clip_l_offset v_clip_l_length v_clip_g_offset
        v_clip_g_length v_t5_offset v_t5_length (Some ptr) remaining in
    if bad_dimension (width req) then
      tr_ret (ERR_INVALID_DIMENSIONS, Some req) else
    if bad_dimension (height req) then
      tr_ret (ERR_INVALID_DIMENSIONS, Some req) else
    if (steps req <? SD35_MIN_STEPS) || (steps req >? SD35_MAX_STEPS) then
      tr_ret (ERR_INVALID_STEPS, Some req) else
    if SFltb (cfg_scale req) SD35_MIN_CFG
       || SFltb SD35_MAX_CFG (cfg_scale req)
       || isnan (cfg_scale req) || isinf (cfg_scale req) then
      tr_ret (ERR_INVALID_CFG, Some req) else
    if bad_prompt_length (clip_l_length req) then
      tr_ret (ERR_INVALID_PROMPT, Some req) else
    if bad_prompt_length (clip_g_length req) then
      tr_ret (ERR_INVALID_PROMPT, Some req) else
    if bad_prompt_length (t5_length req) then
      tr_ret (ERR_INVALID_PROMPT, Some req) else
    if clip_l_offset req >? prompt_data_len req then
      tr_ret (ERR_INVALID_PROMPT, Some req) else
    if clip_l_length req
         >? wrap64 (prompt_data_len req - clip_l_offset req) then
      tr_ret (ERR_INVALID_PROMPT, Some req) else
    if clip_g_offset req >? prompt_data_len req then
      tr_ret (ERR_INVALID_PROMPT, Some req) else
    if clip_g_length req
         >? wrap64 (prompt_data_len req - clip_g_offset req) then
      tr_ret (ERR_INVALID_PROMPT, Some req) else
    if t5_offset req >? prompt_data_len req then
      tr_ret (ERR_INVALID_PROMPT, Some req) else
    if t5_length req >? wrap64 (prompt_data_len req - t5_offset req) then
      tr_ret (ERR_INVALID_PROMPT, Some req) else
    tr_ret (ERR_NONE, Some req)
  | _, _ => tr_ret (ERR_INTERNAL, req)
  end.

(** ** protocol.c: encoders

    [buffer] is the index the output pointer refers to; [None] stands
    for a NULL argument.  Neither encoder reads the output buffer, so
    its effect is exactly its list of stores. *)

Definition encode_generate_response
    (resp : option sd35_generate_response_t) (buffer : option Z)
    (buf_size : Z) (out_len : option unit)
  : Traced store error_code_t :=
  match resp, buffer, out_len with
  | Some resp, Some buffer, Some _ =>
    match image_data resp with
    | None => tr_ret ERR_INTERNAL
    | Some image =>
      if bad_dimension (image_width resp) then
        tr_ret ERR_INVALID_DIMENSIONS else
      if bad_dimension (image_height resp) then
        tr_ret ERR_INVALID_DIMENSIONS else
      if negb (channels resp =? 3) && negb (channels resp =? 4) then
        tr_ret ERR_INVALID_DIMENSIONS else
      if image_width resp >? UINT32_MAX / image_height resp then
        tr_ret ERR_INVALID_DIMENSIONS else
      let pixels := wrap32 (image_width resp * image_height resp) in
      if pixels >? UINT32_MAX / channels resp then
        tr_ret ERR_INVALID_DIMENSIONS else
      let expected_data_len := wrap32 (pixels * channels resp) in
      if negb (image_data_len resp =? expected_data_len) then
        tr_ret ERR_INVALID_DIMENSIONS else
      if image_data_len resp >? MAX_MESSAGE_SIZE - 16 - 16 then
        tr_ret ERR_INTERNAL else
      let payload_len := wrap32 (16 + 16 + image_data_len resp) in
      let total_len := wrap32 (16 + payload_len) in
      if total_len >? buf_size then tr_ret ERR_INTERNAL else
      let ptr := buffer in
      write_u32_be ptr PROTOCOL_MAGIC ;;;
      let ptr := ptr + 4 in
      write_u16_be ptr PROTOCOL_VERSION_1 ;;;
      let ptr := ptr + 2 in
      write_u16_be ptr MSG_GENERATE_RESPONSE ;;;
      let ptr := ptr + 2 in
      write_u32_be ptr payload_len ;;;
      let ptr := ptr + 4 in
      write_u32_be ptr 0 ;;;
      let ptr := ptr + 4 in
      write_u64_be ptr (resp_request_id resp) ;;;
      let ptr := ptr + 8 in
      write_u32_be ptr (resp_status resp) ;;;
      let ptr := ptr + 4 in
      write_u32_be ptr (generation_time_ms resp) ;;;
      let ptr := ptr + 4 in
      write_u32_be ptr (image_width resp) ;;;
      let ptr := ptr + 4 in
      write_u32_be ptr (image_height resp) ;;;
      let ptr := ptr + 4 in
      write_u32_be ptr (channels resp) ;;;
      let ptr := ptr + 4 in
      write_u32_be ptr (image_data_len resp) ;;;
      let ptr := ptr + 4 in
      memcpy ptr image (image_data_len resp) ;;;
      tr_emit (StoreOutLen total_len) ;;;
      tr_ret ERR_NONE
    end
  | _, _, _ => tr_ret ERR_INTERNAL
  end.

Definition encode_error_response
    (resp : option error_response_t) (buffer : option Z)
    (buf_size : Z) (out_len : option unit)
  : Traced store error_code_t :=
  match resp, buffer, out_len with
  | Some resp, Some buffer, Some _ =>
    if match error_msg resp with None => true | Some _ => false end
       && (error_msg_len resp >? 0) then tr_ret ERR_INTERNAL else
    let payload_len := wrap32 (8 + 4 + 4 + 2 + error_msg_len resp) in
    if payload_len >? MAX_MESSAGE_SIZE - 16 then tr_ret ERR_INTERNAL else
    let total_len := wrap32 (16 + payload_len) in
    if total_len >? buf_size then tr_ret ERR_INTERNAL else
    let ptr := buffer in
    write_u32_be ptr PROTOCOL_MAGIC ;;;
    let ptr := ptr + 4 in
    write_u16_be ptr PROTOCOL_VERSION_1 ;;;
    let ptr := ptr + 2 in
    write_u16_be ptr MSG_ERROR ;;;
    let ptr := ptr + 2 in
    write_u32_be ptr payload_len ;;;
    let ptr := ptr + 4 in
    write_u32_be ptr 0 ;;;
    let ptr := ptr + 4 in
    write_u64_be ptr (err_request_id resp) ;;;
    let ptr := ptr + 8 in
    write_u32_be ptr (err_status resp) ;;;
    let ptr := ptr + 4 in
    write_u32_be ptr (error_code resp) ;;;
    let ptr := ptr + 4 in
    write_u16_be ptr (error_msg_len resp) ;;;
    let ptr := ptr + 2 in
    (if error_msg_len resp >? 0 then
       memcpy ptr (match error_msg resp with Some m => m | None => [] end)
         (error_msg_len resp)
     else tr_ret tt) ;;;
    tr_emit (StoreOutLen total_len) ;;;
    tr_ret ERR_NONE
  | _, _, _ => tr_ret ERR_INTERNAL
  end.

End Protocol.

(** ** sd_wrapper.h: the inference engine interface *)

Module Engine.

Inductive sd_wrapper_error_t : Type :=
| SD_WRAPPER_OK
| SD_WRAPPER_ERR_INVALID_PARAM
| SD_WRAPPER_ERR_MODEL_NOT_FOUND
| SD_WRAPPER_ERR_MODEL_CORRUPT
| SD_WRAPPER_ERR_OUT_OF_MEMORY
| SD_WRAPPER_ERR_GPU_ERROR
| SD_WRAPPER_ERR_INIT_FAILED
| SD_WRAPPER_ERR_GENERATION_FAILED.

Definition is_SD_WRAPPER_OK (e : sd_wrapper_error_t) : bool :=
  match e with SD_WRAPPER_OK => true | _ => false end.

(** [prompt] is the NUL-terminated string without its terminator. *)
Record sd_wrapper_gen_params_t : Type := mk_gen_params {
  prompt : list byte;
  negative_prompt : option (list byte);
  gen_width : Z;
  gen_height : Z;
  gen_steps : Z;
  gen_cfg_scale : spec_float;
  gen_seed : Z;
  clip_skip : Z
}.

Record sd_wrapper_image_t : Type := mk_image {
  img_width : Z;
  img_height : Z;
  img_channels : Z;
  img_data : option (list byte);
  img_data_size : Z
}.

(** The operations the pipeline consumes from an engine handle whose
    state has type [C]. *)
Class Engine (C : Type) : Type := {
  sd_wrapper_reset : C -> sd_wrapper_error_t * C;
  sd_wrapper_generate :
    C -> sd_wrapper_gen_params_t -> sd_wrapper_error_t * sd_wrapper_image_t * C
}.

(** The mock engine of the unit tests ([test_generate.c]). *)
Record mock_sd_ctx_t : Type := mk_mock {
  error_to_return : sd_wrapper_error_t;
  last_params : option sd_wrapper_gen_params_t;
  generate_call_count : Z
}.

Definition mock_generate (m : mock_sd_ctx_t) (params : sd_wrapper_gen_params_t)
  : sd_wrapper_error_t * sd_wrapper_image_t * mock_sd_ctx_t :=
  let m := mk_mock (error_to_return m) (Some params)
             (wrap32 (generate_call_count m + 1)) in
  if negb (is_SD_WRAPPER_OK (error_to_return m)) then
    (error_to_return m, mk_image 0 0 0 None 0, m)
  else
    let size := wrap32 (wrap32 (gen_width params * gen_height params) * 3) in
    (SD_WRAPPER_OK,
     mk_image (gen_width params) (gen_height params) 3
       (Some (repeat Byte.x00 (Z.to_nat size))) size,
     m).

#[export] Instance mock_engine : Engine mock_sd_ctx_t := {
  sd_wrapper_reset m := (SD_WRAPPER_OK, m);
  sd_wrapper_generate := mock_generate
}.

End Engine.

(** ** generate.c: the generation pipeline *)

Module Generate.
Import Protocol Engine.

(** What the pipeline asks of the engine, in call order. *)
Inductive engine_call : Type :=
| CallReset
| CallGenerate (params : sd_wrapper_gen_params_t)
| CallFreeImage.

(** Process-wide state of the pipeline: the [generation_performed]
    flag, the readings [clock_gettime(CLOCK_MONOTONIC)] will return (in
    milliseconds), and the engine calls made so far, latest first. *)
Record pipeline : Type := mk_pipeline {
  generation_performed : bool;
  clock : list Z;
  calls : list engine_call
}.

(** The state at process start: [static bool generation_performed = false]. *)
Definition pipeline_init (clock : list Z) : pipeline :=
  mk_pipeline false clock [].

Definition called (c : engine_call) (st : pipeline) : pipeline :=
  mk_pipeline (generation_performed st) (clock st) (c :: calls st).

Definition set_generation_performed (b : bool) (st : pipeline) : pipeline :=
  mk_pipeline b (clock st) (calls st).

(** [(int64_t)x] for a [uint64_t] value. *)
Definition to_int64 (x : Z) : Z := if x <? 2 ^ 63 then x else x - 2 ^ 64.

(** The C string a [char] buffer holds: its bytes before the first
    NUL. *)
Fixpoint c_string (buf : list byte) : list byte :=
  match buf with
  | [] => []
  | b :: buf' => if Byte.eqb b Byte.x00 then [] else b :: c_string buf'
  end.

(** [mem] is the memory [req->prompt_data] points into.  On success the
    second component is the filled-in parameter record; its [prompt]
    points at the local buffer, which holds the CLIP-L slice followed by
    a NUL, and is the C string found there. *)
Definition convert_request_params (mem : list byte)
    (req : option sd35_generate_request_t) (prompt_buf_size : Z)
  : error_code_t * option sd_wrapper_gen_params_t :=
  match req with
  | None => (ERR_INTERNAL, None)
  | Some req =>
    match prompt_data req with
    | None => (ERR_INVALID_PROMPT, None)
    | Some pd =>
      if (clip_l_length req =? 0) || (clip_l_length req >=? prompt_buf_size)
      then (ERR_INVALID_PROMPT, None) else
      if wrap32 (clip_l_offset req + clip_l_length req) >? prompt_data_len req
      then (ERR_INVALID_PROMPT, None) else
      let prompt :=
        firstn (Z.to_nat (clip_l_length req))
          (skipn (Z.to_nat (pd + clip_l_offset req)) mem)
        ++ [Byte.x00] in
      (ERR_NONE,
       Some (mk_gen_params (c_string prompt) None (width req) (height req)
               (steps req) (cfg_scale req) (to_int64 (seed req)) 0))
    end
  end.

(** Returns the protocol error and the value stored to [*status]. *)
Definition map_sd_error (sd_err : sd_wrapper_error_t) : error_code_t * Z :=
  match sd_err with
  | SD_WRAPPER_OK => (ERR_NONE, STATUS_OK)
  | SD_WRAPPER_ERR_INVALID_PARAM => (ERR_INVALID_PROMPT, STATUS_BAD_REQUEST)
  | SD_WRAPPER_ERR_OUT_OF_MEMORY =>
      (ERR_OUT_OF_MEMORY, STATUS_INTERNAL_SERVER_ERROR)
  | SD_WRAPPER_ERR_GPU_ERROR => (ERR_GPU_ERROR, STATUS_INTERNAL_SERVER_ERROR)
  | SD_WRAPPER_ERR_MODEL_NOT_FOUND
  | SD_WRAPPER_ERR_MODEL_CORRUPT
  | SD_WRAPPER_ERR_INIT_FAILED
  | SD_WRAPPER_ERR_GENERATION_FAILED =>
      (ERR_INTERNAL, STATUS_INTERNAL_SERVER_ERROR)
  end.

Definition get_time_ms (st : pipeline) : Z * pipeline :=
  (wrap64 (hd 0 (clock st)),
   mk_pipeline (generation_performed st) (tl (clock st)) (calls st)).

Section Pipeline.
Context {C : Type} `{Engine C}.

(** [process_generate_request(ctx, req, resp)].  The result carries the
    returned code, the engine handle and [*resp] after the call, and the
    process-wide state. *)
Definition process_generate_request (mem : list byte) (ctx : option C)
    (req : option sd35_generate_request_t)
    (resp : option sd35_generate_response_t) (st : pipeline)
  : error_code_t * option C * option sd35_generate_response_t * pipeline :=
  match ctx, req, resp with
  | Some c, Some rq, Some _ =>
    let '(err, params) :=
      convert_request_params mem req (SD35_MAX_PROMPT_LENGTH + 1) in
    match is_ERR_NONE err, params with
    | true, Some params =>
      let '(sd_err, c, st) :=
        if generation_performed st then
          let '(e, c') := sd_wrapper_reset c in (e, c', called CallReset st)
        else (SD_WRAPPER_OK, c, st) in
      if negb (is_SD_WRAPPER_OK sd_err) then
        (ERR_INTERNAL, Some c, resp, st) else
      let '(start_time, st) := get_time_ms st in
      let '(sd_err, image, c) := sd_wrapper_generate c params in
      let st := called (CallGenerate params) st in
      let '(end_time, st) := get_time_ms st in
      let '(err, status) := map_sd_error sd_err in
      if negb (is_ERR_NONE err) then (err, Some c, resp, st) else
      match img_data image with
      | None => (ERR_INTERNAL, Some c, resp, st)
      | Some data =>
        if negb (img_width image =? width rq)
           || negb (img_height image =? height rq) then
          (ERR_INTERNAL, Some c, resp, called CallFreeImage st) else
        if bad_dimension (img_width image) then
          (ERR_INTERNAL, Some c, resp, called CallFreeImage st) else
        if bad_dimension (img_height image) then
          (ERR_INTERNAL, Some c, resp, called CallFreeImage st) else
        if negb (img_channels image =? 3) && negb (img_channels image =? 4)
        then (ERR_INTERNAL, Some c, resp, called CallFreeImage st) else
        if img_data_size image >? UINT32_MAX then
          (ERR_INTERNAL, Some c, resp, called CallFreeImage st) else
        let generation_time := wrap64 (end_time - start_time) in
        let generation_time :=
          if generation_time >? UINT32_MAX then UINT32_MAX
          else generation_time in
        let resp :=
          mk_response (request_id rq) STATUS_OK (wrap32 generation_time)
            (img_width image) (img_height image) (img_channels image)
            (wrap32 (img_data_size image)) (Some data) in
        (ERR_NONE, Some c, Some resp, set_generation_performed true st)
      end
    | _, _ => (err, ctx, resp, st)
    end
  | _, _, _ => (ERR_INTERNAL, ctx, resp, st)
  end.

(** [free_generate_response(resp)]: hands the image back to the engine
    and clears the pointer. *)
Definition free_generate_response (resp : option sd35_generate_response_t)
    (st : pipeline) : option sd35_generate_response_t * pipeline :=
  match resp with
  | None => (None, st)
  | Some r =>
    match image_data r with
    | None => (resp, st)
    | Some _ =>
      (Some (mk_response (resp_request_id r) (resp_status r)
               (generation_time_ms r) (image_width r) (image_height r)
               (channels r) 0 None),
       called CallFreeImage st)
    end
  end.

End Pipeline.

End Generate.

(** ** socket.c: timeouts, peer authentication and the accept loop *)

Module Socket.

Inductive socket_error_t : Type :=
| SOCKET_OK
| SOCKET_ERR_AUTH_FAILED
| SOCKET_ERR_AUTH_UID_MISMATCH
| SOCKET_ERR_INVALID_FD
| SOCKET_ERR_TIMEOUT_FAILED
| SOCKET_ERR_ACCEPT_FAILED
| SOCKET_ERR_NULL_HANDLER.

Definition is_SOCKET_OK (e : socket_error_t) : bool :=
  match e with SOCKET_OK => true | _ => false end.

Definition DEFAULT_READ_TIMEOUT_S : Z := 60.
Definition DEFAULT_WRITE_TIMEOUT_S : Z := 5.

(** What the kernel keeps for a connected socket: the peer's UID as
    [SO_PEERCRED] reports it ([None] when that query fails) and the
    seconds of the two timeouts (0: none). *)
Record sock : Type := mk_sock {
  peer_uid : option Z;
  so_rcvtimeo : Z;
  so_sndtimeo : Z
}.

(** The descriptor table. *)
Definition kernel : Type := Z -> option sock.

Definition fd_update (k : kernel) (fd : Z) (s : option sock) : kernel :=
  fun fd' => if fd' =? fd then s else k fd'.

Inductive sockopt : Type := SO_RCVTIMEO | SO_SNDTIMEO.

(** [setsockopt(fd, SOL_SOCKET, opt, &tv, sizeof tv)] with
    [tv = {tv_sec, 0}]; [None] when the call fails. *)
Definition setsockopt (k : kernel) (fd : Z) (opt : sockopt) (tv_sec : Z)
  : option kernel :=
  match k fd with
  | None => None
  | Some s =>
      Some (fd_update k fd
              (Some match opt with
                    | SO_RCVTIMEO => mk_sock (peer_uid s) tv_sec (so_sndtimeo s)
                    | SO_SNDTIMEO => mk_sock (peer_uid s) (so_rcvtimeo s) tv_sec
                    end))
  end.

Definition socket_set_timeouts (fd read_timeout_s write_timeout_s : Z)
    (k : kernel) : socket_error_t * kernel :=
  if fd <? 0 then (SOCKET_ERR_INVALID_FD, k) else
  match
    (if read_timeout_s >? 0 then setsockopt k fd SO_RCVTIMEO read_timeout_s
     else Some k)
  with
  | None => (SOCKET_ERR_TIMEOUT_FAILED, k)
  | Some k1 =>
    match
      (if write_timeout_s >? 0 then
         setsockopt k1 fd SO_SNDTIMEO write_timeout_s
       else Some k1)
    with
    | None => (SOCKET_ERR_TIMEOUT_FAILED, k1)
    | Some k2 => (SOCKET_OK, k2)
    end
  end.

(** [process_uid] is what [getuid()] returns. *)
Definition socket_auth_connection (process_uid : Z) (client_fd : Z)
    (k : kernel) : socket_error_t :=
  if client_fd <? 0 then SOCKET_ERR_INVALID_FD else
  match k client_fd with
  | None => SOCKET_ERR_AUTH_FAILED
  | Some s =>
    match peer_uid s with
    | None => SOCKET_ERR_AUTH_FAILED
    | Some cred_uid =>
        if negb (cred_uid =? process_uid) then SOCKET_ERR_AUTH_UID_MISMATCH
        else SOCKET_OK
    end
  end.

(** What one call of [accept] on the listening socket yields.
    [AcceptEintr sig]: interrupted by a signal, which was a termination
    signal when [sig] holds.  [AcceptConn fd s sig]: a connection on
    descriptor [fd] with kernel state [s]; a termination signal arrives
    while it is being served when [sig] holds. *)
Inductive accept_event : Type :=
| AcceptEintr (sig : bool)
| AcceptError
| AcceptConn (fd : nat) (s : sock) (sig : bool).

(** What the accept loop does to a connection, in order. *)
Inductive loop_event : Type :=
| EvAuth (fd : Z) (result : socket_error_t)
| EvSetTimeouts (fd read_timeout_s write_timeout_s : Z)
    (result : socket_error_t)
| EvHandler (fd : Z) (seen : option sock) (result : Z)
| EvClose (fd : Z).

Section AcceptLoop.
Context {HS : Type}.

(** A connection handler sees the descriptor table and its own state. *)
Definition socket_connection_handler_t : Type :=
  Z -> kernel -> HS -> Z * kernel * HS.

Record server : Type := mk_server {
  fds : kernel;
  process_uid : Z;
  g_shutdown_requested : bool;
  handler_state : HS;
  events : list loop_event
}.

Definition socket_request_shutdown (w : server) : server :=
  mk_server (fds w) (process_uid w) true (handler_state w) (events w).

Definition socket_is_shutdown_requested (w : server) : bool :=
  g_shutdown_requested w.

Definition socket_reset_shutdown (w : server) : server :=
  mk_server (fds w) (process_uid w) false (handler_state w) (events w).

Definition signalled (sig : bool) (w : server) : server :=
  if sig then socket_request_shutdown w else w.

Definition logged (e : loop_event) (w : server) : server :=
  mk_server (fds w) (process_uid w) (g_shutdown_requested w)
    (handler_state w) (events w ++ [e]).

Definition with_fds (k : kernel) (w : server) : server :=
  mk_server k (process_uid w) (g_shutdown_requested w) (handler_state w)
    (events w).

(** The [while (!g_shutdown_requested)] loop of [socket_accept_loop],
    run against the outcomes of the successive [accept] calls.  [None]
    is returned when the outcomes are used up: the loop is then blocked
    in [accept]. *)
Fixpoint accept_loop (handler : socket_connection_handler_t)
    (pending : list accept_event) (w : server)
  : option socket_error_t * server :=
  if g_shutdown_requested w then (Some SOCKET_OK, w) else
  match pending with
  | [] => (None, w)
  | AcceptEintr sig :: pending' =>
      accept_loop handler pending' (signalled sig w)
  | AcceptError :: _ => (Some SOCKET_ERR_ACCEPT_FAILED, w)
  | AcceptConn fd s sig :: pending' =>
      let client_fd := Z.of_nat fd in
      let w := with_fds (fd_update (fds w) client_fd (Some s)) w in
      let auth_err := socket_auth_connection (process_uid w) client_fd (fds w) in
      let w := logged (EvAuth client_fd auth_err) w in
      if negb (is_SOCKET_OK auth_err) then
        let w := with_fds (fd_update (fds w) client_fd None) w in
        accept_loop handler pending' (logged (EvClose client_fd) w)
      else
        let '(timeout_err, k) :=
          socket_set_timeouts client_fd DEFAULT_READ_TIMEOUT_S
            DEFAULT_WRITE_TIMEOUT_S (fds w) in
        let w := with_fds k w in
        let w :=
          logged (EvSetTimeouts client_fd DEFAULT_READ_TIMEOUT_S
                    DEFAULT_WRITE_TIMEOUT_S timeout_err) w in
        let seen := fds w client_fd in
        let '(handler_result, k, h) :=
          handler client_fd (fds w) (handler_state w) in
        let w :=
          mk_server k (process_uid w) (g_shutdown_requested w) h (events w) in
        let w := logged (EvHandler client_fd seen handler_result) w in
        let w := signalled sig w in
        let w := with_fds (fd_update (fds w) client_fd None) w in
        accept_loop handler pending' (logged (EvClose client_fd) w)
  end.

Definition socket_accept_loop (listen_fd : Z)
    (handler : option socket_connection_handler_t)
    (pending : list accept_event) (w : server)
  : option socket_error_t * server :=
  if listen_fd <? 0 then (Some SOCKET_ERR_INVALID_FD, w) else
  match handler with
  | None => (Some SOCKET_ERR_NULL_HANDLER, w)
  | Some handler => accept_loop handler pending w
  end.

End AcceptLoop.

End Socket.

(** ** main.c: the per-connection handler *)

Module Main.
Import Protocol Engine Generate.

Definition MAX_REQUEST_SIZE : Z := 10 * 1024 * 1024.

(** What one [read] on the client socket yields: interruption by a
    signal, another error, or the bytes the peer has made available
    (none: the peer has closed).  Past the end of the list the peer has
    closed. *)
Inductive rd_event : Type :=
| RdEintr
| RdFail
| RdData (bs : list byte).

(** What one [write] on the client socket yields: interruption by a
    signal, another error, or the number of bytes the kernel is ready to
    take.  Past the end of the list the connection is broken. *)
Inductive wr_event : Type :=
| WrEintr
| WrFail
| WrAccept (n : nat).

(** [read_full(fd, buf, count)], entered with [total] bytes already in
    [buf].  Returns the status, the buffer and the remaining outcomes. *)
Fixpoint read_full (rd : list rd_event) (buf : list byte) (total count : Z)
  : Z * list byte * list rd_event :=
  if negb (total <? count) then (0, buf, rd) else
  match rd with
  | [] => (-1, buf, [])
  | RdEintr :: rd' => read_full rd' buf total count
  | RdFail :: rd' => (-1, buf, rd')
  | RdData bs :: rd' =>
      let want := Z.to_nat (count - total) in
      if (length bs =? 0)%nat then (-1, buf, rd')
      else if (length bs <=? want)%nat then
        read_full rd' (buf ++ bs) (total + Z.of_nat (length bs)) count
      else
        (0, buf ++ firstn want bs, RdData (skipn want bs) :: rd')
  end.

(** [write_full(fd, buf, count)], entered with [total] bytes already
    written.  Returns the status, the remaining outcomes and what the
    peer has received. *)
Fixpoint write_full (wr : list wr_event) (sent : list byte)
    (buf : list byte) (total count : Z)
  : Z * list wr_event * list byte :=
  if negb (total <? count) then (0, wr, sent) else
  match wr with
  | [] => (-1, [], sent)
  | WrEintr :: wr' => write_full wr' sent buf total count
  | WrFail :: wr' => (-1, wr', sent)
  | WrAccept n :: wr' =>
      let k := Nat.min n (Z.to_nat (count - total)) in
      write_full wr' (sent ++ firstn k (skipn (Z.to_nat total) buf)) buf
        (total + Z.of_nat k) count
  end.

Definition is_server_error (code : error_code_t) : bool :=
  match code with
  | ERR_OUT_OF_MEMORY
  | ERR_GPU_ERROR
  | ERR_TIMEOUT
  | ERR_INTERNAL => true
  | ERR_NONE
  | ERR_INVALID_MAGIC
  | ERR_UNSUPPORTED_VERSION
  | ERR_INVALID_MODEL_ID
  | ERR_INVALID_PROMPT
  | ERR_INVALID_DIMENSIONS
  | ERR_INVALID_STEPS
  | ERR_INVALID_CFG => false
  end.

(** The [error_response_t] that [send_error_response] fills in.
    [error_msg] is the C string without its terminator. *)
Definition error_response_for (request_id : Z) (error_code : error_code_t)
    (error_msg : list byte) : error_response_t :=
  mk_error_response request_id
    (if is_server_error error_code then STATUS_INTERNAL_SERVER_ERROR
     else STATUS_BAD_REQUEST)
    (wrap32 (error_code_value error_code))
    (wrap16 (Z.of_nat (length error_msg)))
    (Some error_msg).

Section Handler.
Context {C : Type} `{Engine C}.

(** The handler's surroundings: the client socket ([rd], [wr], and the
    bytes [sent] to the peer so far), the outcomes of the coming
    allocations ([true]: succeeds; past the end they succeed), the
    engine handle [g_sd_ctx] and the pipeline's process-wide state. *)
Record world : Type := mk_world {
  rd : list rd_event;
  wr : list wr_event;
  sent : list byte;
  heap : list bool;
  g_sd_ctx : option C;
  pipeline_state : pipeline
}.

Definition with_rd (v : list rd_event) (w : world) : world :=
  mk_world v (wr w) (sent w) (heap w) (g_sd_ctx w) (pipeline_state w).

Definition with_wr (v : list wr_event) (s : list byte) (w : world) : world :=
  mk_world (rd w) v s (heap w) (g_sd_ctx w) (pipeline_state w).

Definition with_engine (c : option C) (st : pipeline) (w : world) : world :=
  mk_world (rd w) (wr w) (sent w) (heap w) c st.

(** [malloc] / [realloc]: whether a block was obtained. *)
Definition alloc (w : world) : bool * world :=
  (hd true (heap w),
   mk_world (rd w) (wr w) (sent w) (tl (heap w)) (g_sd_ctx w)
     (pipeline_state w)).

Definition send_error_response (client_fd : Z) (request_id : Z)
    (error_code : error_code_t) (error_msg : list byte) (w : world)
  : Z * world :=
  let err_resp := error_response_for request_id error_code error_msg in
  let '(encode_err, stores) :=
    encode_error_response (Some err_resp) (Some 0) 4096 (Some tt) in
  if negb (is_ERR_NONE encode_err) then (-1, w) else
  let '(response_buf, response_len) :=
    apply_stores (repeat Byte.x00 4096, 0) stores in
  let '(r, wr', sent') :=
    write_full (wr w) (sent w) response_buf 0 response_len in
  let w := with_wr wr' sent' w in
  if negb (r =? 0) then (-1, w) else (0, w).

(** The locals [req] and [resp] before they are written. *)
Definition req_uninit : sd35_generate_request_t :=
  mk_request 0 0 0 0 0 (S754_zero false) 0 0 0 0 0 0 0 None 0.

Definition resp_zeroed : sd35_generate_response_t :=
  mk_response 0 0 0 0 0 0 0 None.

Definition header_byte (header : list byte) (i : nat) : Z :=
  byte.unsigned (nth i header Byte.x00).

(** "invalid magic number", "payload too large", "invalid request",
    "generation failed". *)
Definition msg_invalid_magic : list byte :=
  Eval cbv in
  map byte.of_Z [105; 110; 118; 97; 108; 105; 100; 32; 109; 97; 103; 105;
                 99; 32; 110; 117; 109; 98; 101; 114].
Definition msg_payload_too_large : list byte :=
  Eval cbv in
  map byte.of_Z [112; 97; 121; 108; 111; 97; 100; 32; 116; 111; 111; 32;
                 108; 97; 114; 103; 101].
Definition msg_invalid_request : list byte :=
  Eval cbv in
  map byte.of_Z [105; 110; 118; 97; 108; 105; 100; 32; 114; 101; 113; 117;
                 101; 115; 116].
Definition msg_generation_failed : list byte :=
  Eval cbv in
  map byte.of_Z [103; 101; 110; 101; 114; 97; 116; 105; 111; 110; 32; 102;
                 97; 105; 108; 101; 100].

(** [handle_connection(client_fd)]: 0 to continue the request loop, -1
    to leave it.  (The diagnostics printed to stderr are left out.) *)
Definition handle_connection (client_fd : Z) (w : world) : Z * world :=
  let '(r, header, rd') := read_full (rd w) [] 0 16 in
  let w := with_rd rd' w in
  if negb (r =? 0) then (-1, w) else
  let magic :=
    Z.lor (Z.lor (Z.lor (shl32 (header_byte header 0) 24)
                        (shl32 (header_byte header 1) 16))
                 (shl32 (header_byte header 2) 8))
          (header_byte header 3) in
  if negb (magic =? PROTOCOL_MAGIC) then
    let '(_, w) :=
      send_error_response client_fd 0 ERR_INVALID_MAGIC msg_invalid_magic w in
    (0, w)
  else
  let payload_len :=
    Z.lor (Z.lor (Z.lor (shl32 (header_byte header 8) 24)
                        (shl32 (header_byte header 9) 16))
                 (shl32 (header_byte header 10) 8))
          (header_byte header 11) in
  if payload_len >? MAX_REQUEST_SIZE - 16 then
    let '(_, w) :=
      send_error_response client_fd 0 ERR_INTERNAL msg_payload_too_large w in
    (0, w)
  else
  let total_size := wrap32 (16 + payload_len) in
  let '(allocated, w) := alloc w in
  if negb allocated then (-1, w) else
  let '(r, buffer, rd') :=
    if payload_len >? 0 then read_full (rd w) header 0 payload_len
    else (0, header, rd w) in
  let w := with_rd rd' w in
  if negb (r =? 0) then (-1, w) else
  let '(err, req, _) :=
    decode_generate_request (Some buffer) (wrap32 (16 + payload_len))
      (Some req_uninit) in
  if negb (is_ERR_NONE err) then
    let '(_, w) :=
      send_error_response client_fd 0 err msg_invalid_request w in
    (0, w)
  else
  let '(err, ctx, resp, st) :=
    process_generate_request buffer (g_sd_ctx w) req (Some resp_zeroed)
      (pipeline_state w) in
  let w := with_engine ctx st w in
  if negb (is_ERR_NONE err) then
    let '(_, w) :=
      send_error_response client_fd
        (match req with Some rq => request_id rq | None => 0 end)
        err msg_generation_failed w in
    (0, w)
  else
  let response_buf_size :=
    wrap32 (16 + 16 + 16
            + match resp with Some rs => image_data_len rs | None => 0 end) in
  let '(allocated, w) := alloc w in
  if negb allocated then
    let '(_, st) := free_generate_response resp (pipeline_state w) in
    (-1, with_engine (g_sd_ctx w) st w)
  else
  let buffer :=
    firstn (Z.to_nat response_buf_size)
      (buffer ++ repeat Byte.x00 (Z.to_nat response_buf_size)) in
  let '(err, stores) :=
    encode_generate_response resp (Some 0) response_buf_size (Some tt) in
  let '(buffer, response_len) := apply_stores (buffer, 0) stores in
  let '(_, st) := free_generate_response resp (pipeline_state w) in
  let w := with_engine (g_sd_ctx w) st w in
  if negb (is_ERR_NONE err) then (-1, w) else
  let '(r, wr', sent') := write_full (wr w) (sent w) buffer 0 response_len in
  let w := with_wr wr' sent' w in
  if negb (r =? 0) then (-1, w) else (0, w).

(** The request loop of worker mode:
    [while (!shutdown) if (handle_connection(fd) != 0) break;], for at
    most [n] requests.  [shutdown k] tells whether the shutdown flag is
    seen set at the top of iteration [k]. *)
Fixpoint request_loop (shutdown : nat -> bool) (k n : nat) (w : world)
  : nat * world :=
  match n with
  | O => (k, w)
  | S n' =>
      if shutdown k then (k, w) else
      let '(result, w) := handle_connection 0 w in
      if negb (result =? 0) then (S k, w)
      else request_loop shutdown (S k) n' w
  end.

End Handler.

Arguments world : clear implicits.

End Main.

(** * The specification's reading of the wire format *)

Module WireSpec.
Import Protocol.

(** ** Fields of a frame

    The wire format is a sequence of big-endian numbers; a field is
    read here by positional arithmetic on its octets. *)

Definition octet (data : list byte) (i : nat) : Z :=
  byte.unsigned (nth i data Byte.x00).

Fixpoint be_number (data : list byte) (off n : nat) (acc : Z) : Z :=
  match n with
  | O => acc
  | S n' => be_number data (S off) n' (acc * 256 + octet data off)
  end.

Definition be_field (data : list byte) (off n : nat) : Z :=
  be_number data off n 0.

(** ** The decoder as the specification words it (section 4.1)

    Eleven gates in order; each names the condition a frame must meet
    and the error kind returned when it does not.  Field positions are
    those of the wire format (section 6). *)

Definition f_magic (d : list byte) : Z := be_field d 0 4.
Definition f_version (d : list byte) : Z := be_field d 4 2.
Definition f_kind (d : list byte) : Z := be_field d 6 2.
Definition f_payload_len (d : list byte) : Z := be_field d 8 4.
Definition f_request_id (d : list byte) : Z := be_field d 16 8.
Definition f_model_id (d : list byte) : Z := be_field d 24 4.
Definition f_width (d : list byte) : Z := be_field d 28 4.
Definition f_height (d : list byte) : Z := be_field d 32 4.
Definition f_steps (d : list byte) : Z := be_field d 36 4.
Definition f_cfg_bits (d : list byte) : Z := be_field d 40 4.
Definition f_seed (d : list byte) : Z := be_field d 44 8.
Definition f_clip_l_offset (d : list byte) : Z := be_field d 52 4.
Definition f_clip_l_length (d : list byte) : Z := be_field d 56 4.
Definition f_clip_g_offset (d : list byte) : Z := be_field d 60 4.
Definition f_clip_g_length (d : list byte) : Z := be_field d 64 4.
Definition f_t5_offset (d : list byte) : Z := be_field d 68 4.
Definition f_t5_length (d : list byte) : Z := be_field d 72 4.

(** The size of the prompt region: what follows the 12 + 48 bytes of
    metadata and parameters in the payload. *)
Definition prompt_region_size (d : list byte) : Z := f_payload_len d - 60.

Definition dimension_ok (v : Z) : bool :=
  (64 <=? v) && (v <=? 2048) && (v mod 64 =? 0).

(** Sign, biased exponent and fraction of a binary32 pattern. *)
Definition f32_sign (bits : Z) : Z := bits / 2 ^ 31.
Definition f32_expo (bits : Z) : Z := (bits / 2 ^ 23) mod 2 ^ 8.
Definition f32_frac (bits : Z) : Z := bits mod 2 ^ 23.

Definition f32_finite (bits : Z) : bool := negb (f32_expo bits =? 255).

(** The magnitude of a finite pattern, counted in units of [2^-149]
    (the smallest positive binary32 number), which makes it an
    integer. *)
Definition f32_magnitude (bits : Z) : Z :=
  if f32_expo bits =? 0 then f32_frac bits
  else (2 ^ 23 + f32_frac bits) * 2 ^ (f32_expo bits - 1).

(** Finite with value in [[0.0, 20.0]]; 20.0 is [20 * 2^149] units. *)
Definition cfg_ok (bits : Z) : bool :=
  f32_finite bits
  && (if f32_sign bits =? 0 then f32_magnitude bits <=? 20 * 2 ^ 149
      else f32_magnitude bits =? 0).

Definition prompt_pair_ok (region offset length : Z) : bool :=
  (1 <=? length) && (length <=? 256) && (offset <=? region)
  && (length <=? region - offset).

Definition prompt_pairs_ok (d : list byte) : bool :=
  prompt_pair_ok (prompt_region_size d) (f_clip_l_offset d)
    (f_clip_l_length d)
  && prompt_pair_ok (prompt_region_size d) (f_clip_g_offset d)
       (f_clip_g_length d)
  && prompt_pair_ok (prompt_region_size d) (f_t5_offset d) (f_t5_length d).

(** The first ten gates, each a condition to meet and the kind
    returned otherwise, for a slice of [n] bytes starting with [d]. *)
Definition gates_before_prompt (n : Z) (d : list byte)
  : list (bool * error_code_t) :=
  [ (16 <=? n, ERR_INTERNAL);
    (f_magic d =? 0x57455645, ERR_INVALID_MAGIC);
    ((1 <=? f_version d) && (f_version d <=? 1), ERR_UNSUPPORTED_VERSION);
    (f_kind d =? 1, ERR_INTERNAL);
    ((f_payload_len d <=? 10 * 1024 * 1024 - 16)
     && (16 + f_payload_len d <=? n), ERR_INTERNAL);
    (60 <=? f_payload_len d, ERR_INTERNAL);
    (f_model_id d =? 0, ERR_INVALID_MODEL_ID);
    (dimension_ok (f_width d) && dimension_ok (f_height d),
     ERR_INVALID_DIMENSIONS);
    ((1 <=? f_steps d) && (f_steps d <=? 100), ERR_INVALID_STEPS);
    (cfg_ok (f_cfg_bits d), ERR_INVALID_CFG) ].

Definition gates (n : Z) (d : list byte) : list (bool * error_code_t) :=
  gates_before_prompt n d ++ [ (prompt_pairs_ok d, ERR_INVALID_PROMPT) ].

(** The kind of the first gate that is not met; success when all are. *)
Fixpoint first_violation (gs : list (bool * error_code_t)) : error_code_t :=
  match gs with
  | [] => ERR_NONE
  | (met, kind) :: gs' => if met then first_violation gs' else kind
  end.

Definition decode_spec (d : list byte) : error_code_t :=
  first_violation (gates (Z.of_nat (length d)) d).

Definition all_met (gs : list (bool * error_code_t)) : bool :=
  forallb fst gs.

(** The request a frame carries, its prompt region starting at byte 76
    of the frame. *)
Definition frame_request (d : list byte) : sd35_generate_request_t :=
  mk_request (f_request_id d) (f_model_id d) (f_width d) (f_height d)
    (f_steps d) (float_of_bits (f_cfg_bits d)) (f_seed d)
    (f_clip_l_offset d) (f_clip_l_length d) (f_clip_g_offset d)
    (f_clip_g_length d) (f_t5_offset d) (f_t5_length d) (Some 76)
    (prompt_region_size d).

(** ** Auxiliary readings of the header *)

Definition header_of (d : list byte) : protocol_header_t :=
  mk_header (f_magic d) (f_version d) (f_kind d) (f_payload_len d)
    (be_field d 12 4).

Definition header_verdict (d : list byte) : error_code_t :=
  if negb (f_magic d =? PROTOCOL_MAGIC) then ERR_INVALID_MAGIC
  else if (f_version d <? MIN_SUPPORTED_VERSION)
          || (f_version d >? MAX_SUPPORTED_VERSION) then
    ERR_UNSUPPORTED_VERSION
  else if negb (f_kind d =? MSG_GENERATE_REQUEST) then ERR_INTERNAL
  else if f_payload_len d >? MAX_MESSAGE_SIZE - 16 then ERR_INTERNAL
  else ERR_NONE.

(** The first [k] indices of a buffer, in order. *)
Definition loads_prefix (k : nat) : list Z := map Z.of_nat (seq 0 k).

(** ** Building frames *)

(** The [n] octets of [v], most significant first. *)
Fixpoint be_bytes (n : nat) (v : Z) : list byte :=
  match n with
  | O => []
  | S n' => byte.of_Z (Z.shiftr v (8 * Z.of_nat n')) :: be_bytes n' v
  end.

Definition be16 : Z -> list byte := be_bytes 2.
Definition be32 : Z -> list byte := be_bytes 4.
Definition be64 : Z -> list byte := be_bytes 8.

(** The request frame the unit tests build ([build_valid_request] of
    [test_protocol.c]): one prompt, repeated once per encoder. *)
Definition build_valid_request (request_id width height steps cfg_bits seed : Z)
    (prompt : list byte) : list byte :=
  let prompt_len := Z.of_nat (length prompt) in
  be32 PROTOCOL_MAGIC ++ be16 PROTOCOL_VERSION_1 ++ be16 MSG_GENERATE_REQUEST
  ++ be32 (12 + 48 + prompt_len * 3) ++ be32 0
  ++ be64 request_id ++ be32 MODEL_ID_SD35
  ++ be32 width ++ be32 height ++ be32 steps ++ be32 cfg_bits ++ be64 seed
  ++ be32 0 ++ be32 prompt_len
  ++ be32 prompt_len ++ be32 prompt_len
  ++ be32 (prompt_len * 2) ++ be32 prompt_len
  ++ prompt ++ prompt ++ prompt.

(** "a cat in space" *)
Definition a_cat_in_space : list byte :=
  Eval cbv in
  map byte.of_Z [97; 32; 99; 97; 116; 32; 105; 110; 32; 115; 112; 97; 99; 101].

(** The valid 512x512, 4-step request of the end-to-end scenarios, with
    [cfg_scale = 4.5]. *)
Definition scenario_request : list byte :=
  build_valid_request 12345 512 512 4 0x40900000 42 a_cat_in_space.

(** Overwrites the [n]-th byte of a buffer. *)
Definition poke (i : nat) (bs : list byte) (d : list byte) : list byte :=
  firstn i d ++ bs ++ skipn (i + length bs) d.

(** Flips bit [k] of byte [i] of a frame. *)
Definition flip_bit (d : list byte) (i : nat) (k : Z) : list byte :=
  poke i [byte.of_Z (Z.lxor (octet d i) (2 ^ k))] d.

(** The error kinds whose name starts with INVALID. *)
Definition is_INVALID_kind (e : error_code_t) : bool :=
  match e with
  | ERR_INVALID_MAGIC | ERR_INVALID_MODEL_ID | ERR_INVALID_PROMPT
  | ERR_INVALID_DIMENSIONS | ERR_INVALID_STEPS | ERR_INVALID_CFG => true
  | _ => false
  end.

(** ** Response and error frames (sections 4.1 and 6) *)

(** What encode-response validates, apart from the sizes of the frame
    and of the buffer: both dimensions in 64..2048 and divisible by 64,
    three or four channels, and a product width x height x channels
    that fits in 32 bits and equals the image byte length. *)
Definition response_valid (r : sd35_generate_response_t) : bool :=
  dimension_ok (image_width r) && dimension_ok (image_height r)
  && ((channels r =? 3) || (channels r =? 4))
  && (image_width r * image_height r * channels r <=? UINT32_MAX)
  && (image_width r * image_height r * channels r =? image_data_len r).

(** The fields of a response hold values of their C types, and
    [image_data] points to [image_data_len] bytes. *)
Definition response_wf (r : sd35_generate_response_t) : Prop :=
  0 <= resp_request_id r < 2 ^ 64
  /\ 0 <= resp_status r < 2 ^ 32
  /\ 0 <= generation_time_ms r < 2 ^ 32
  /\ 0 <= image_width r < 2 ^ 32
  /\ 0 <= image_height r < 2 ^ 32
  /\ 0 <= channels r < 2 ^ 32
  /\ 0 <= image_data_len r < 2 ^ 32
  /\ exists image,
       image_data r = Some image
       /\ Z.of_nat (length image) = image_data_len r.

(** The response frame: header with kind = response and payload length
    16 + 16 + image byte length; request id, status, generation time;
    width, height, channels, image byte length; the pixels. *)
Definition response_frame (r : sd35_generate_response_t) : list byte :=
  be32 0x57455645 ++ be16 1 ++ be16 2
  ++ be32 (16 + 16 + image_data_len r) ++ be32 0
  ++ be64 (resp_request_id r) ++ be32 (resp_status r)
  ++ be32 (generation_time_ms r)
  ++ be32 (image_width r) ++ be32 (image_height r) ++ be32 (channels r)
  ++ be32 (image_data_len r)
  ++ firstn (Z.to_nat (image_data_len r))
       (match image_data r with Some image => image | None => [] end).

(** The error frame: header with kind = error; request id, status,
    error kind, message length, message. *)
Definition error_frame (r : error_response_t) : list byte :=
  be32 0x57455645 ++ be16 1 ++ be16 0xFF
  ++ be32 (8 + 4 + 4 + 2 + error_msg_len r) ++ be32 0
  ++ be64 (err_request_id r) ++ be32 (err_status r) ++ be32 (error_code r)
  ++ be16 (error_msg_len r)
  ++ firstn (Z.to_nat (error_msg_len r))
       (match error_msg r with Some m => m | None => [] end).

(** The verdict of the response encoder, in the words of the
    specification. *)
Definition encode_response_verdict (r : sd35_generate_response_t)
    (buf_size : Z) : error_code_t :=
  if negb (response_valid r) then ERR_INVALID_DIMENSIONS
  else if 16 + (16 + 16 + image_data_len r) >? 10 * 1024 * 1024 then
    ERR_INTERNAL
  else if 16 + (16 + 16 + image_data_len r) >? buf_size then ERR_INTERNAL
  else ERR_NONE.

(** The verdict of the error encoder. *)
Definition encode_error_verdict (r : error_response_t) (buf_size : Z)
  : error_code_t :=
  if match error_msg r with None => true | Some _ => false end
     && (0 <? error_msg_len r) then ERR_INTERNAL
  else if 16 + (8 + 4 + 4 + 2 + error_msg_len r) >? buf_size then
    ERR_INTERNAL
  else ERR_NONE.

(** Consecutive byte stores of [bs] from index [p] on. *)
Fixpoint stores_at (p : Z) (bs : list byte) : list store :=
  match bs with
  | [] => []
  | b :: bs' => StoreByte p b :: stores_at (p + 1) bs'
  end.

(** A prompt pair of the returned request lies inside its prompt
    region, in unbounded arithmetic. *)
Definition pair_within (rq : sd35_generate_request_t) (offset length : Z)
  : Prop :=
  1 <= length <= 256 /\ 0 <= offset <= prompt_data_len rq
  /\ length <= prompt_data_len rq - offset.

(** A 64x64 RGB response of 12288 zero bytes. *)
Definition sample_response : sd35_generate_response_t :=
  mk_response 12345 200 1500 64 64 3 12288
    (Some (repeat Byte.x00 (Z.to_nat 12288))).

(** Modelled from the spec: the decoder of response frames, which the
    repository does not contain (only the encoder is exposed; the peer
    that reads responses lives elsewhere).  It follows the response
    layout of section 6: a 16-byte header with the magic, version 1,
    kind = response and a payload length that the slice holds; then
    [request_id] (u64), [status] (u32), [generation_time_ms] (u32),
    [width], [height], [channels], [image_byte_length] (u32 each) and
    the raw pixels, the payload length being 16 + 16 + image byte
    length.  It parses the layout and checks nothing else. *)
Definition decode_generate_response (d : list byte)
  : option sd35_generate_response_t :=
  let n := Z.of_nat (length d) in
  let image_byte_length := be_field d 44 4 in
  if (16 <=? n) && (f_magic d =? 0x57455645) && (f_version d =? 1)
     && (f_kind d =? 2) && (f_payload_len d <=? 10 * 1024 * 1024 - 16)
     && (16 + f_payload_len d <=? n)
     && (f_payload_len d =? 16 + 16 + image_byte_length)
  then
    Some (mk_response (be_field d 16 8) (be_field d 24 4) (be_field d 28 4)
            (be_field d 32 4) (be_field d 36 4) (be_field d 40 4)
            image_byte_length
            (Some (firstn (Z.to_nat image_byte_length) (skipn 48 d))))
  else None.

End WireSpec.

(** * The reset discipline of the pipeline, as the specification words it *)

Module PipelineSpec.
Import Protocol Engine Generate.

Section Serving.
Context {C : Type} `{Engine C}.

(** The calls one invocation of [process_generate_request] makes to
    the engine, in call order, with its returned code and the state it
    leaves. *)
Definition serve_one (mem : list byte) (ctx : option C)
    (req : option sd35_generate_request_t) (st : pipeline)
  : error_code_t * list engine_call * option C * pipeline :=
  let '(err, ctx', _, st') :=
    process_generate_request mem ctx req (Some (mk_response 0 0 0 0 0 0 0 None))
      (mk_pipeline (generation_performed st) (clock st) []) in
  (err, rev (calls st'), ctx',
   mk_pipeline (generation_performed st') (clock st')
     (calls st' ++ calls st)).

(** A process serving requests one after the other: for each, its
    returned code and its engine calls. *)
Fixpoint serve (ctx : option C) (st : pipeline)
    (inputs : list (list byte * option sd35_generate_request_t))
  : list (error_code_t * list engine_call) :=
  match inputs with
  | [] => []
  | (mem, req) :: rest =>
      let '(err, cs, ctx', st') := serve_one mem ctx req st in
      (err, cs) :: serve ctx' st' rest
  end.

End Serving.

(** The engine calls of one request, given whether a generation has
    succeeded before it in this process: none at all (the request was
    rejected before the engine was reached); or generate, preceded by
    reset exactly when a generation has succeeded before, and followed
    by the release of the image when a sanity check failed; or a reset
    that failed, alone. *)
Definition call_shape (succeeded : bool) (cs : list engine_call) : Prop :=
  cs = []
  \/ (succeeded = true
      /\ (cs = [CallReset]
          \/ exists p, cs = [CallReset; CallGenerate p]
                       \/ cs = [CallReset; CallGenerate p; CallFreeImage]))
  \/ (succeeded = false
      /\ exists p, cs = [CallGenerate p]
                   \/ cs = [CallGenerate p; CallFreeImage]).

(** The discipline along a run, [succeeded] telling whether an earlier
    request of the process returned success. *)
Fixpoint reset_discipline (succeeded : bool)
    (results : list (error_code_t * list engine_call)) : Prop :=
  match results with
  | [] => True
  | (err, cs) :: rest =>
      call_shape succeeded cs
      /\ (err = ERR_NONE -> exists p, last cs CallReset = CallGenerate p)
      /\ reset_discipline (succeeded || is_ERR_NONE err) rest
  end.

End PipelineSpec.

(** * What the accept loop does to each connection *)

Module SocketSpec.
Import Socket.

(** The events of a server are a sequence of connections, each either
    rejected (authentication fails, the socket is closed, nothing else
    happens) or served: authenticated, then given the receive timeout of
    60 s and the send timeout of 5 s, then handed to the handler, which
    sees these timeouts in force, then closed. *)
Inductive served : list loop_event -> Prop :=
| served_none : served []
| served_rejected (fd : Z) (e : socket_error_t) (evs : list loop_event) :
    is_SOCKET_OK e = false ->
    served evs ->
    served (evs ++ [EvAuth fd e; EvClose fd])
| served_handled (fd : Z) (s : sock) (result : Z) (evs : list loop_event) :
    so_rcvtimeo s = 60 ->
    so_sndtimeo s = 5 ->
    served evs ->
    served (evs ++ [EvAuth fd SOCKET_OK; EvSetTimeouts fd 60 5 SOCKET_OK;
                    EvHandler fd (Some s) result; EvClose fd]).


(** Whether [SO_PEERCRED] reports [uid] as the peer of the socket. *)
Definition authentic (uid : Z) (s : sock) : bool :=
  match peer_uid s with
  | Some peer => peer =? uid
  | None => false
  end.

(** How the accept loop of a process of user [uid] ends, told from the
    shutdown flag on entry and the outcomes of [accept] alone: SOCKET_OK
    once a shutdown has been requested (by a signal that interrupts
    [accept], or one that arrives while a connection is served),
    ACCEPT_FAILED when [accept] fails before that, and no result while
    neither has happened. *)
Fixpoint loop_end (uid : Z) (flag : bool) (pending : list accept_event)
  : option socket_error_t :=
  if flag then Some SOCKET_OK else
  match pending with
  | [] => None
  | AcceptEintr sig :: pending' => loop_end uid sig pending'
  | AcceptError :: _ => Some SOCKET_ERR_ACCEPT_FAILED
  | AcceptConn _ s sig :: pending' =>
      loop_end uid (sig && authentic uid s) pending'
  end.

End SocketSpec.

(** * The stages of one request in the connection handler *)

Module HandlerSpec.
Import Protocol Engine Generate Main.

(** The status of each error kind (section 7 of the specification):
    400 for the kinds that blame the request, 500 for the kinds that
    blame the server.  [ERR_NONE] is not an error kind. *)
Definition status_table (e : error_code_t) : option Z :=
  match e with
  | ERR_NONE => None
  | ERR_INVALID_MAGIC | ERR_UNSUPPORTED_VERSION | ERR_INVALID_MODEL_ID
  | ERR_INVALID_PROMPT | ERR_INVALID_DIMENSIONS | ERR_INVALID_STEPS
  | ERR_INVALID_CFG => Some 400
  | ERR_OUT_OF_MEMORY | ERR_GPU_ERROR | ERR_TIMEOUT | ERR_INTERNAL => Some 500
  end.

Section Stages.
Context {C : Type} `{Engine C}.

(** Reading the 16 header bytes. *)
Definition header_read (w : world C) : Z * list byte * list rd_event :=
  read_full (rd w) [] 0 16.
Definition header_status (w : world C) : Z := fst (fst (header_read w)).
Definition header_bytes (w : world C) : list byte := snd (fst (header_read w)).
Definition after_header (w : world C) : world C :=
  with_rd (snd (header_read w)) w.

(** The magic and the payload length the header claims. *)
Definition claimed_magic (w : world C) : Z :=
  WireSpec.be_field (header_bytes w) 0 4.
Definition claimed_payload_len (w : world C) : Z :=
  WireSpec.be_field (header_bytes w) 8 4.

(** Obtaining the receive buffer and reading the payload into it. *)
Definition buffer_obtained (w : world C) : bool :=
  fst (alloc (after_header w)).
Definition payload_read (w : world C) : Z * list byte * list rd_event :=
  let w1 := snd (alloc (after_header w)) in
  if claimed_payload_len w >? 0 then
    read_full (rd w1) (header_bytes w) 0 (claimed_payload_len w)
  else (0, header_bytes w, rd w1).
Definition payload_status (w : world C) : Z := fst (fst (payload_read w)).
Definition received (w : world C) : list byte := snd (fst (payload_read w)).
Definition after_payload (w : world C) : world C :=
  with_rd (snd (payload_read w)) (snd (alloc (after_header w))).

(** Decoding the frame received. *)
Definition decoded (w : world C)
  : error_code_t * option sd35_generate_request_t :=
  fst (decode_generate_request (Some (received w))
         (wrap32 (16 + claimed_payload_len w)) (Some req_uninit)).

(** Running the generation pipeline on the decoded request. *)
Definition generated (w : world C)
  : error_code_t * option C * option sd35_generate_response_t * pipeline :=
  process_generate_request (received w) (g_sd_ctx (after_payload w))
    (snd (decoded w)) (Some resp_zeroed) (pipeline_state (after_payload w)).
Definition generate_status (w : world C) : error_code_t :=
  fst (fst (fst (generated w))).
Definition response (w : world C) : option sd35_generate_response_t :=
  snd (fst (generated w)).
Definition after_generate (w : world C) : world C :=
  with_engine (snd (fst (fst (generated w)))) (snd (generated w))
    (after_payload w).
Definition echoed_request_id (w : world C) : Z :=
  match snd (decoded w) with Some rq => request_id rq | None => 0 end.

(** Growing the buffer and encoding the response into it. *)
Definition response_buf_size (w : world C) : Z :=
  wrap32 (16 + 16 + 16
          + match response w with
            | Some rs => image_data_len rs
            | None => 0
            end).
Definition response_buffer_obtained (w : world C) : bool :=
  fst (alloc (after_generate w)).
Definition encoded (w : world C) : error_code_t * list store :=
  encode_generate_response (response w) (Some 0) (response_buf_size w)
    (Some tt).
Definition response_memory (w : world C) : list byte * Z :=
  apply_stores
    (firstn (Z.to_nat (response_buf_size w))
       (received w ++ repeat Byte.x00 (Z.to_nat (response_buf_size w))), 0)
    (snd (encoded w)).
Definition before_reply (w : world C) : world C :=
  let w1 := snd (alloc (after_generate w)) in
  with_engine (g_sd_ctx w1)
    (snd (free_generate_response (response w) (pipeline_state w1))) w1.

(** Writing the response frame. *)
Definition reply_written (w : world C) : Z * list wr_event * list byte :=
  write_full (wr (before_reply w)) (sent (before_reply w))
    (fst (response_memory w)) 0 (snd (response_memory w)).
Definition reply_status (w : world C) : Z := fst (fst (reply_written w)).

(** The header has arrived and passes the two checks made on it before
    anything is allocated. *)
Definition header_accepted (w : world C) : Prop :=
  header_status w = 0
  /\ claimed_magic w = PROTOCOL_MAGIC
  /\ claimed_payload_len w <= MAX_REQUEST_SIZE - 16.

(** The frame has arrived whole and the buffer for it was there. *)
Definition request_received (w : world C) : Prop :=
  header_accepted w /\ buffer_obtained w = true /\ payload_status w = 0.

(** The request has been decoded and served, and the response frame is
    in the buffer, ready to be written. *)
Definition response_ready (w : world C) : Prop :=
  request_received w
  /\ fst (decoded w) = ERR_NONE
  /\ generate_status w = ERR_NONE
  /\ response_buffer_obtained w = true
  /\ fst (encoded w) = ERR_NONE.

(** A request that has arrived and is malformed: its magic is wrong, or
    it claims too large a payload, or the frame does not decode. *)
Definition malformed_request (w : world C) : Prop :=
  header_status w = 0
  /\ (claimed_magic w <> PROTOCOL_MAGIC
      \/ claimed_magic w = PROTOCOL_MAGIC
         /\ claimed_payload_len w > MAX_REQUEST_SIZE - 16
      \/ request_received w /\ fst (decoded w) <> ERR_NONE).

(** From [w0] to [w1] an error frame for [e] has been sent: the world
    changes as [send_error_response] changes it, the peer receives the
    beginning of the frame and nothing else, and the whole frame when the
    write goes through. *)
Definition error_frame_sent (fd rid : Z) (e : error_code_t) (msg : list byte)
    (w0 w1 : world C) : Prop :=
  let frame := WireSpec.error_frame (error_response_for rid e msg) in
  w1 = snd (send_error_response fd rid e msg w0)
  /\ (exists n, sent w1 = sent w0 ++ firstn n frame)
  /\ (fst (send_error_response fd rid e msg w0) = 0 ->
      sent w1 = sent w0 ++ frame).

(** The world after the reply has been written. *)
Definition after_reply (w : world C) : world C :=
  with_wr (snd (fst (reply_written w))) (snd (reply_written w))
    (before_reply w).

End Stages.

(** The handler run against the test double of the engine: the bytes
    the peer makes available, what it takes back, a heap that never runs
    out and a pipeline that has not generated yet. *)
Definition scenario_world (engine : mock_sd_ctx_t) (input : list rd_event)
    (peer : list wr_event) : world mock_sd_ctx_t :=
  mk_world input peer [] [] (Some engine) (pipeline_init []).

(** What the handler returns and what the peer has received. *)
Definition scenario_run (engine : mock_sd_ctx_t) (input : list rd_event)
    (peer : list wr_event) : Z * list byte :=
  let '(result, w) := handle_connection 0 (scenario_world engine input peer) in
  (result, sent w).

End HandlerSpec.

(** ** socket.c: the socket path, socket creation, connection and cleanup *)

Module SocketSetup.

(** [socket_error_t] of [socket.h], all of its values. *)
Inductive socket_error_t : Type :=
| SOCKET_OK
| SOCKET_ERR_XDG_NOT_SET
| SOCKET_ERR_PATH_TOO_LONG
| SOCKET_ERR_MKDIR_FAILED
| SOCKET_ERR_SOCKET_FAILED
| SOCKET_ERR_BIND_FAILED
| SOCKET_ERR_LISTEN_FAILED
| SOCKET_ERR_CHMOD_FAILED
| SOCKET_ERR_UNLINK_FAILED
| SOCKET_ERR_NULL_POINTER
| SOCKET_ERR_STALE_SOCKET
| SOCKET_ERR_AUTH_FAILED
| SOCKET_ERR_AUTH_UID_MISMATCH
| SOCKET_ERR_INVALID_FD
| SOCKET_ERR_TIMEOUT_FAILED
| SOCKET_ERR_ACCEPT_FAILED
| SOCKET_ERR_NULL_HANDLER
| SOCKET_ERR_CONNECT_FAILED.

Definition is_SOCKET_OK (e : socket_error_t) : bool :=
  match e with SOCKET_OK => true | _ => false end.

Definition SOCKET_PATH_MAX : Z := 108.
Definition LISTEN_BACKLOG : Z := 5.
Definition INT_MAX : Z := 2147483647.

(** [sizeof(((struct sockaddr_un * )0)->sun_path)] on Linux. *)
Definition SUN_PATH_SIZE : Z := 108.

(** A C string is the list of its bytes before the terminator.
    "weave", "weave.sock" and the separator. *)
Definition SOCKET_DIR_NAME : list byte :=
  Eval cbv in map byte.of_Z [119; 101; 97; 118; 101].
Definition SOCKET_FILE_NAME : list byte :=
  Eval cbv in map byte.of_Z [119; 101; 97; 118; 101; 46; 115; 111; 99; 107].
Definition slash : byte := Byte.x2f.

Definition strlen (s : list byte) : Z := Z.of_nat (length s).

(** [snprintf(buf, size, fmt, ...)] where the formatted text is [s]:
    the [int] returned (negative when the length does not fit an
    [int]) and the string left in the buffer, cut to [size - 1]
    bytes. *)
Definition snprintf (size : Z) (s : list byte) : Z * list byte :=
  (if strlen s >? INT_MAX then -1 else strlen s,
   firstn (Z.to_nat (size - 1)) s).

(** [socket_get_path(path_buf, buf_size)].  [xdg_runtime_dir] is what
    [getenv("XDG_RUNTIME_DIR")] returns; [path_buf] is [None] for NULL
    and otherwise the string the buffer holds; the second component of
    the result is [path_buf] after the call. *)
Definition socket_get_path (xdg_runtime_dir : option (list byte))
    (path_buf : option (list byte)) (buf_size : Z)
  : socket_error_t * option (list byte) :=
  match path_buf with
  | None => (SOCKET_ERR_NULL_POINTER, None)
  | Some _ =>
    match xdg_runtime_dir with
    | None => (SOCKET_ERR_XDG_NOT_SET, path_buf)
    | Some [] => (SOCKET_ERR_XDG_NOT_SET, path_buf)
    | Some xdg_runtime_dir =>
      let xdg_len := strlen xdg_runtime_dir in
      let dir_len := strlen SOCKET_DIR_NAME in
      let file_len := strlen SOCKET_FILE_NAME in
      let total_len := wrap64 (xdg_len + 1 + dir_len + 1 + file_len + 1) in
      if (total_len >? buf_size) || (total_len >? SOCKET_PATH_MAX) then
        (SOCKET_ERR_PATH_TOO_LONG, path_buf)
      else
      let '(written, s) :=
        snprintf buf_size
          (xdg_runtime_dir ++ [slash] ++ SOCKET_DIR_NAME ++ [slash]
           ++ SOCKET_FILE_NAME) in
      if (written <? 0) || (written >=? buf_size) then
        (SOCKET_ERR_PATH_TOO_LONG, Some s)
      else (SOCKET_OK, Some s)
    end
  end.

Definition socket_get_dir_path (xdg_runtime_dir : option (list byte))
    (path_buf : option (list byte)) (buf_size : Z)
  : socket_error_t * option (list byte) :=
  match path_buf with
  | None => (SOCKET_ERR_NULL_POINTER, None)
  | Some _ =>
    match xdg_runtime_dir with
    | None => (SOCKET_ERR_XDG_NOT_SET, path_buf)
    | Some [] => (SOCKET_ERR_XDG_NOT_SET, path_buf)
    | Some xdg_runtime_dir =>
      let xdg_len := strlen xdg_runtime_dir in
      let dir_len := strlen SOCKET_DIR_NAME in
      let total_len := wrap64 (xdg_len + 1 + dir_len + 1) in
      if total_len >? buf_size then (SOCKET_ERR_PATH_TOO_LONG, path_buf)
      else
      let '(written, s) :=
        snprintf buf_size (xdg_runtime_dir ++ [slash] ++ SOCKET_DIR_NAME) in
      if (written <? 0) || (written >=? buf_size) then
        (SOCKET_ERR_PATH_TOO_LONG, Some s)
      else (SOCKET_OK, Some s)
    end
  end.

(** *** The system calls *)

(** The values of [errno] the code tells apart. *)
Inductive errno_t : Type := ENOENT | EEXIST | EADDRINUSE | EOTHER.

Definition errno_eqb (a b : errno_t) : bool :=
  match a, b with
  | ENOENT, ENOENT | EEXIST, EEXIST | EADDRINUSE, EADDRINUSE
  | EOTHER, EOTHER => true
  | _, _ => false
  end.

Inductive syscall : Type :=
| Sys_stat (path : list byte)
| Sys_chmod (path : list byte) (mode : Z)
| Sys_mkdir (path : list byte) (mode : Z)
| Sys_unlink (path : list byte)
| Sys_socket
| Sys_bind (fd : Z) (sun_path : list byte)
| Sys_connect (fd : Z) (sun_path : list byte)
| Sys_listen (fd : Z) (backlog : Z)
| Sys_close (fd : Z).

(** What a system call answers: the value it returns, the [errno] it
    sets when that value is negative, and for [stat] the [st_mode] it
    fills in. *)
Record sys_result : Type := mk_result {
  rc : Z;
  res_errno : errno_t;
  st_mode : Z
}.

(** The process as the socket module sees it: the answers the coming
    system calls will get (past their end a call fails), [errno], the
    calls made so far with the values they returned, the static
    [g_socket_path] and the environment variable. *)
Record process : Type := mk_process {
  answers : list sys_result;
  errno : errno_t;
  trace : list (syscall * Z);
  g_socket_path : list byte;
  xdg_runtime_dir : option (list byte)
}.

Definition Sys (A : Type) : Type := process -> A * process.

Definition sys_ret {A} (a : A) : Sys A := fun p => (a, p).

Definition sys_bind {A B} (m : Sys A) (k : A -> Sys B) : Sys B :=
  fun p => let (a, p') := m p in k a p'.

Notation "x <~ m ;; k" := (sys_bind m (fun x => k))
  (at level 61, m at next level, right associativity).

Definition sys (c : syscall) : Sys sys_result := fun p =>
  let r := hd (mk_result (-1) EOTHER 0) (answers p) in
  (r,
   mk_process (tl (answers p))
     (if rc r <? 0 then res_errno r else errno p)
     (trace p ++ [(c, rc r)]) (g_socket_path p) (xdg_runtime_dir p)).

Definition get_errno : Sys errno_t := fun p => (errno p, p).

Definition getenv_XDG_RUNTIME_DIR : Sys (option (list byte)) :=
  fun p => (xdg_runtime_dir p, p).

Definition set_g_socket_path (s : list byte) : Sys unit := fun p =>
  (tt, mk_process (answers p) (errno p) (trace p) s (xdg_runtime_dir p)).

(** [S_ISDIR], [S_ISSOCK] and the permission bits of [st_mode]. *)
Definition S_IFMT : Z := 61440.
Definition S_ISDIR (m : Z) : bool := Z.land m S_IFMT =? 16384.
Definition S_ISSOCK (m : Z) : bool := Z.land m S_IFMT =? 49152.
Definition MODE_0777 : Z := 511.
Definition MODE_0700 : Z := 448.
Definition MODE_0600 : Z := 384.

Definition create_socket_directory (dir_path : list byte)
  : Sys socket_error_t :=
  st <~ sys (Sys_stat dir_path) ;;
  if rc st =? 0 then
    if S_ISDIR (st_mode st) then
      if negb (Z.land (st_mode st) MODE_0777 =? MODE_0700) then
        c <~ sys (Sys_chmod dir_path MODE_0700) ;;
        if negb (rc c =? 0) then sys_ret SOCKET_ERR_CHMOD_FAILED
        else sys_ret SOCKET_OK
      else sys_ret SOCKET_OK
    else sys_ret SOCKET_ERR_MKDIR_FAILED
  else
    m <~ sys (Sys_mkdir dir_path MODE_0700) ;;
    if negb (rc m =? 0) then
      e <~ get_errno ;;
      if errno_eqb e EEXIST then sys_ret SOCKET_OK
      else sys_ret SOCKET_ERR_MKDIR_FAILED
    else sys_ret SOCKET_OK.

(** Returns 1 for a stale socket, 0 otherwise. *)
Definition is_socket_stale (socket_path : list byte) : Sys Z :=
  st <~ sys (Sys_stat socket_path) ;;
  if negb (rc st =? 0) then sys_ret 0 else
  if negb (S_ISSOCK (st_mode st)) then sys_ret 0 else
  s <~ sys Sys_socket ;;
  let test_fd := rc s in
  if test_fd <? 0 then sys_ret 0 else
  let path_len := strlen socket_path in
  if path_len >=? SUN_PATH_SIZE then
    _ <~ sys (Sys_close test_fd) ;; sys_ret 0
  else
  c <~ sys (Sys_connect test_fd socket_path) ;;
  _ <~ sys (Sys_close test_fd) ;;
  if rc c =? 0 then sys_ret 0 else sys_ret 1.

Definition remove_stale_socket (socket_path : list byte)
  : Sys socket_error_t :=
  u <~ sys (Sys_unlink socket_path) ;;
  e <~ get_errno ;;
  if negb (rc u =? 0) && negb (errno_eqb e ENOENT) then
    sys_ret SOCKET_ERR_UNLINK_FAILED
  else sys_ret SOCKET_OK.

(** [addr] is the path in [addr->sun_path]. *)
Definition create_and_bind_socket (addr : list byte) : Sys Z :=
  s <~ sys Sys_socket ;;
  let sock_fd := rc s in
  if sock_fd <? 0 then sys_ret (-1) else
  b <~ sys (Sys_bind sock_fd addr) ;;
  if negb (rc b =? 0) then
    _ <~ sys (Sys_close sock_fd) ;; sys_ret (-1)
  else sys_ret sock_fd.

(** The local [char socket_path[SOCKET_PATH_MAX]] before it is
    written. *)
Definition path_uninit : option (list byte) := Some [].

Definition path_of (buf : option (list byte)) : list byte :=
  match buf with Some s => s | None => [] end.

(** [socket_create(listen_fd)]; [listen_fd] is [None] for NULL and
    otherwise the value of [*listen_fd], also in the result. *)
Definition socket_create (listen_fd : option Z)
  : Sys (socket_error_t * option Z) :=
  match listen_fd with
  | None => sys_ret (SOCKET_ERR_NULL_POINTER, None)
  | Some _ =>
    let listen_fd := Some (-1) in
    xdg <~ getenv_XDG_RUNTIME_DIR ;;
    let '(err, socket_path) := socket_get_path xdg path_uninit SOCKET_PATH_MAX in
    if negb (is_SOCKET_OK err) then sys_ret (err, listen_fd) else
    let socket_path := path_of socket_path in
    let path_len := strlen socket_path in
    if path_len >=? SUN_PATH_SIZE then
      sys_ret (SOCKET_ERR_PATH_TOO_LONG, listen_fd) else
    xdg <~ getenv_XDG_RUNTIME_DIR ;;
    let '(err, dir_path) :=
      socket_get_dir_path xdg path_uninit SOCKET_PATH_MAX in
    if negb (is_SOCKET_OK err) then sys_ret (err, listen_fd) else
    let dir_path := path_of dir_path in
    err <~ create_socket_directory dir_path ;;
    if negb (is_SOCKET_OK err) then sys_ret (err, listen_fd) else
    stale <~ is_socket_stale socket_path ;;
    err <~ (if negb (stale =? 0) then remove_stale_socket socket_path
            else sys_ret SOCKET_OK) ;;
    if negb (is_SOCKET_OK err) then
      sys_ret (SOCKET_ERR_BIND_FAILED, listen_fd) else
    sock_fd <~ create_and_bind_socket socket_path ;;
    sock_fd <~
      (if sock_fd <? 0 then
         e <~ get_errno ;;
         if errno_eqb e EADDRINUSE then
           stale <~ is_socket_stale socket_path ;;
           if negb (stale =? 0) then
             r <~ remove_stale_socket socket_path ;;
             if is_SOCKET_OK r then create_and_bind_socket socket_path
             else sys_ret sock_fd
           else sys_ret sock_fd
         else sys_ret sock_fd
       else sys_ret sock_fd) ;;
    if sock_fd <? 0 then sys_ret (SOCKET_ERR_BIND_FAILED, listen_fd) else
    c <~ sys (Sys_chmod socket_path MODE_0600) ;;
    if negb (rc c =? 0) then
      _ <~ sys (Sys_close sock_fd) ;;
      _ <~ sys (Sys_unlink socket_path) ;;
      sys_ret (SOCKET_ERR_CHMOD_FAILED, listen_fd)
    else
    l <~ sys (Sys_listen sock_fd LISTEN_BACKLOG) ;;
    if negb (rc l =? 0) then
      _ <~ sys (Sys_close sock_fd) ;;
      _ <~ sys (Sys_unlink socket_path) ;;
      sys_ret (SOCKET_ERR_LISTEN_FAILED, listen_fd)
    else
    _ <~ set_g_socket_path socket_path ;;
    sys_ret (SOCKET_OK, Some sock_fd)
  end.

Definition socket_cleanup : Sys socket_error_t := fun p =>
  match g_socket_path p with
  | [] =>
    (xdg <~ getenv_XDG_RUNTIME_DIR ;;
     let '(err, socket_path) :=
       socket_get_path xdg path_uninit SOCKET_PATH_MAX in
     if negb (is_SOCKET_OK err) then sys_ret SOCKET_OK else
     u <~ sys (Sys_unlink (path_of socket_path)) ;;
     e <~ get_errno ;;
     if negb (rc u =? 0) && negb (errno_eqb e ENOENT) then
       sys_ret SOCKET_ERR_UNLINK_FAILED
     else sys_ret SOCKET_OK) p
  | _ :: _ =>
    (u <~ sys (Sys_unlink (g_socket_path p)) ;;
     e <~ get_errno ;;
     if negb (rc u =? 0) && negb (errno_eqb e ENOENT) then
       sys_ret SOCKET_ERR_UNLINK_FAILED
     else
     _ <~ set_g_socket_path [] ;;
     sys_ret SOCKET_OK) p
  end.

(** [socket_connect(socket_path, connected_fd)]; both are [None] for
    NULL. *)
Definition socket_connect (socket_path : option (list byte))
    (connected_fd : option Z) : Sys (socket_error_t * option Z) :=
  match socket_path, connected_fd with
  | Some socket_path, Some _ =>
    let connected_fd := Some (-1) in
    let path_len := strlen socket_path in
    if path_len >=? SUN_PATH_SIZE then
      sys_ret (SOCKET_ERR_PATH_TOO_LONG, connected_fd) else
    s <~ sys Sys_socket ;;
    let sock_fd := rc s in
    if sock_fd <? 0 then sys_ret (SOCKET_ERR_SOCKET_FAILED, connected_fd) else
    c <~ sys (Sys_connect sock_fd socket_path) ;;
    if negb (rc c =? 0) then
      _ <~ sys (Sys_close sock_fd) ;;
      sys_ret (SOCKET_ERR_CONNECT_FAILED, connected_fd)
    else sys_ret (SOCKET_OK, Some sock_fd)
  | _, _ => sys_ret (SOCKET_ERR_NULL_POINTER, connected_fd)
  end.

End SocketSetup.

(** * The byte stream behind the client socket *)

Module IoSpec.
Import Main.

(** The bytes the peer makes available over a sequence of [read]
    outcomes, interruptions and errors carrying none. *)
Fixpoint data_of (rd : list rd_event) : list byte :=
  match rd with
  | [] => []
  | RdData bs :: rd' => bs ++ data_of rd'
  | _ :: rd' => data_of rd'
  end.

(** The bytes that arrive before the connection ends: the data of the
    successive reads, interruptions skipped, up to the first read that
    fails or finds the peer gone. *)
Fixpoint arriving (rd : list rd_event) : list byte :=
  match rd with
  | [] => []
  | RdEintr :: rd' => arriving rd'
  | RdFail :: _ => []
  | RdData [] :: _ => []
  | RdData bs :: rd' => bs ++ arriving rd'
  end.



(** A valid request for a 64x64 image, the response the test double of
    the engine gives to it, and a world in which the request arrives in
    two reads, followed by one byte of the next, and the peer takes the
    reply in two writes. *)
Definition small_request : list byte :=
  WireSpec.build_valid_request 12345 64 64 4 0x40900000 42
    WireSpec.a_cat_in_space.

Definition small_response : Protocol.sd35_generate_response_t :=
  Protocol.mk_response 12345 200 0 64 64 3 12288
    (Some (repeat Byte.x00 (Z.to_nat 12288))).

Definition served_world : world Engine.mock_sd_ctx_t :=
  HandlerSpec.scenario_world (Engine.mk_mock Engine.SD_WRAPPER_OK None 0)
    [RdData (firstn 16 small_request); RdEintr;
     RdData (skipn 16 small_request ++ [Byte.xaa])]
    [WrAccept 1000; WrEintr; WrAccept (Z.to_nat 20000)].

End IoSpec.

(** * What socket creation leaves behind *)

Module SetupSpec.
Import SocketSetup.

(** "$XDG_RUNTIME_DIR/weave" and "$XDG_RUNTIME_DIR/weave/weave.sock". *)
Definition dir_path_of (xdg : list byte) : list byte :=
  xdg ++ [slash] ++ SOCKET_DIR_NAME.
Definition socket_path_of (xdg : list byte) : list byte :=
  xdg ++ [slash] ++ SOCKET_DIR_NAME ++ [slash] ++ SOCKET_FILE_NAME.

(** The descriptors a sequence of calls leaves open, [acc] being open
    before it: [socket] opens the descriptor it returns, [close] closes
    its argument. *)
Fixpoint open_fds (tr : list (syscall * Z)) (acc : list Z) : list Z :=
  match tr with
  | [] => acc
  | (Sys_socket, fd) :: tr' =>
      open_fds tr' (if fd <? 0 then acc else acc ++ [fd])
  | (Sys_close fd, _) :: tr' => open_fds tr' (remove Z.eq_dec fd acc)
  | _ :: tr' => open_fds tr' acc
  end.

Definition path_eqb (a b : list byte) : bool :=
  if list_eq_dec Stdlib.Strings.Byte.byte_eq_dec a b then true else false.

(** The discipline of [unlink]: a file is only removed when, since the
    last removal, a connection to [path] has been refused (nobody
    listens: the socket is stale) or this process has bound [path]
    itself; and it is [path] that is removed.  [may] tells whether a
    removal is allowed at the start; the result is [None] when a call
    breaks the discipline and otherwise tells whether a removal would be
    allowed next. *)
Fixpoint unlink_scan (path : list byte) (may : bool)
    (tr : list (syscall * Z)) : option bool :=
  match tr with
  | [] => Some may
  | (Sys_connect _ q, r) :: tr' =>
      unlink_scan path (may || (path_eqb q path && negb (r =? 0))) tr'
  | (Sys_bind _ q, r) :: tr' =>
      unlink_scan path (may || (path_eqb q path && (r =? 0))) tr'
  | (Sys_unlink q, _) :: tr' =>
      if may && path_eqb q path then unlink_scan path false tr' else None
  | _ :: tr' => unlink_scan path may tr'
  end.

(** From [p] to [p'] the calls [tr] have been made and the
    environment has stayed the same. *)
Definition extends (p p' : process) (tr : list (syscall * Z)) : Prop :=
  trace p' = trace p ++ tr
  /\ xdg_runtime_dir p' = xdg_runtime_dir p.

(** What [socket_create] has done when it returns [res], having made
    the calls [tr] from [p] to [p']: on success the last four calls
    opened the socket, bound it to the socket path, gave the file mode
    0600 and started listening, the calls before them left no
    descriptor open, and the path is remembered for [socket_cleanup];
    on failure [*listen_fd] is -1, no descriptor is left open and the
    remembered path is as before. *)
Definition created (p p' : process) (tr : list (syscall * Z))
    (res : socket_error_t * option Z) : Prop :=
  match res with
  | (SOCKET_OK, fd) =>
      exists x f tr0,
        xdg_runtime_dir p = Some x /\ fd = Some f /\ 0 <= f
        /\ tr = tr0 ++ [(Sys_socket, f);
                        (Sys_bind f (socket_path_of x), 0);
                        (Sys_chmod (socket_path_of x) MODE_0600, 0);
                        (Sys_listen f LISTEN_BACKLOG, 0)]
        /\ open_fds tr0 [] = []
        /\ g_socket_path p' = socket_path_of x
        /\ strlen (socket_path_of x) < SUN_PATH_SIZE
  | (_, fd) =>
      fd = Some (-1) /\ open_fds tr [] = []
      /\ g_socket_path p' = g_socket_path p
  end.

(** A process that has made no call yet. *)
Definition started (answers : list sys_result) (xdg : option (list byte))
  : process :=
  mk_process answers EOTHER [] [] xdg.

(** "/run/user/1000" *)
Definition run_user_1000 : list byte :=
  Eval cbv in
  map byte.of_Z [47; 114; 117; 110; 47; 117; 115; 101; 114; 47; 49; 48; 48;
                 48].

(** The answers of a start-up that finds the directory in place with
    mode 0700 and a socket file nobody listens on: [stat] of the
    directory, [stat] of the file, a probe ([socket], [connect] refused,
    [close]), [unlink], then [socket], [bind], [chmod] and [listen]; and
    the [unlink] of the shutdown. *)
Definition stale_socket_script : list sys_result :=
  [mk_result 0 EOTHER (16384 + MODE_0700);
   mk_result 0 EOTHER (49152 + MODE_0600);
   mk_result 3 EOTHER 0;
   mk_result (-1) EOTHER 0;
   mk_result 0 EOTHER 0;
   mk_result 0 EOTHER 0;
   mk_result 3 EOTHER 0;
   mk_result 0 EOTHER 0;
   mk_result 0 EOTHER 0;
   mk_result 0 EOTHER 0;
   mk_result 0 EOTHER 0].

End SetupSpec.

(** * Properties *)

(** ** Integers, bytes and big-endian fields *)

Lemma wrap32_small (z : Z) : 0 <= z < 2 ^ 32 -> wrap32 z = z.
Proof. intros Hz. unfold wrap32. now apply Z.mod_small. Qed.

Lemma wrap64_small (z : Z) : 0 <= z < 2 ^ 64 -> wrap64 z = z.
Proof. intros Hz. unfold wrap64. now apply Z.mod_small. Qed.

Lemma wrap16_small (z : Z) : 0 <= z < 2 ^ 16 -> wrap16 z = z.
Proof. intros Hz. unfold wrap16. now apply Z.mod_small. Qed.

Lemma lor_shiftl_low (a b n : Z) :
  0 <= n -> 0 <= b < 2 ^ n -> Z.lor (Z.shiftl a n) b = a * 2 ^ n + b.
Proof.
  intros Hn Hb.
  rewrite <- (Z.mod_small b (2 ^ n)) by assumption.
  rewrite <- Z.land_ones by assumption.
  rewrite Z.or_to_plus.
  - now rewrite Z.shiftl_mul_pow2.
  - Z.bitblast. subst. now rewrite (Z.testbit_neg_r a) by lia.
Qed.

Lemma octet_range (b : byte) : 0 <= byte.unsigned b < 256.
Proof. pose proof (byte.unsigned_range b) as Hb. change (2 ^ 8) with 256 in Hb.
exact Hb. Qed.

Import Protocol WireSpec.

(** *** The value and the log of a traced computation *)

Lemma fst_tr_bind {E A B} (m : Traced E A) (k : A -> Traced E B) :
  fst (tr_bind m k) = fst (k (fst m)).
Proof. unfold tr_bind. destruct m as [a l1]. cbn. now destruct (k a). Qed.

Lemma snd_tr_bind {E A B} (m : Traced E A) (k : A -> Traced E B) :
  snd (tr_bind m k) = snd m ++ snd (k (fst m)).
Proof. unfold tr_bind. destruct m as [a l1]. cbn. now destruct (k a). Qed.

Lemma tr_bind_pair {E A B} (a : A) (l : list E) (k : A -> Traced E B) :
  tr_bind (a, l) k = (fst (k a), l ++ snd (k a)).
Proof. unfold tr_bind. now destruct (k a). Qed.

Lemma octet_bounds data i : 0 <= octet data i < 256.
Proof. apply octet_range. Qed.

Lemma be_field_2_range data off : 0 <= be_field data off 2 < 2 ^ 16.
Proof.
  unfold be_field; cbn [be_number].
  pose proof (octet_bounds data off); pose proof (octet_bounds data (S off)).
  lia.
Qed.

Lemma be_field_4_range data off : 0 <= be_field data off 4 < 2 ^ 32.
Proof.
  unfold be_field; cbn [be_number].
  pose proof (octet_bounds data off); pose proof (octet_bounds data (S off)).
  pose proof (octet_bounds data (S (S off))).
  pose proof (octet_bounds data (S (S (S off)))).
  lia.
Qed.

Lemma to_nat_succ (z k : Z) : 0 <= z -> 0 <= k -> Z.to_nat (z + k) = (Z.to_nat z + Z.to_nat k)%nat.
Proof. intros. now apply Z2Nat.inj_add. Qed.

Lemma shl32_octet (b n : Z) :
  0 <= b < 256 -> 0 <= n <= 24 -> shl32 b n = b * 2 ^ n.
Proof.
  intros Hb Hn. unfold shl32. rewrite Z.shiftl_mul_pow2 by lia.
  apply wrap32_small.
  assert (2 ^ n <= 2 ^ 24) by (apply Z.pow_le_mono_r; lia).
  assert (0 < 2 ^ n) by (apply Z.pow_pos_nonneg; lia).
  change (2 ^ 24) with 16777216 in *. nia.
Qed.

Lemma shl64_octet (b n : Z) :
  0 <= b < 256 -> 0 <= n <= 56 -> shl64 b n = b * 2 ^ n.
Proof.
  intros Hb Hn. unfold shl64. rewrite Z.shiftl_mul_pow2 by lia.
  apply wrap64_small.
  assert (2 ^ n <= 2 ^ 56) by (apply Z.pow_le_mono_r; lia).
  assert (0 < 2 ^ n) by (apply Z.pow_pos_nonneg; lia).
  change (2 ^ 56) with 72057594037927936 in *. nia.
Qed.

Lemma lor_mul_low (a b n : Z) :
  0 <= n -> 0 <= b < 2 ^ n -> Z.lor (a * 2 ^ n) b = a * 2 ^ n + b.
Proof.
  intros Hn Hb. rewrite <- (Z.shiftl_mul_pow2 a n) by assumption.
  rewrite lor_shiftl_low by assumption. now rewrite Z.shiftl_mul_pow2.
Qed.

Lemma lor_add_aligned (a b n : Z) :
  0 <= n -> 0 <= b < 2 ^ n -> a mod 2 ^ n = 0 -> Z.lor a b = a + b.
Proof.
  intros Hn Hb Ha.
  assert (Hp : 0 < 2 ^ n) by (apply Z.pow_pos_nonneg; lia).
  rewrite (Z.div_mod a (2 ^ n)) by lia. rewrite Ha, Z.add_0_r.
  rewrite (Z.mul_comm (2 ^ n)). now apply lor_mul_low.
Qed.

Ltac aligned n :=
  let p := eval cbv in (2 ^ n) in
  match goal with
  | |- context [Z.lor ?a ?b] =>
      lazymatch a with
      | context [Z.lor _ _] => fail
      | _ =>
          rewrite (lor_add_aligned a b n)
            by (change (2 ^ n) with p;
                first [ lia | Z.div_mod_to_equations; lia ])
      end
  end.

Lemma read_u16_be_value data off :
  0 <= off ->
  fst (read_u16_be data off) = be_field data (Z.to_nat off) 2.
Proof.
  intros Hoff. cbv [read_u16_be load be_field tr_bind tr_ret fst snd be_number].
  rewrite to_nat_succ by lia. change (Z.to_nat 1) with 1%nat.
  rewrite Nat.add_1_r. fold (octet data (Z.to_nat off)).
  fold (octet data (S (Z.to_nat off))).
  pose proof (octet_bounds data (Z.to_nat off)) as H0.
  pose proof (octet_bounds data (S (Z.to_nat off))) as H1.
  rewrite lor_shiftl_low by lia.
  rewrite wrap16_small; lia.
Qed.
Lemma read_u32_be_value data off :
  0 <= off ->
  fst (read_u32_be data off) = be_field data (Z.to_nat off) 4.
Proof.
  intros Hoff. cbv [read_u32_be load be_field tr_bind tr_ret fst snd be_number].
  rewrite !to_nat_succ by lia.
  change (Z.to_nat 1) with 1%nat. change (Z.to_nat 2) with 2%nat.
  change (Z.to_nat 3) with 3%nat.
  rewrite Nat.add_1_r.
  replace (Z.to_nat off + 2)%nat with (S (S (Z.to_nat off))) by lia.
  replace (Z.to_nat off + 3)%nat with (S (S (S (Z.to_nat off)))) by lia.
  set (n := Z.to_nat off).
  fold (octet data n). fold (octet data (S n)).
  fold (octet data (S (S n))). fold (octet data (S (S (S n)))).
  pose proof (octet_bounds data n) as H0.
  pose proof (octet_bounds data (S n)) as H1.
  pose proof (octet_bounds data (S (S n))) as H2.
  pose proof (octet_bounds data (S (S (S n)))) as H3.
  rewrite !shl32_octet by lia.
  change (2 ^ 24) with 16777216. change (2 ^ 16) with 65536.
  change (2 ^ 8) with 256.
  aligned 24. aligned 16. aligned 8. lia.
Qed.
Lemma read_u64_be_value data off :
  0 <= off ->
  fst (read_u64_be data off) = be_field data (Z.to_nat off) 8.
Proof.
  intros Hoff. cbv [read_u64_be load be_field tr_bind tr_ret fst snd be_number].
  rewrite !to_nat_succ by lia.
  change (Z.to_nat 1) with 1%nat. change (Z.to_nat 2) with 2%nat.
  change (Z.to_nat 3) with 3%nat. change (Z.to_nat 4) with 4%nat.
  change (Z.to_nat 5) with 5%nat. change (Z.to_nat 6) with 6%nat.
  change (Z.to_nat 7) with 7%nat.
  set (n := Z.to_nat off).
  replace (n + 1)%nat with (S n) by lia.
  replace (n + 2)%nat with (S (S n)) by lia.
  replace (n + 3)%nat with (S (S (S n))) by lia.
  replace (n + 4)%nat with (S (S (S (S n)))) by lia.
  replace (n + 5)%nat with (S (S (S (S (S n))))) by lia.
  replace (n + 6)%nat with (S (S (S (S (S (S n)))))) by lia.
  replace (n + 7)%nat with (S (S (S (S (S (S (S n))))))) by lia.
  repeat match goal with
  | |- context [byte.unsigned (nth ?i data Byte.x00)] =>
      fold (octet data i); pose proof (octet_bounds data i)
  end.
  rewrite !shl64_octet by lia.
  change (2 ^ 56) with 72057594037927936. change (2 ^ 48) with 281474976710656.
  change (2 ^ 40) with 1099511627776. change (2 ^ 32) with 4294967296.
  change (2 ^ 24) with 16777216. change (2 ^ 16) with 65536.
  change (2 ^ 8) with 256.
  aligned 56. aligned 48. aligned 40. aligned 32. aligned 24. aligned 16.
  aligned 8. lia.
Qed.


Lemma read_u16_be_log data off :
  snd (read_u16_be data off) = [off; off + 1].
Proof. reflexivity. Qed.

Lemma read_u32_be_log data off :
  snd (read_u32_be data off) = [off; off + 1; off + 2; off + 3].
Proof. reflexivity. Qed.

Lemma read_u64_be_log data off :
  snd (read_u64_be data off)
  = [off; off + 1; off + 2; off + 3; off + 4; off + 5; off + 6; off + 7].
Proof. reflexivity. Qed.

Lemma read_f32_be_log data off :
  snd (read_f32_be data off) = [off; off + 1; off + 2; off + 3].
Proof. reflexivity. Qed.

(** ** The CFG gate: C float comparisons against the real-valued range *)

Lemma testbit31 bits : 0 <= bits < 2 ^ 32 ->
  Z.testbit bits 31 = negb (f32_sign bits =? 0).
Proof.
  intros Hb. unfold f32_sign.
  pose proof (Z.testbit_spec' bits 31 ltac:(lia)) as Ht.
  assert (Hs : 0 <= bits / 2 ^ 31 < 2)
    by (change (2 ^ 31) with 2147483648; Z.div_mod_to_equations; lia).
  set (q := bits / 2 ^ 31) in *.
  rewrite Z.mod_small in Ht by lia.
  destruct (Z.testbit bits 31); cbn [Z.b2z] in Ht; rewrite <- Ht; reflexivity.
Qed.

Lemma expo_bits bits : Z.land (Z.shiftr bits 23) 255 = f32_expo bits.
Proof.
  unfold f32_expo. rewrite Z.shiftr_div_pow2 by lia.
  change 255 with (Z.ones 8). now rewrite Z.land_ones by lia.
Qed.

Lemma frac_bits bits : Z.land bits (Z.ones 23) = f32_frac bits.
Proof. unfold f32_frac. now rewrite Z.land_ones by lia. Qed.

Lemma cfg_gate bits :
  0 <= bits < 2 ^ 32 ->
  SFltb (float_of_bits bits) SD35_MIN_CFG
  || SFltb SD35_MAX_CFG (float_of_bits bits)
  || isnan (float_of_bits bits) || isinf (float_of_bits bits)
  = negb (cfg_ok bits).
Proof.
  intros Hb. unfold float_of_bits, cfg_ok, f32_finite, f32_magnitude.
  cbv zeta. rewrite testbit31, expo_bits, frac_bits by assumption.
  assert (He : 0 <= f32_expo bits < 256)
    by (unfold f32_expo; change (2 ^ 8) with 256; apply Z.mod_pos_bound; lia).
  assert (Hm : 0 <= f32_frac bits < 2 ^ 23)
    by (unfold f32_frac; apply Z.mod_pos_bound; lia).
  set (e := f32_expo bits) in *. set (m := f32_frac bits) in *.
  set (s := f32_sign bits =? 0).
  destruct (e =? 0) eqn:E0.
  - assert (E255 : (e =? 255) = false)
      by (apply Z.eqb_neq; apply Z.eqb_eq in E0; lia).
    rewrite E255. cbn [negb andb].
    destruct m as [|p|p] eqn:Em; try lia.
    + cbn. now destruct s.
    + cbn - [Z.pow Z.leb Z.mul]. destruct s; cbn - [Z.pow Z.leb Z.mul].
      * symmetry. apply negb_false_iff. apply Z.leb_le.
        change (2^23) with 8388608 in Hm. lia.
      * reflexivity.
  - destruct (e =? 255) eqn:E255.
    + apply Z.eqb_eq in E255. cbn [negb andb].
      destruct (m =? 0); cbn; now rewrite ?orb_true_r.
    + apply Z.eqb_neq in E0, E255. cbn [negb andb].
      destruct (m + 2 ^ 23) as [|p|p] eqn:Ep; try lia.
      cbn [isnan isinf SFltb SFcompare SD35_MIN_CFG SD35_MAX_CFG].
      rewrite !orb_false_r.
      assert (Hmag : 0 < (2 ^ 23 + m) * 2 ^ (e - 1)).
      { apply Z.mul_pos_pos; [lia|apply Z.pow_pos_nonneg; lia]. }
      destruct s; cbn [negb].
      * replace (2 ^ 23 + m) with (Z.pos p) by lia.
        destruct (Z.compare_spec (-19) (e - 150)) as [Heq|Hlt|Hgt].
        -- replace (e - 1) with 130 by lia.
           change (Pos.compare_cont Eq 10485760 p) with (Z.pos 10485760 ?= Z.pos p).
           destruct (Z.compare_spec (Z.pos 10485760) (Z.pos p)); symmetry.
           ++ apply negb_false_iff, Z.leb_le.
              change (2 ^ 130) with 1361129467683753853853498429727072845824.
              change (2^149) with 713623846352979940529142984724747568191373312.
              lia.
           ++ apply negb_true_iff, Z.leb_gt.
              change (2 ^ 130) with 1361129467683753853853498429727072845824.
              change (2^149) with 713623846352979940529142984724747568191373312.
              lia.
           ++ apply negb_false_iff, Z.leb_le.
              change (2 ^ 130) with 1361129467683753853853498429727072845824.
              change (2^149) with 713623846352979940529142984724747568191373312.
              lia.
        -- symmetry. apply negb_true_iff, Z.leb_gt.
           assert (2 ^ 131 <= 2 ^ (e - 1)) by (apply Z.pow_le_mono_r; lia).
           change (2 ^ 131) with 2722258935367507707706996859454145691648 in *.
           change (2^149) with 713623846352979940529142984724747568191373312.
           change (2^23) with 8388608 in *. nia.
        -- symmetry. apply negb_false_iff, Z.leb_le.
           assert (2 ^ (e - 1) <= 2 ^ 129) by (apply Z.pow_le_mono_r; lia).
           assert (0 < 2 ^ (e - 1)) by (apply Z.pow_pos_nonneg; lia).
           change (2 ^ 129) with 680564733841876926926749214863536422912 in *.
           change (2^149) with 713623846352979940529142984724747568191373312.
           change (2^23) with 8388608 in *. nia.
      * symmetry. apply negb_true_iff. apply Z.eqb_neq. lia.
Qed.

(** ** The request decoder against the gates of the specification *)

Lemma fst_if {A B} (c : bool) (x y : A * B) :
  fst (if c then x else y) = if c then fst x else fst y.
Proof. now destruct c. Qed.

Ltac nat_consts :=
  repeat match goal with
  | |- context [Z.to_nat ?z] =>
      let v := eval vm_compute in (Z.to_nat z) in
      change (Z.to_nat z) with v
  end.

Ltac bind_value :=
  repeat (rewrite fst_tr_bind; cbv beta);
  rewrite ?read_u32_be_value, ?read_u16_be_value, ?read_u64_be_value by lia.

Lemma decode_protocol_header_value data n h :
  (n <? 16) = false ->
  fst (decode_protocol_header data n h) = (header_verdict data, header_of data).
Proof.
  intros Hn. unfold decode_protocol_header. rewrite Hn.
  repeat (rewrite fst_tr_bind; cbv beta).
  rewrite !read_u32_be_value, !read_u16_be_value by lia.
  nat_consts. cbv zeta. cbn [magic version msg_type payload_len].
  unfold header_verdict, header_of, f_magic, f_version, f_kind, f_payload_len.
  repeat match goal with
  | |- context [if ?c then _ else _] => destruct c
  end; reflexivity.
Qed.

Lemma read_f32_be_value data off :
  0 <= off ->
  fst (read_f32_be data off) = float_of_bits (be_field data (Z.to_nat off) 4).
Proof.
  intros Hoff. unfold read_f32_be. rewrite fst_tr_bind. cbn [tr_ret fst].
  now rewrite read_u32_be_value.
Qed.

Ltac consts :=
  unfold MIN_SUPPORTED_VERSION, MAX_SUPPORTED_VERSION, PROTOCOL_VERSION_1,
    PROTOCOL_MAGIC, MSG_GENERATE_REQUEST, MAX_MESSAGE_SIZE, MODEL_ID_SD35,
    SD35_MIN_STEPS, SD35_MAX_STEPS, SD35_MIN_PROMPT_LENGTH,
    SD35_MAX_PROMPT_LENGTH, UINT32_MAX in *.

Ltac unbool :=
  rewrite ?Z.gtb_ltb, ?Z.geb_leb in *;
  repeat match goal with
  | H : negb _ = true |- _ => apply negb_true_iff in H
  | H : negb _ = false |- _ => apply negb_false_iff in H
  | H : (_ || _) = false |- _ => apply orb_false_iff in H; destruct H
  | H : (_ && _) = true |- _ => apply andb_true_iff in H; destruct H
  | H : (_ || _) = true |- _ => apply orb_true_iff in H; destruct H
  | H : (_ && _) = false |- _ => apply andb_false_iff in H; destruct H
  | H : (_ <? _) = true |- _ => apply Z.ltb_lt in H
  | H : (_ <? _) = false |- _ => apply Z.ltb_ge in H
  | H : (_ <=? _) = true |- _ => apply Z.leb_le in H
  | H : (_ <=? _) = false |- _ => apply Z.leb_gt in H
  | H : (_ =? _) = true |- _ => apply Z.eqb_eq in H
  | H : (_ =? _) = false |- _ => apply Z.eqb_neq in H
  end.

(** [c = b] for a boolean combination [c] of integer comparisons. *)
Ltac decide_bool c b :=
  let Hc := fresh "Hc" in
  assert (Hc : c = b)
    by (let E := fresh "E" in
        destruct c eqn:E; try reflexivity; exfalso; consts; unbool; lia);
  rewrite Hc; clear Hc.

Ltac spec_met :=
  lazymatch goal with
  | |- _ = (if ?c then _ else _) => decide_bool c true
  end.

Ltac spec_unmet :=
  cbn [negb is_ERR_NONE tr_ret fst snd];
  lazymatch goal with
  | |- _ = (if ?c then _ else _) => decide_bool c false
  end; reflexivity.

Lemma bad_dimension_spec d : bad_dimension d = negb (dimension_ok d).
Proof.
  unfold bad_dimension, dimension_ok, SD35_MIN_DIMENSION, SD35_MAX_DIMENSION,
    SD35_DIMENSION_ALIGNMENT.
  rewrite Z.gtb_ltb, !negb_andb, !Z.leb_antisym, !negb_involutive.
  reflexivity.
Qed.

Ltac prompt_gate :=
  lazymatch goal with
  | |- fst (fst (if ?c then _ else _)) = _ =>
      let E := fresh "E" in destruct c eqn:E; [spec_unmet|]
  end.

Lemma decode_value data n req :
  fst (fst (decode_generate_request (Some data) n (Some req)))
  = first_violation (gates n data).
Proof.
  unfold decode_generate_request, gates, gates_before_prompt.
  cbn [app first_violation].
  destruct (n <? 16) eqn:E1; [spec_unmet|spec_met].
  rewrite fst_tr_bind; cbv beta.
  rewrite (decode_protocol_header_value _ _ _ E1). cbn [fst snd].
  unfold header_verdict, header_of; cbn [payload_len].
  destruct (negb (f_magic data =? PROTOCOL_MAGIC)) eqn:E2; [spec_unmet|spec_met].
  destruct ((f_version data <? MIN_SUPPORTED_VERSION)
            || (f_version data >? MAX_SUPPORTED_VERSION)) eqn:E3;
    [spec_unmet|spec_met].
  destruct (negb (f_kind data =? MSG_GENERATE_REQUEST)) eqn:E4;
    [spec_unmet|spec_met].
  pose proof (be_field_4_range data 8) as Hp. fold (f_payload_len data) in Hp.
  destruct (f_payload_len data >? MAX_MESSAGE_SIZE - 16) eqn:E5.
  { spec_unmet. }
  cbn [negb is_ERR_NONE].
  rewrite (wrap32_small (16 + f_payload_len data))
    by (consts; unbool; lia).
  destruct (n <? 16 + f_payload_len data) eqn:E6; [spec_unmet|spec_met].
  destruct (f_payload_len data <? 12 + 48) eqn:E7; [spec_unmet|spec_met].
  do 2 (rewrite fst_tr_bind; cbv beta).
  rewrite read_u64_be_value, read_u32_be_value by lia. nat_consts.
  cbn [model_id set_model_id set_request_id]. fold (f_model_id data).
  destruct (negb (f_model_id data =? MODEL_ID_SD35)) eqn:E8;
    [spec_unmet|spec_met].
  assert (Hr : wrap64 (wrap64 (wrap64 (f_payload_len data - 8) - 4) - 48)
               = f_payload_len data - 60).
  { consts. unbool.
    rewrite (wrap64_small (f_payload_len data - 8)) by lia.
    rewrite (wrap64_small (f_payload_len data - 8 - 4)) by lia.
    rewrite wrap64_small by lia. lia. }
  rewrite Hr.
  assert (Hr' : wrap64 (wrap64 (f_payload_len data - 8) - 4)
               = f_payload_len data - 12).
  { consts. unbool.
    rewrite (wrap64_small (f_payload_len data - 8)) by lia.
    rewrite wrap64_small by lia. lia. }
  rewrite Hr'.
  destruct (f_payload_len data - 12 <? 48) eqn:E9; [exfalso; unbool; lia|].
  do 11 (rewrite fst_tr_bind; cbv beta).
  rewrite !read_u32_be_value, !read_f32_be_value by lia. nat_consts.
  cbn [width height steps cfg_scale clip_l_offset clip_l_length clip_g_offset
       clip_g_length t5_offset t5_length prompt_data_len].
  fold (f_width data) (f_height data) (f_steps data) (f_cfg_bits data)
    (f_clip_l_offset data) (f_clip_l_length data) (f_clip_g_offset data)
    (f_clip_g_length data) (f_t5_offset data) (f_t5_length data).
  rewrite !bad_dimension_spec.
  destruct (dimension_ok (f_width data)); [|reflexivity].
  destruct (dimension_ok (f_height data)); [|reflexivity].
  cbn [negb andb].
  destruct ((f_steps data <? SD35_MIN_STEPS) || (f_steps data >? SD35_MAX_STEPS))
    eqn:E10; [spec_unmet|spec_met].
  rewrite cfg_gate by (apply be_field_4_range).
  destruct (cfg_ok (f_cfg_bits data)); [|reflexivity].
  cbn [negb]. unfold prompt_pairs_ok, prompt_pair_ok, prompt_region_size,
    bad_prompt_length.
  pose proof (be_field_4_range data 52) as Ho1.
  pose proof (be_field_4_range data 60) as Ho2.
  pose proof (be_field_4_range data 68) as Ho3.
  fold (f_clip_l_offset data) in Ho1. fold (f_clip_g_offset data) in Ho2.
  fold (f_t5_offset data) in Ho3.
  do 4 prompt_gate.
  rewrite (wrap64_small (f_payload_len data - 60 - f_clip_l_offset data))
    by (consts; unbool; lia).
  do 2 prompt_gate.
  rewrite (wrap64_small (f_payload_len data - 60 - f_clip_g_offset data))
    by (consts; unbool; lia).
  do 2 prompt_gate.
  rewrite (wrap64_small (f_payload_len data - 60 - f_t5_offset data))
    by (consts; unbool; lia).
  prompt_gate.
  cbn [tr_ret fst]. spec_met. reflexivity.
Qed.

Lemma header_verdict_ok d :
  is_ERR_NONE (header_verdict d) = true ->
  f_magic d = PROTOCOL_MAGIC /\ f_version d = 1 /\ f_kind d = 1
  /\ f_payload_len d <= MAX_MESSAGE_SIZE - 16.
Proof.
  unfold header_verdict.
  destruct (negb (f_magic d =? PROTOCOL_MAGIC)) eqn:E2; [discriminate|].
  destruct ((f_version d <? MIN_SUPPORTED_VERSION)
            || (f_version d >? MAX_SUPPORTED_VERSION)) eqn:E3; [discriminate|].
  destruct (negb (f_kind d =? MSG_GENERATE_REQUEST)) eqn:E4; [discriminate|].
  destruct (f_payload_len d >? MAX_MESSAGE_SIZE - 16) eqn:E5; [discriminate|].
  intros _. consts. unbool. repeat split; lia.
Qed.

Lemma decode_protocol_header_log data n h :
  snd (decode_protocol_header data n h)
  = if n <? 16 then [] else map Z.of_nat (seq 0 16).
Proof.
  unfold decode_protocol_header. destruct (n <? 16); [reflexivity|].
  repeat (rewrite snd_tr_bind; cbv beta).
  rewrite !read_u32_be_log, !read_u16_be_log.
  repeat match goal with
  | |- context [if ?c then _ else _] => destruct c
  end; reflexivity.
Qed.


Lemma decode_log data n req :
  exists k,
    snd (decode_generate_request (Some data) n (Some req)) = loads_prefix k
    /\ (k = 0%nat
        \/ (k = 16%nat /\ 16 <= n)
        \/ ((k = 28%nat \/ k = 76%nat)
            /\ 76 <= 16 + f_payload_len data <= n)).
Proof.
  unfold decode_generate_request.
  destruct (n <? 16) eqn:E1.
  { exists 0%nat. split; [reflexivity|now left]. }
  rewrite snd_tr_bind, decode_protocol_header_log, E1. cbv beta.
  rewrite (decode_protocol_header_value _ _ _ E1). cbn [fst snd].
  destruct (negb (is_ERR_NONE (header_verdict data))) eqn:Ev.
  { exists 16%nat. split; [reflexivity|]. right; left. unbool. lia. }
  apply negb_false_iff, header_verdict_ok in Ev.
  destruct Ev as (_ & _ & _ & Hcap).
  pose proof (be_field_4_range data 8) as Hp. fold (f_payload_len data) in Hp.
  unfold header_of; cbn [payload_len].
  rewrite (wrap32_small (16 + f_payload_len data)) by (consts; lia).
  destruct (n <? 16 + f_payload_len data) eqn:E6.
  { exists 16%nat. split; [reflexivity|]. right; left. unbool. lia. }
  destruct (f_payload_len data <? 12 + 48) eqn:E7.
  { exists 16%nat. split; [reflexivity|]. right; left. unbool. lia. }
  do 2 (rewrite snd_tr_bind; cbv beta).
  rewrite read_u64_be_log, read_u32_be_log.
  match goal with
  | |- context [if ?c then _ else _] => destruct c
  end.
  { exists 28%nat. split; [reflexivity|]. right; right. unbool. lia. }
  match goal with
  | |- context [if ?c then _ else _] => destruct c
  end.
  { exists 28%nat. split; [reflexivity|]. right; right. unbool. lia. }
  do 11 (rewrite snd_tr_bind; cbv beta).
  rewrite !read_u64_be_log, !read_u32_be_log, !read_f32_be_log.
  exists 76%nat. split; [|right; right; unbool; lia].
  repeat match goal with
  | |- context [if ?c then _ else _] => destruct c
  end; reflexivity.
Qed.

Ltac ok_step H0 :=
  lazymatch type of H0 with
  | fst (fst (if ?c then _ else _)) = _ =>
      let E := fresh "E" in destruct c eqn:E; [discriminate H0|]
  | fst (fst (tr_bind _ _)) = _ =>
      rewrite fst_tr_bind in H0 |- *; cbv beta in H0 |- *
  end.

Lemma decode_success_request data n req :
  fst (fst (decode_generate_request (Some data) n (Some req))) = ERR_NONE ->
  snd (fst (decode_generate_request (Some data) n (Some req)))
  = Some (frame_request data).
Proof.
  unfold decode_generate_request. intros H0.
  destruct (n <? 16) eqn:E1; [discriminate H0|].
  rewrite fst_tr_bind in H0 |- *; cbv beta in H0 |- *.
  rewrite (decode_protocol_header_value _ _ _ E1) in H0 |- *.
  cbn [fst snd] in H0 |- *.
  destruct (negb (is_ERR_NONE (header_verdict data))) eqn:Ev.
  { cbn [tr_ret fst] in H0. rewrite H0 in Ev. discriminate Ev. }
  apply negb_false_iff, header_verdict_ok in Ev.
  destruct Ev as (_ & _ & _ & Hcap).
  pose proof (be_field_4_range data 8) as Hp. fold (f_payload_len data) in Hp.
  unfold header_of in H0 |- *; cbn [payload_len] in H0 |- *.
  do 4 ok_step H0.
  rewrite read_u64_be_value, read_u32_be_value in H0 |- * by lia.
  do 2 ok_step H0.
  do 11 ok_step H0.
  rewrite !read_u64_be_value, !read_u32_be_value, !read_f32_be_value
    in H0 |- * by lia.
  repeat ok_step H0.
  cbn [tr_ret fst snd set_model_id set_request_id request_id model_id].
  nat_consts. unfold frame_request, prompt_region_size.
  assert (Hr : wrap64 (wrap64 (wrap64 (f_payload_len data - 8) - 4) - 48)
               = f_payload_len data - 60).
  { clear H0. consts. unbool.
    rewrite (wrap64_small (f_payload_len data - 8)) by lia.
    rewrite (wrap64_small (f_payload_len data - 8 - 4)) by lia.
    rewrite wrap64_small by lia. lia. }
  rewrite Hr.
  match goal with
  | |- context [Some ?z] =>
      lazymatch type of z with Z => change z with 76 end
  end.
  reflexivity.
Qed.

(** ** The decoder's gates (C1) and its prompt bounds (C2) *)

Lemma first_violation_none gs :
  Forall (fun g => snd g <> ERR_NONE) gs ->
  (first_violation gs = ERR_NONE <-> all_met gs = true).
Proof.
  induction 1 as [|[met kind] gs Hk _ IH]; cbn.
  - tauto.
  - destruct met; cbn.
    + exact IH.
    + cbn in Hk. split; [intros E; now elim Hk|discriminate].
Qed.

Lemma gates_kinds n d : Forall (fun g => snd g <> ERR_NONE) (gates n d).
Proof. unfold gates, gates_before_prompt; cbn. repeat constructor; discriminate.
Qed.

(** C1.  On every input slice the decoder returns the error kind of the
    first gate of the specification that the slice does not meet, the
    gates taken in the specification's order (too short, magic, version,
    message kind, payload cap and truncation, undersized payload, model
    id, dimensions, steps, CFG scale, prompt pairs), and it returns
    success exactly when every gate is met. *)
Theorem decode_generate_request_first_violated_gate
    (data : list byte) (req : sd35_generate_request_t) :
  let n := Z.of_nat (length data) in
  let result :=
    fst (fst (decode_generate_request (Some data) n (Some req))) in
  result = first_violation (gates n data)
  /\ (result = ERR_NONE <-> all_met (gates n data) = true).
Proof.
  cbv zeta. rewrite decode_value. split; [reflexivity|].
  apply first_violation_none, gates_kinds.
Qed.

(** The scenarios of the specification, on the decoder: the valid
    512x512 request, an unaligned width, a NaN and an infinite CFG
    scale, a wrong magic and a truncated header. *)
Example decode_scenario_valid :
  fst (decode_generate_request (Some scenario_request) 118
         (Some Main.req_uninit))
  = (ERR_NONE, Some (frame_request scenario_request)).
Proof. vm_compute. reflexivity. Qed.

Example decode_scenario_unaligned :
  let d := build_valid_request 12345 513 512 4 0x40900000 42 a_cat_in_space in
  fst (fst (decode_generate_request (Some d) 118 (Some Main.req_uninit)))
  = ERR_INVALID_DIMENSIONS.
Proof. vm_compute. reflexivity. Qed.

Example decode_scenario_nan :
  let d := build_valid_request 12345 512 512 4 0x7FC00000 42 a_cat_in_space in
  fst (fst (decode_generate_request (Some d) 118 (Some Main.req_uninit)))
  = ERR_INVALID_CFG.
Proof. vm_compute. reflexivity. Qed.

Example decode_scenario_infinities :
  let run bits :=
    let d := build_valid_request 12345 512 512 4 bits 42 a_cat_in_space in
    fst (fst (decode_generate_request (Some d) 118 (Some Main.req_uninit))) in
  run 0x7F800000 = ERR_INVALID_CFG /\ run 0xFF800000 = ERR_INVALID_CFG
  /\ run 0x41A00000 = ERR_NONE /\ run 0x41A00001 = ERR_INVALID_CFG
  /\ run 0x80000000 = ERR_NONE /\ run 0x80000001 = ERR_INVALID_CFG.
Proof. vm_compute. repeat split. Qed.

Example decode_scenario_bad_magic :
  let d := poke 0 (map byte.of_Z [0xDE; 0xAD; 0xBE; 0xEF]) scenario_request in
  fst (fst (decode_generate_request (Some d) 118 (Some Main.req_uninit)))
  = ERR_INVALID_MAGIC.
Proof. vm_compute. reflexivity. Qed.

Example decode_scenario_truncated :
  decode_generate_request (Some (firstn 10 scenario_request)) 10
    (Some Main.req_uninit)
  = (ERR_INTERNAL, Some Main.req_uninit, []).
Proof. vm_compute. reflexivity. Qed.

Lemma prompt_pair_ok_within region offset length :
  0 <= offset -> prompt_pair_ok region offset length = true ->
  1 <= length <= 256 /\ 0 <= offset <= region /\ length <= region - offset.
Proof. unfold prompt_pair_ok. intros Ho Hp. unbool. lia. Qed.

Lemma all_met_before_prompt n d :
  all_met (gates n d) = all_met (gates_before_prompt n d) && prompt_pairs_ok d.
Proof.
  unfold all_met, gates. rewrite forallb_app. cbn [forallb fst].
  now rewrite andb_true_r.
Qed.

Lemma first_violation_app gs gs' :
  all_met gs = true -> first_violation (gs ++ gs') = first_violation gs'.
Proof.
  induction gs as [|[met kind] gs IH]; cbn; [reflexivity|].
  intros Hm. apply andb_true_iff in Hm. destruct Hm as [-> Hm]. auto.
Qed.

(** C2.  For a slice of [data_len] bytes at [data]:
    - decoding succeeds only if each of the three (offset, length)
      pairs has its length in 1..256, its offset at most the size of
      the prompt region and its length at most that size minus the
      offset; the request then returned points at byte 76 of the
      slice, its prompt region ends where the payload ends, inside the
      slice, and each of its pairs lies inside that region;
    - behind the earlier gates, any violation by a pair yields
      INVALID_PROMPT;
    - every byte the decoder loads lies inside the slice and inside
      its first 16 + payload_len bytes. *)
Theorem decode_generate_request_prompt_bounds
    (data : list byte) (data_len : Z) (req : sd35_generate_request_t) :
  let run := decode_generate_request (Some data) data_len (Some req) in
  (fst (fst run) = ERR_NONE ->
   prompt_pairs_ok data = true
   /\ exists rq,
        snd (fst run) = Some rq
        /\ prompt_data rq = Some 76
        /\ 76 + prompt_data_len rq = 16 + f_payload_len data
        /\ 16 + f_payload_len data <= data_len
        /\ pair_within rq (clip_l_offset rq) (clip_l_length rq)
        /\ pair_within rq (clip_g_offset rq) (clip_g_length rq)
        /\ pair_within rq (t5_offset rq) (t5_length rq))
  /\ (all_met (gates_before_prompt data_len data) = true ->
      prompt_pairs_ok data = false ->
      fst (fst run) = ERR_INVALID_PROMPT)
  /\ Forall (fun i => 0 <= i < data_len /\ i < 16 + f_payload_len data)
       (snd run).
Proof.
  cbv zeta. split; [|split].
  - intros Hok. pose proof Hok as Hv. rewrite decode_value in Hv.
    apply first_violation_none in Hv; [|apply gates_kinds].
    rewrite all_met_before_prompt in Hv. apply andb_true_iff in Hv.
    destruct Hv as [Hb Hp]. split; [exact Hp|].
    exists (frame_request data). split; [now apply decode_success_request|].
    unfold gates_before_prompt, all_met in Hb. cbn [forallb fst] in Hb.
    unfold prompt_pairs_ok in Hp.
    apply andb_true_iff in Hp. destruct Hp as [Hp H3].
    apply andb_true_iff in Hp. destruct Hp as [H1 H2].
    pose proof (be_field_4_range data 52) as Ho1.
    pose proof (be_field_4_range data 60) as Ho2.
    pose proof (be_field_4_range data 68) as Ho3.
    apply prompt_pair_ok_within in H1; [|apply Ho1].
    apply prompt_pair_ok_within in H2; [|apply Ho2].
    apply prompt_pair_ok_within in H3; [|apply Ho3].
    unfold pair_within, frame_request; cbn [prompt_data prompt_data_len
      clip_l_offset clip_l_length clip_g_offset clip_g_length t5_offset
      t5_length].
    unfold prompt_region_size in *. unbool.
    repeat split; try tauto; lia.
  - intros Hb Hp. rewrite decode_value. unfold gates.
    rewrite first_violation_app by exact Hb. cbn. now rewrite Hp.
  - destruct (decode_log data data_len req) as (k & -> & Hk).
    pose proof (be_field_4_range data 8) as Hp. fold (f_payload_len data) in Hp.
    unfold loads_prefix. apply Forall_forall. intros i Hi.
    apply in_map_iff in Hi. destruct Hi as (j & <- & Hj).
    apply in_seq in Hj. lia.
Qed.

(** The theorem at the scenario request, where decoding succeeds. *)
Lemma decode_generate_request_prompt_bounds_witness :
  fst (fst (decode_generate_request (Some scenario_request) 118
              (Some Main.req_uninit))) = ERR_NONE
  /\ prompt_pairs_ok scenario_request = true.
Proof.
  split; [vm_compute; reflexivity|].
  apply (proj1 (decode_generate_request_prompt_bounds scenario_request 118
                  Main.req_uninit)).
  vm_compute; reflexivity.
Defined.

(** The unit test [test_prompt_offset_overflow]: an offset of
    [UINT32_MAX - 5] with a length of 10, whose 32-bit sum wraps to 4,
    is rejected. *)
Example decode_offset_overflow_rejected :
  let d := poke 52 (be32 (UINT32_MAX - 5) ++ be32 10) scenario_request in
  wrap32 (f_clip_l_offset d + f_clip_l_length d) = 4
  /\ fst (fst (decode_generate_request (Some d) 118 (Some Main.req_uninit)))
     = ERR_INVALID_PROMPT.
Proof. vm_compute. split; reflexivity. Qed.

(** ** Stores of the encoders *)


Lemma of_Z_land_ff (x : Z) : byte.of_Z (Z.land x 0xFF) = byte.of_Z x.
Proof.
  apply byte.unsigned_inj. rewrite !byte.unsigned_of_Z. unfold byte.wrap.
  change 0xFF with (Z.ones 8). rewrite Z.land_ones by lia.
  apply Z.mod_mod. lia.
Qed.

Lemma write_u16_be_stores p v :
  write_u16_be p v = (tt, stores_at p (be16 v)).
Proof.
  unfold write_u16_be, put, tr_emit, be16; cbn [be_bytes stores_at tr_bind app].
  rewrite !of_Z_land_ff. cbn [Z.of_nat Z.mul]. rewrite Z.shiftr_0_r.
  rewrite <- ?Z.add_assoc. reflexivity.
Qed.

Lemma write_u32_be_stores p v :
  write_u32_be p v = (tt, stores_at p (be32 v)).
Proof.
  unfold write_u32_be, put, tr_emit, be32; cbn [be_bytes stores_at tr_bind app].
  rewrite !of_Z_land_ff.  cbn [Z.of_nat Z.mul Pos.of_succ_nat Pos.succ Pos.mul Pos.add].
  rewrite Z.shiftr_0_r. 
  rewrite <- ?Z.add_assoc. reflexivity.
Qed.

Lemma write_u64_be_stores p v :
  write_u64_be p v = (tt, stores_at p (be64 v)).
Proof.
  unfold write_u64_be, put, tr_emit, be64; cbn [be_bytes stores_at tr_bind app].
  rewrite !of_Z_land_ff.
  cbn [Z.of_nat Z.mul Pos.of_succ_nat Pos.succ Pos.mul Pos.add].
  rewrite Z.shiftr_0_r.
  rewrite <- ?Z.add_assoc. reflexivity.
Qed.

Lemma stores_at_app p a b :
  stores_at p (a ++ b) = stores_at p a ++ stores_at (p + Z.of_nat (length a)) b.
Proof.
  revert p; induction a as [|x a IH]; intros p; cbn [app stores_at length].
  - now rewrite Z.add_0_r.
  - rewrite IH. replace (p + 1 + Z.of_nat (length a))
      with (p + Z.of_nat (S (length a))) by lia. reflexivity.
Qed.

Lemma skipn_cons_nth {A} (k : nat) (l : list A) (x d : A) (rest : list A) :
  skipn k l = x :: rest -> nth k l d = x /\ skipn (S k) l = rest.
Proof.
  revert l; induction k as [|k IH]; intros l E.
  - cbn in E. subst l. now split.
  - destruct l as [|y l]; [discriminate E|]. cbn [skipn] in E.
    destruct (IH l E) as [Hn Hs]. split; [exact Hn|].
    exact Hs.
Qed.

Lemma memcpy_from_stores dst src k n :
  (Z.to_nat k + n <= length src)%nat -> 0 <= k ->
  memcpy_from dst src k n
  = (tt, stores_at (dst + k) (firstn n (skipn (Z.to_nat k) src))).
Proof.
  revert k; induction n as [|n IH]; intros k Hn Hk; cbn [memcpy_from].
  - reflexivity.
  - rewrite IH by lia. unfold tr_emit. cbn [tr_bind app].
    destruct (skipn (Z.to_nat k) src) as [|x rest] eqn:Es.
    { apply (f_equal (@length byte)) in Es. rewrite length_skipn in Es.
      cbn in Es. lia. }
    cbn [firstn stores_at].
    destruct (skipn_cons_nth _ _ _ Byte.x00 _ Es) as [Hx Hr].
    replace (Z.to_nat (k + 1)) with (S (Z.to_nat k)) by lia.
    rewrite Hx, Hr. replace (dst + (k + 1)) with (dst + k + 1) by lia.
    reflexivity.
Qed.

Lemma memcpy_stores dst src n :
  0 <= n <= Z.of_nat (length src) ->
  memcpy dst src n = (tt, stores_at dst (firstn (Z.to_nat n) src)).
Proof.
  intros Hn. unfold memcpy. rewrite memcpy_from_stores by (cbn; lia).
  cbn [Z.to_nat skipn]. now rewrite Z.add_0_r.
Qed.

Lemma length_be_bytes n v : length (be_bytes n v) = n.
Proof. induction n; cbn [be_bytes length]; congruence. Qed.

Lemma set_nth_poke (i : nat) (v : byte) (l : list byte) :
  (i < length l)%nat -> set_nth i v l = poke i [v] l.
Proof.
  unfold poke. revert l; induction i as [|i IH]; intros [|h t] Hi;
    cbn [length] in Hi; try lia; cbn.
  - reflexivity.
  - rewrite IH by lia. reflexivity.
Qed.

Lemma length_poke i bs d :
  (i + length bs <= length d)%nat -> length (poke i bs d) = length d.
Proof.
  intros Hi. unfold poke. rewrite !length_app, length_firstn, length_skipn. lia.
Qed.

Lemma poke_app (a bs rest : list byte) :
  poke (length a) bs (a ++ rest) = a ++ bs ++ skipn (length bs) rest.
Proof.
  unfold poke.
  rewrite <- (Nat.add_0_r (length a)) at 1.
  rewrite firstn_app_2. cbn [firstn]. rewrite app_nil_r.
  rewrite skipn_app, skipn_all2 by lia. cbn [app].
  now replace (length a + length bs - length a)%nat with (length bs) by lia.
Qed.

Lemma poke_poke i v bs d :
  (i + S (length bs) <= length d)%nat ->
  poke (S i) bs (poke i [v] d) = poke i (v :: bs) d.
Proof.
  intros Hi.
  rewrite <- (firstn_skipn i d).
  assert (Ha : length (firstn i d) = i) by (rewrite length_firstn; lia).
  destruct (skipn i d) as [|x c] eqn:Es.
  { apply (f_equal (@length byte)) in Es. rewrite length_skipn in Es.
    cbn in Es. lia. }
  set (a := firstn i d) in *. clearbody a. subst i.
  rewrite !poke_app. cbn [length skipn app].
  replace (S (length a)) with (length (a ++ [v]))
    by (rewrite length_app; cbn; lia).
  replace (a ++ v :: c) with ((a ++ [v]) ++ c)
    by (now rewrite <- app_assoc).
  rewrite poke_app. now rewrite <- app_assoc.
Qed.

Lemma apply_stores_at buf o p bs :
  (p + length bs <= length buf)%nat ->
  apply_stores (buf, o) (stores_at (Z.of_nat p) bs) = (poke p bs buf, o).
Proof.
  unfold apply_stores.
  revert p buf; induction bs as [|b bs IH]; intros p buf Hp.
  - cbn. unfold poke. cbn. now rewrite Nat.add_0_r, firstn_skipn.
  - cbn [stores_at fold_left length] in *. unfold apply_store at 2.
    cbn [fst snd].
    replace ((0 <=? Z.of_nat p) && (Z.of_nat p <? Z.of_nat (length buf)))
      with true by (symmetry; apply andb_true_iff; split;
                    [apply Z.leb_le|apply Z.ltb_lt]; lia).
    rewrite Nat2Z.id, set_nth_poke by lia.
    replace (Z.of_nat p + 1) with (Z.of_nat (S p)) by lia.
    rewrite IH by (rewrite length_poke; cbn; lia).
    now rewrite poke_poke by lia.
Qed.

Lemma apply_stores_app m l1 l2 :
  apply_stores m (l1 ++ l2) = apply_stores (apply_stores m l1) l2.
Proof. unfold apply_stores. apply fold_left_app. Qed.

Lemma apply_stores_at_start buf o bs :
  (length bs <= length buf)%nat ->
  apply_stores (buf, o) (stores_at 0 bs) = (poke 0 bs buf, o).
Proof. intros Hl. now apply (apply_stores_at buf o 0%nat bs). Qed.

(** ** Verdicts and frames of the encoders *)

Lemma div_bound_2048 (w h : Z) :
  64 <= w <= 2048 -> 64 <= h <= 2048 -> (w >? UINT32_MAX / h) = false.
Proof.
  intros Hw Hh. rewrite Z.gtb_ltb. apply Z.ltb_ge.
  apply Z.div_le_lower_bound; [lia|]. unfold UINT32_MAX. nia.
Qed.

Lemma div_bound_channels (pixels c : Z) :
  0 <= pixels <= 2048 * 2048 -> 3 <= c <= 4 ->
  (pixels >? UINT32_MAX / c) = false.
Proof.
  intros Hp Hc. rewrite Z.gtb_ltb. apply Z.ltb_ge.
  apply Z.div_le_lower_bound; [lia|]. unfold UINT32_MAX. nia.
Qed.

Lemma dimension_ok_range d : dimension_ok d = true -> 64 <= d <= 2048.
Proof. unfold dimension_ok. intros H. unbool. lia. Qed.

Lemma dimension_ok_aligned d : dimension_ok d = true -> d = 64 * (d / 64).
Proof.
  unfold dimension_ok. intros H. unbool.
  pose proof (Z.div_mod d 64 ltac:(lia)). lia.
Qed.

(** The byte length of a valid image is a multiple of 64 * 64, so a
    length of at most 10 MiB - 32 leaves the whole frame within
    10 MiB. *)
Lemma valid_length_fits (w h c len : Z) :
  dimension_ok w = true -> dimension_ok h = true ->
  w * h * c = len -> len <= 10 * 1024 * 1024 - 16 - 16 ->
  16 + (16 + 16 + len) <= 10 * 1024 * 1024.
Proof.
  intros Hw Hh Hl Hm.
  apply dimension_ok_aligned in Hw, Hh.
  assert (Hk : len = 4096 * (w / 64 * (h / 64) * c)).
  { rewrite <- Hl. rewrite Hw at 1. rewrite Hh at 1. ring. }
  set (k := w / 64 * (h / 64) * c) in Hk. lia.
Qed.

Lemma encode_generate_response_value resp image b size :
  image_data resp = Some image ->
  fst (encode_generate_response (Some resp) (Some b) size (Some tt))
  = encode_response_verdict resp size.
Proof.
  intros Hi. unfold encode_generate_response, encode_response_verdict,
    response_valid. rewrite Hi. rewrite !bad_dimension_spec.
  destruct (dimension_ok (image_width resp)) eqn:Ew; [|reflexivity].
  destruct (dimension_ok (image_height resp)) eqn:Eh; [|reflexivity].
  pose proof (valid_length_fits _ _ (channels resp) (image_data_len resp)
                Ew Eh) as Hfit.
  apply dimension_ok_range in Ew, Eh.
  cbn [negb andb].
  destruct (negb (channels resp =? 3) && negb (channels resp =? 4)) eqn:Ec.
  { decide_bool ((channels resp =? 3) || (channels resp =? 4)) false.
    reflexivity. }
  assert (Hc : 3 <= channels resp <= 4) by (unbool; lia).
  decide_bool ((channels resp =? 3) || (channels resp =? 4)) true.
  rewrite div_bound_2048 by assumption.
  assert (Hpix : 0 <= image_width resp * image_height resp <= 2048 * 2048)
    by nia.
  rewrite (wrap32_small (image_width resp * image_height resp)) by lia.
  rewrite div_bound_channels by assumption.
  rewrite wrap32_small by nia.
  replace (image_width resp * image_height resp * channels resp
           <=? UINT32_MAX) with true
    by (symmetry; apply Z.leb_le; unfold UINT32_MAX; nia).
  cbn [andb].
  destruct (image_width resp * image_height resp * channels resp
            =? image_data_len resp) eqn:El.
  2:{ rewrite Z.eqb_sym, El. reflexivity. }
  rewrite Z.eqb_sym, El. cbn [negb].
  apply Z.eqb_eq in El.
  destruct (image_data_len resp >? MAX_MESSAGE_SIZE - 16 - 16) eqn:Em.
  { decide_bool (16 + (16 + 16 + image_data_len resp) >? 10 * 1024 * 1024)
      true.
    reflexivity. }
  specialize (Hfit El ltac:(consts; unbool; lia)).
  decide_bool (16 + (16 + 16 + image_data_len resp) >? 10 * 1024 * 1024)
    false.
  assert (Hlen : 0 <= image_data_len resp <= 10 * 1024 * 1024)
    by (consts; unbool; nia).
  rewrite (wrap32_small (16 + 16 + image_data_len resp)) by lia.
  rewrite wrap32_small by lia.
  destruct (16 + (16 + 16 + image_data_len resp) >? size) eqn:Es;
    [reflexivity|].
  repeat (rewrite fst_tr_bind; cbv beta). reflexivity.
Qed.

Lemma response_valid_facts r :
  response_valid r = true ->
  64 <= image_width r <= 2048 /\ 64 <= image_height r <= 2048
  /\ 3 <= channels r <= 4
  /\ image_width r * image_height r * channels r = image_data_len r
  /\ 0 <= image_data_len r <= 2048 * 2048 * 4.
Proof.
  unfold response_valid. intros H.
  apply andb_true_iff in H. destruct H as [H Hl].
  apply andb_true_iff in H. destruct H as [H _].
  apply andb_true_iff in H. destruct H as [H Hc].
  apply andb_true_iff in H. destruct H as [Hw Hh].
  apply dimension_ok_range in Hw, Hh. apply Z.eqb_eq in Hl.
  assert (3 <= channels r <= 4) by (unbool; lia).
  repeat split; try lia; nia.
Qed.

Lemma fst_tr_ret {E A} (a : A) : fst (@tr_ret E A a) = a.
Proof. reflexivity. Qed.

Ltac enc_fail_step :=
  lazymatch goal with
  | |- fst (if ?c then _ else _) <> _ -> snd (if ?c then _ else _) = _ =>
      destruct c; [reflexivity|]
  | |- fst (match ?x with Some _ => _ | None => _ end) <> _ -> _ =>
      destruct x; [|reflexivity]
  end.

Lemma encode_generate_response_failure resp buffer buf_size out_len :
  fst (encode_generate_response resp buffer buf_size out_len) <> ERR_NONE ->
  snd (encode_generate_response resp buffer buf_size out_len) = [].
Proof.
  unfold encode_generate_response.
  destruct resp as [resp|]; [|reflexivity].
  destruct buffer as [buffer|]; [|reflexivity].
  destruct out_len as [[]|]; [|reflexivity].
  destruct (image_data resp) as [image|]; [|reflexivity].
  repeat enc_fail_step.
  repeat (rewrite fst_tr_bind; cbv beta). cbn [tr_ret fst].
  intros Hne. now elim Hne.
Qed.

Lemma encode_error_response_failure resp buffer buf_size out_len :
  fst (encode_error_response resp buffer buf_size out_len) <> ERR_NONE ->
  snd (encode_error_response resp buffer buf_size out_len) = [].
Proof.
  unfold encode_error_response.
  destruct resp as [resp|]; [|reflexivity].
  destruct buffer as [buffer|]; [|reflexivity].
  destruct out_len as [[]|]; [|reflexivity].
  repeat enc_fail_step.
  repeat (rewrite fst_tr_bind; cbv beta). cbn [tr_ret fst].
  intros Hne. now elim Hne.
Qed.

Lemma stores_at_eq p q l : p = q -> stores_at p l = stores_at q l.
Proof. now intros ->. Qed.

Ltac stores_frame :=
  rewrite ?stores_at_app, ?length_be_bytes, <- ?app_assoc;
  repeat (apply f_equal2; [apply stores_at_eq; lia|]).

Lemma encode_generate_response_stores resp image b size :
  image_data resp = Some image ->
  image_data_len resp <= Z.of_nat (length image) ->
  encode_response_verdict resp size = ERR_NONE ->
  snd (encode_generate_response (Some resp) (Some b) size (Some tt))
  = stores_at b (response_frame resp)
    ++ [StoreOutLen (16 + (16 + 16 + image_data_len resp))].
Proof.
  intros Hi Hlen Hv.
  pose proof (encode_generate_response_value resp image b size Hi) as Hf.
  rewrite Hv in Hf. revert Hf.
  unfold encode_response_verdict in Hv.
  destruct (negb (response_valid resp)) eqn:Er; [discriminate Hv|].
  destruct (16 + (16 + 16 + image_data_len resp) >? 10 * 1024 * 1024)
    eqn:Em; [discriminate Hv|].
  clear Hv.
  apply negb_false_iff, response_valid_facts in Er.
  destruct Er as (_ & _ & _ & _ & H0).
  unfold encode_generate_response. rewrite Hi.
  repeat lazymatch goal with
  | |- fst (if ?c then _ else _) = _ -> _ =>
      destruct c; [discriminate|]
  end.
  intros _.
  rewrite (wrap32_small (16 + 16 + image_data_len resp))
    by (unbool; lia).
  rewrite wrap32_small by (unbool; lia).
  rewrite !write_u32_be_stores, !write_u16_be_stores, write_u64_be_stores,
    memcpy_stores by lia.
  unfold tr_emit, tr_ret. cbn [tr_bind snd app].
  unfold response_frame. rewrite Hi.
  unfold PROTOCOL_MAGIC, PROTOCOL_VERSION_1, MSG_GENERATE_RESPONSE.
  unfold be16, be32, be64.
  rewrite !stores_at_app, !length_be_bytes, <- !app_assoc.
  repeat (apply f_equal2; [apply stores_at_eq; lia|]).
  reflexivity.
Qed.

Lemma encode_error_response_value r b size :
  0 <= error_msg_len r < 2 ^ 16 ->
  fst (encode_error_response (Some r) (Some b) size (Some tt))
  = encode_error_verdict r size.
Proof.
  intros Hl. unfold encode_error_response, encode_error_verdict.
  rewrite (Z.gtb_ltb (error_msg_len r) 0).
  destruct (match error_msg r with None => true | Some _ => false end
            && (0 <? error_msg_len r)); [reflexivity|].
  rewrite (wrap32_small (8 + 4 + 4 + 2 + error_msg_len r)) by lia.
  rewrite wrap32_small by lia.
  decide_bool (8 + 4 + 4 + 2 + error_msg_len r >? MAX_MESSAGE_SIZE - 16) false.
  destruct (16 + (8 + 4 + 4 + 2 + error_msg_len r) >? size); [reflexivity|].
  repeat (rewrite fst_tr_bind; cbv beta). reflexivity.
Qed.

Lemma encode_error_response_stores r b size :
  0 <= error_msg_len r < 2 ^ 16 ->
  error_msg_len r
  <= Z.of_nat (length (match error_msg r with Some m => m | None => [] end)) ->
  encode_error_verdict r size = ERR_NONE ->
  snd (encode_error_response (Some r) (Some b) size (Some tt))
  = stores_at b (error_frame r)
    ++ [StoreOutLen (16 + (8 + 4 + 4 + 2 + error_msg_len r))].
Proof.
  intros Hl Hm Hv.
  pose proof (encode_error_response_value r b size Hl) as Hf.
  rewrite Hv in Hf. revert Hf. clear Hv.
  unfold encode_error_response.
  repeat lazymatch goal with
  | |- fst (if ?c then _ else _) = _ -> _ =>
      destruct c; [discriminate|]
  end.
  intros _.
  rewrite (wrap32_small (8 + 4 + 4 + 2 + error_msg_len r)) by lia.
  rewrite wrap32_small by lia.
  rewrite !write_u32_be_stores, !write_u16_be_stores, write_u64_be_stores.
  assert (Hcpy :
    (if error_msg_len r >? 0
     then memcpy (b + 4 + 2 + 2 + 4 + 4 + 8 + 4 + 4 + 2)
            (match error_msg r with Some m => m | None => [] end)
            (error_msg_len r)
     else tr_ret tt)
    = (tt, stores_at (b + 4 + 2 + 2 + 4 + 4 + 8 + 4 + 4 + 2)
             (firstn (Z.to_nat (error_msg_len r))
                (match error_msg r with Some m => m | None => [] end)))).
  { destruct (error_msg_len r >? 0) eqn:E0.
    - now rewrite memcpy_stores by lia.
    - unbool. replace (error_msg_len r) with 0 by lia. reflexivity. }
  rewrite Hcpy.
  unfold tr_emit, tr_ret. cbn [tr_bind snd app].
  unfold error_frame.
  unfold PROTOCOL_MAGIC, PROTOCOL_VERSION_1, MSG_ERROR.
  unfold be16, be32, be64.
  rewrite !stores_at_app, !length_be_bytes, <- !app_assoc.
  repeat (apply f_equal2; [apply stores_at_eq; lia|]).
  reflexivity.
Qed.

(** ** Reading the fields of a built frame *)


Lemma octet_app_skip bs d i :
  (length bs <= i)%nat -> octet (bs ++ d) i = octet d (i - length bs).
Proof. intros Hi. unfold octet. now rewrite app_nth2 by lia. Qed.

Lemma be_number_app_skip bs d off n acc :
  (length bs <= off)%nat ->
  be_number (bs ++ d) off n acc = be_number d (off - length bs) n acc.
Proof.
  revert off acc; induction n as [|n IH]; intros off acc Ho; cbn [be_number].
  - reflexivity.
  - rewrite IH by lia. rewrite octet_app_skip by lia.
    now replace (S off - length bs)%nat with (S (off - length bs)) by lia.
Qed.

Lemma be_field_app_skip bs d off n :
  (length bs <= off)%nat ->
  be_field (bs ++ d) off n = be_field d (off - length bs) n.
Proof. apply be_number_app_skip. Qed.

Lemma be_number_be_bytes n v rest acc :
  be_number (be_bytes n v ++ rest) 0 n acc
  = acc * 2 ^ (8 * Z.of_nat n) + v mod 2 ^ (8 * Z.of_nat n).
Proof.
  revert acc; induction n as [|n IH]; intros acc.
  - cbn [be_number]. change (2 ^ (8 * Z.of_nat 0)) with 1.
    rewrite Z.mod_1_r. lia.
  - cbn [be_bytes be_number app].
    change (byte.of_Z (Z.shiftr v (8 * Z.of_nat n)) :: be_bytes n v ++ rest)
      with ([byte.of_Z (Z.shiftr v (8 * Z.of_nat n))] ++ (be_bytes n v ++ rest)).
    rewrite be_number_app_skip by (cbn; lia). cbn [length Nat.sub].
    rewrite IH. unfold octet. cbn [app nth].
    rewrite byte.unsigned_of_Z. unfold byte.wrap.
    rewrite Z.shiftr_div_pow2 by lia.
    replace (8 * Z.of_nat (S n)) with (8 * Z.of_nat n + 8) by lia.
    rewrite Z.pow_add_r by lia.
    rewrite (Z.rem_mul_r v (2 ^ (8 * Z.of_nat n)) (2 ^ 8)) by
      (try apply Z.pow_nonzero; try apply Z.pow_pos_nonneg; lia).
    ring.
Qed.

Lemma be_field_be_bytes n v rest :
  0 <= v < 2 ^ (8 * Z.of_nat n) ->
  be_field (be_bytes n v ++ rest) 0 n = v.
Proof.
  intros Hv. unfold be_field. rewrite be_number_be_bytes.
  rewrite Z.mod_small by assumption. lia.
Qed.

Ltac frame_field :=
  unfold be16, be32, be64;
  repeat (rewrite be_field_app_skip by (rewrite length_be_bytes; lia);
          rewrite length_be_bytes; cbn [Nat.sub]);
  rewrite be_field_be_bytes by (cbn [Z.of_nat Pos.of_succ_nat Pos.succ Z.mul Pos.mul]; lia).

Lemma response_frame_payload_len r :
  0 <= image_data_len r <= 10 * 1024 * 1024 ->
  f_payload_len (response_frame r) = 16 + 16 + image_data_len r.
Proof.
  intros Hl. unfold f_payload_len, response_frame. frame_field. reflexivity.
Qed.

Lemma length_response_frame r image :
  image_data r = Some image ->
  Z.of_nat (length image) = image_data_len r ->
  Z.of_nat (length (response_frame r)) = 16 + (16 + 16 + image_data_len r).
Proof.
  intros Hi Hl. unfold response_frame, be16, be32, be64. rewrite Hi.
  rewrite !length_app, !length_be_bytes, length_firstn.
  rewrite Nat.min_l by lia. lia.
Qed.

Lemma decode_response_frame r :
  response_wf r ->
  16 + (16 + 16 + image_data_len r) <= 10 * 1024 * 1024 ->
  decode_generate_response (response_frame r) = Some r.
Proof.
  intros (Hid & Hst & Ht & Hw & Hh & Hc & Hl & image & Hi & Hlen) Hfit.
  unfold decode_generate_response.
  rewrite (length_response_frame r image Hi Hlen).
  rewrite response_frame_payload_len by lia.
  assert (Hm : f_magic (response_frame r) = 0x57455645).
  { unfold f_magic, response_frame. frame_field. reflexivity. }
  assert (Hv : f_version (response_frame r) = 1).
  { unfold f_version, response_frame. frame_field. reflexivity. }
  assert (Hk : f_kind (response_frame r) = 2).
  { unfold f_kind, response_frame. frame_field. reflexivity. }
  assert (H44 : be_field (response_frame r) 44 4 = image_data_len r).
  { unfold response_frame. frame_field. reflexivity. }
  rewrite Hm, Hv, Hk, H44. cbv zeta.
  decide_bool ((16 <=? 16 + (16 + 16 + image_data_len r))
     && (1464161861 =? 1464161861) && (1 =? 1) && (2 =? 2)
     && (16 + 16 + image_data_len r <=? 10 * 1024 * 1024 - 16)
     && (16 + (16 + 16 + image_data_len r)
         <=? 16 + (16 + 16 + image_data_len r))
     && (16 + 16 + image_data_len r =? 16 + 16 + image_data_len r)) true.
  assert (H16 : be_field (response_frame r) 16 8 = resp_request_id r).
  { unfold response_frame. frame_field. reflexivity. }
  assert (H24 : be_field (response_frame r) 24 4 = resp_status r).
  { unfold response_frame. frame_field. reflexivity. }
  assert (H28 : be_field (response_frame r) 28 4 = generation_time_ms r).
  { unfold response_frame. frame_field. reflexivity. }
  assert (H32 : be_field (response_frame r) 32 4 = image_width r).
  { unfold response_frame. frame_field. reflexivity. }
  assert (H36 : be_field (response_frame r) 36 4 = image_height r).
  { unfold response_frame. frame_field. reflexivity. }
  assert (H40 : be_field (response_frame r) 40 4 = channels r).
  { unfold response_frame. frame_field. reflexivity. }
  rewrite H16, H24, H28, H32, H36, H40.
  assert (Himg : firstn (Z.to_nat (image_data_len r))
                   (skipn 48 (response_frame r)) = image).
  { unfold response_frame, be16, be32, be64. rewrite Hi.
    rewrite !app_assoc.
    rewrite skipn_app, skipn_all2
      by (rewrite !length_app, !length_be_bytes; cbn; lia).
    rewrite !length_app, !length_be_bytes. cbn [Nat.add Nat.sub skipn app].
    rewrite firstn_firstn, Nat.min_id. apply firstn_all2. lia. }
  rewrite Himg. destruct r; cbn in *. now rewrite Hi.
Qed.

(** ** The response encoder (C4), its round trip (C7) and the
       atomicity of both encoders (C10) *)

Lemma response_invalid_causes r :
  image_width r < 64 \/ 2048 < image_width r \/ image_width r mod 64 <> 0
  \/ image_height r < 64 \/ 2048 < image_height r
  \/ image_height r mod 64 <> 0
  \/ (channels r <> 3 /\ channels r <> 4)
  \/ UINT32_MAX < image_width r * image_height r * channels r
  \/ image_width r * image_height r * channels r <> image_data_len r ->
  response_valid r = false.
Proof.
  intros H. destruct (response_valid r) eqn:E; [exfalso|reflexivity].
  unfold response_valid, dimension_ok in E. unbool; lia.
Qed.

(** C4.  For a response [r] whose image data is present, encoded to a
    non-NULL buffer declared [buf_size] bytes long:
    - a width or height outside 64..2048 or not divisible by 64, a
      channel count other than 3 and 4, a product width x height x
      channels that overflows 32 bits or differs from the image byte
      length: INVALID_DIMENSIONS, whatever [buf_size] is;
    - otherwise a frame of more than 10 MiB is rejected, and so is a
      buffer too small for the frame: INTERNAL;
    - on success the stores fill the buffer from its start with the
      response frame of the specification, whose payload-length field
      is 16 + 16 + image byte length, and set [*out_len] to the frame
      length. *)
Theorem encode_generate_response_validation
    (request_id status time w h c len : Z) (image : list byte)
    (buffer buf_size : Z) :
  let r := mk_response request_id status time w h c len (Some image) in
  let run :=
    encode_generate_response (Some r) (Some buffer) buf_size (Some tt) in
  ((w < 64 \/ 2048 < w \/ w mod 64 <> 0
    \/ h < 64 \/ 2048 < h \/ h mod 64 <> 0
    \/ (c <> 3 /\ c <> 4)
    \/ UINT32_MAX < w * h * c
    \/ w * h * c <> len) ->
   fst run = ERR_INVALID_DIMENSIONS)
  /\ (response_valid r = true -> 10 * 1024 * 1024 < 16 + (16 + 16 + len) ->
      fst run = ERR_INTERNAL)
  /\ (response_valid r = true -> buf_size < 16 + (16 + 16 + len) ->
      fst run = ERR_INTERNAL)
  /\ (response_valid r = true -> 16 + (16 + 16 + len) <= 10 * 1024 * 1024 ->
      16 + (16 + 16 + len) <= buf_size ->
      fst run = ERR_NONE)
  /\ (fst run = ERR_NONE -> len <= Z.of_nat (length image) ->
      snd run
      = stores_at buffer (response_frame r)
        ++ [StoreOutLen (16 + (16 + 16 + len))]
      /\ f_kind (response_frame r) = MSG_GENERATE_RESPONSE
      /\ f_payload_len (response_frame r) = 16 + 16 + len).
Proof.
  cbv zeta.
  set (r := mk_response request_id status time w h c len (Some image)).
  pose proof (encode_generate_response_value r image buffer buf_size
                eq_refl) as Hv.
  rewrite Hv. unfold encode_response_verdict.
  change (image_data_len r) with len.
  split; [|split; [|split; [|split]]].
  - intros Hc. now rewrite (response_invalid_causes r Hc).
  - intros -> Hbig. cbn [negb].
    now decide_bool (16 + (16 + 16 + len) >? 10 * 1024 * 1024) true.
  - intros -> Hsmall. cbn [negb].
    destruct (16 + (16 + 16 + len) >? 10 * 1024 * 1024); [reflexivity|].
    now decide_bool (16 + (16 + 16 + len) >? buf_size) true.
  - intros -> Hfit Hbuf. cbn [negb].
    decide_bool (16 + (16 + 16 + len) >? 10 * 1024 * 1024) false.
    now decide_bool (16 + (16 + 16 + len) >? buf_size) false.
  - intros Hok Hlen.
    destruct (negb (response_valid r)) eqn:Er; [discriminate Hok|].
    destruct (16 + (16 + 16 + len) >? 10 * 1024 * 1024) eqn:Em;
      [discriminate Hok|].
    apply negb_false_iff in Er.
    pose proof (response_valid_facts r Er) as (_ & _ & _ & _ & Hrange).
    change (image_data_len r) with len in Hrange.
    split; [|split].
    + apply (encode_generate_response_stores r image buffer buf_size
               eq_refl Hlen).
      unfold encode_response_verdict. change (image_data_len r) with len.
      rewrite Er, Em. exact Hok.
    + unfold f_kind, response_frame. frame_field. reflexivity.
    + apply (response_frame_payload_len r).
      change (image_data_len r) with len. unbool. lia.
Qed.

(** The unit tests of the encoder: a mismatched data length fails with
    INVALID_DIMENSIONS even into a one-byte buffer; a 512x512 RGB image
    does not fit a 1024-byte buffer. *)
Example encode_mismatch_any_buffer :
  let r := mk_response 1 200 100 512 512 3 (512 * 512 * 3 + 100)
             (Some []) in
  encode_generate_response (Some r) (Some 0) 1 (Some tt)
  = (ERR_INVALID_DIMENSIONS, [])
  /\ encode_generate_response (Some r) (Some 0) (16 * 1024 * 1024) (Some tt)
     = (ERR_INVALID_DIMENSIONS, []).
Proof. vm_compute. split; reflexivity. Qed.

Example encode_buffer_too_small :
  let r := mk_response 1 200 100 512 512 3 (512 * 512 * 3) (Some []) in
  encode_generate_response (Some r) (Some 0) 1024 (Some tt)
  = (ERR_INTERNAL, []).
Proof. vm_compute. reflexivity. Qed.

(** A 2048x2048 RGB image is valid but its frame exceeds 10 MiB. *)
Example encode_frame_too_large :
  let r := mk_response 1 200 100 2048 2048 3 (2048 * 2048 * 3) (Some []) in
  response_valid r = true
  /\ encode_generate_response (Some r) (Some 0) (16 * 1024 * 1024) (Some tt)
     = (ERR_INTERNAL, []).
Proof. vm_compute. split; reflexivity. Qed.

(** C7.  For every valid response (well-formed fields, dimensions in
    64..2048 and divisible by 64, 3 or 4 channels, data length equal to
    width x height x channels, frame within 10 MiB), encoding into a
    buffer that holds the frame succeeds, and decoding the frame written
    gives the response back. *)
Theorem response_round_trip
    (r : sd35_generate_response_t) (buf : list byte) (buf_size : Z) :
  response_wf r ->
  response_valid r = true ->
  16 + (16 + 16 + image_data_len r) <= 10 * 1024 * 1024 ->
  16 + (16 + 16 + image_data_len r) <= buf_size ->
  buf_size <= Z.of_nat (length buf) ->
  let run := encode_generate_response (Some r) (Some 0) buf_size (Some tt) in
  let mem := apply_stores (buf, 0) (snd run) in
  fst run = ERR_NONE
  /\ snd mem = 16 + (16 + 16 + image_data_len r)
  /\ firstn (Z.to_nat (snd mem)) (fst mem) = response_frame r
  /\ decode_generate_response (firstn (Z.to_nat (snd mem)) (fst mem))
     = Some r.
Proof.
  intros Hwf Hvalid Hfit Hsize Hbuf. cbv zeta.
  pose proof Hwf as (_ & _ & _ & _ & _ & _ & Hl & image & Hi & Hlen).
  assert (Hv : encode_response_verdict r buf_size = ERR_NONE).
  { unfold encode_response_verdict. rewrite Hvalid. cbn [negb].
    decide_bool (16 + (16 + 16 + image_data_len r) >? 10 * 1024 * 1024)
      false.
    now decide_bool (16 + (16 + 16 + image_data_len r) >? buf_size) false. }
  rewrite (encode_generate_response_value r image 0 buf_size Hi), Hv.
  rewrite (encode_generate_response_stores r image 0 buf_size Hi) by
    (assumption || lia).
  pose proof (length_response_frame r image Hi Hlen) as Hfl.
  rewrite apply_stores_app.
  rewrite apply_stores_at_start by lia.
  cbn [apply_stores fold_left apply_store fst snd].
  assert (Hframe :
    firstn (Z.to_nat (16 + (16 + 16 + image_data_len r)))
      (poke 0 (response_frame r) buf) = response_frame r).
  { unfold poke. cbn [firstn app Nat.add].
    rewrite <- Hfl, Nat2Z.id. rewrite firstn_app, firstn_all, Nat.sub_diag.
    cbn [firstn]. apply app_nil_r. }
  rewrite Hframe. repeat split. now apply decode_response_frame.
Qed.

(** The theorem at [sample_response] and a buffer of 12336 bytes. *)
Lemma response_round_trip_witness :
  let run :=
    encode_generate_response (Some sample_response) (Some 0) 12336
      (Some tt) in
  let mem := apply_stores (repeat Byte.xff (Z.to_nat 12336), 0) (snd run) in
  decode_generate_response (firstn (Z.to_nat (snd mem)) (fst mem))
  = Some sample_response.
Proof.
  apply (response_round_trip sample_response
           (repeat Byte.xff (Z.to_nat 12336)) 12336).
  - unfold response_wf, sample_response; cbn [resp_request_id resp_status
      generation_time_ms image_width image_height channels image_data_len
      image_data].
    repeat split; try lia.
    exists (repeat Byte.x00 (Z.to_nat 12288)). split; [reflexivity|].
    rewrite repeat_length. apply Z2Nat.id. lia.
  - vm_compute. reflexivity.
  - unfold sample_response; cbn [image_data_len]. lia.
  - unfold sample_response; cbn [image_data_len]. lia.
  - rewrite repeat_length, Z2Nat.id; lia.
Defined.

(** C10.  Both encoders are atomic on failure: whenever one returns an
    error (NULL arguments included), it has issued no store at all, so
    no byte of the output buffer is written and [*out_len] keeps its
    value. *)
Theorem encoders_atomic_on_failure
    (resp : option sd35_generate_response_t)
    (eresp : option error_response_t) (buffer : option Z) (buf_size : Z)
    (out_len : option unit) (mem : list byte * Z) :
  (fst (encode_generate_response resp buffer buf_size out_len) <> ERR_NONE ->
   snd (encode_generate_response resp buffer buf_size out_len) = []
   /\ apply_stores mem
        (snd (encode_generate_response resp buffer buf_size out_len)) = mem)
  /\ (fst (encode_error_response eresp buffer buf_size out_len) <> ERR_NONE ->
      snd (encode_error_response eresp buffer buf_size out_len) = []
      /\ apply_stores mem
           (snd (encode_error_response eresp buffer buf_size out_len)) = mem).
Proof.
  split; intros Hne.
  - rewrite (encode_generate_response_failure _ _ _ _ Hne). now split.
  - rewrite (encode_error_response_failure _ _ _ _ Hne). now split.
Qed.

(** The theorem at a response that is invalid in a buffer that is too
    small, and at an error whose message pointer is NULL though its
    length is not zero. *)
Lemma encoders_atomic_on_failure_witness :
  let r := mk_response 1 200 100 512 512 3 7 (Some [Byte.x01]) in
  let e := mk_error_response 0 400 1 5 None in
  snd (encode_generate_response (Some r) (Some 0) 8 (Some tt)) = []
  /\ snd (encode_error_response (Some e) (Some 0) 4096 (Some tt)) = [].
Proof.
  cbv zeta. split.
  - apply (proj1 (encoders_atomic_on_failure
                    (Some (mk_response 1 200 100 512 512 3 7
                             (Some [Byte.x01])))
                    None (Some 0) 8 (Some tt) ([], 0))).
    vm_compute. discriminate.
  - apply (proj2 (encoders_atomic_on_failure None
                    (Some (mk_error_response 0 400 1 5 None))
                    (Some 0) 4096 (Some tt) ([], 0))).
    vm_compute. discriminate.
Defined.

(** ** The reset discipline of the generation pipeline (C9) *)

Import Engine Generate PipelineSpec.

Section PipelineFacts.
Context {C : Type} `{Engine C}.

Ltac shape :=
  cbn [calls called set_generation_performed get_time_ms rev app fst snd
       generation_performed clock];
  unfold call_shape;
  repeat split;
  try discriminate;
  try solve [ now left
            | right; left; split; [reflexivity|]; now left
            | right; left; split; [reflexivity|]; right; eexists; now left
            | right; left; split; [reflexivity|]; right; eexists; now right
            | right; right; split; [reflexivity|]; eexists; now left
            | right; right; split; [reflexivity|]; eexists; now right
            | intros _; eexists; reflexivity
            | intros; eexists; reflexivity ].

Lemma process_generate_request_calls mem ctx req resp flag clk :
  let '(err, _, _, st') :=
    process_generate_request mem ctx req resp (mk_pipeline flag clk []) in
  call_shape flag (rev (calls st'))
  /\ (err = ERR_NONE -> exists p, last (rev (calls st')) CallReset = CallGenerate p)
  /\ generation_performed st' = flag || is_ERR_NONE err.
Proof.
  unfold process_generate_request.
  destruct ctx as [c|]; [|shape; now rewrite orb_false_r].
  destruct req as [rq|]; [|shape; now rewrite orb_false_r].
  destruct resp as [rs|]; [|shape; now rewrite orb_false_r].
  destruct (convert_request_params mem (Some rq) (SD35_MAX_PROMPT_LENGTH + 1))
    as [err params] eqn:Ecv.
  destruct (is_ERR_NONE err) eqn:Eerr.
  2:{ shape; [intros ->; discriminate Eerr|]. rewrite Eerr.
  now rewrite orb_false_r. }
  destruct params as [params|].
  2:{ unfold convert_request_params in Ecv.
      repeat match type of Ecv with
      | context [match ?x with _ => _ end] => destruct x
      end; inversion Ecv; subst; discriminate Eerr. }
  destruct flag.
  - cbn [generation_performed].
    destruct (sd_wrapper_reset c) as [e c'].
    destruct (is_SD_WRAPPER_OK e); cbn [negb].
    2:{ shape. }
    cbn [get_time_ms clock generation_performed calls called].
    destruct (sd_wrapper_generate c' params) as [[sd_err image] c''].
    destruct sd_err; cbn [map_sd_error is_ERR_NONE negb]; try solve [shape].
    destruct (img_data image); [|shape].
    repeat match goal with
    | |- context [if ?b then _ else _] => destruct b
    end; shape.
  - cbn [generation_performed].
    cbn [get_time_ms clock generation_performed calls called is_SD_WRAPPER_OK negb].
    destruct (sd_wrapper_generate c params) as [[sd_err image] c''].
    destruct sd_err; cbn [map_sd_error is_ERR_NONE negb]; try solve [shape].
    destruct (img_data image); [|shape].
    repeat match goal with
    | |- context [if ?b then _ else _] => destruct b
    end; shape.
Qed.

Lemma process_generate_request_flag mem ctx req resp st :
  generation_performed (snd (process_generate_request mem ctx req resp st))
  = generation_performed st
    || is_ERR_NONE
         (fst (fst (fst (process_generate_request mem ctx req resp st)))).
Proof.
  unfold process_generate_request.
  destruct ctx as [c|]; [|cbn; now rewrite orb_false_r].
  destruct req as [rq|]; [|cbn; now rewrite orb_false_r].
  destruct resp as [rs|]; [|cbn; now rewrite orb_false_r].
  destruct (convert_request_params mem (Some rq) (SD35_MAX_PROMPT_LENGTH + 1))
    as [err params] eqn:Ecv.
  destruct (is_ERR_NONE err) eqn:Eerr.
  2:{ cbn. rewrite Eerr. now rewrite orb_false_r. }
  destruct params as [params|].
  2:{ unfold convert_request_params in Ecv.
      repeat match type of Ecv with
      | context [match ?x with _ => _ end] => destruct x
      end; inversion Ecv; subst; discriminate Eerr. }
  destruct st as [flag clk cs]. cbn [generation_performed].
  destruct flag.
  - destruct (sd_wrapper_reset c) as [e c'].
    destruct (is_SD_WRAPPER_OK e); cbn [negb]; [|reflexivity].
    cbn [get_time_ms clock generation_performed calls called].
    destruct (sd_wrapper_generate c' params) as [[sd_err image] c''].
    destruct sd_err; cbn [map_sd_error is_ERR_NONE negb]; try reflexivity.
    destruct (img_data image); [|reflexivity].
    repeat match goal with
    | |- context [if ?b then _ else _] => destruct b
    end; reflexivity.
  - cbn [get_time_ms clock generation_performed calls called
         is_SD_WRAPPER_OK negb].
    destruct (sd_wrapper_generate c params) as [[sd_err image] c''].
    destruct sd_err; cbn [map_sd_error is_ERR_NONE negb]; try reflexivity.
    destruct (img_data image); [|reflexivity].
    repeat match goal with
    | |- context [if ?b then _ else _] => destruct b
    end; reflexivity.
Qed.

Lemma serve_discipline ctx st inputs :
  reset_discipline (generation_performed st) (serve ctx st inputs).
Proof.
  revert ctx st; induction inputs as [|[mem req] rest IH]; intros ctx st.
  - exact I.
  - cbn [serve]. unfold serve_one.
    pose proof (process_generate_request_calls mem ctx req
                  (Some (mk_response 0 0 0 0 0 0 0 None))
                  (generation_performed st) (clock st)) as Hcall.
    destruct (process_generate_request mem ctx req
                (Some (mk_response 0 0 0 0 0 0 0 None))
                (mk_pipeline (generation_performed st) (clock st) []))
      as [[[err ctx'] resp'] st'].
    destruct Hcall as (Hshape & Hlast & Hflag).
    cbn [reset_discipline]. split; [exact Hshape|]. split; [exact Hlast|].
    rewrite <- Hflag.
    apply (IH ctx' (mk_pipeline (generation_performed st') (clock st')
                      (calls st' ++ calls st))).
Qed.

(** C9.  In a process that serves requests one after the other from its
    initial state, the engine's reset is invoked before generate exactly
    in those requests that come after a request that returned success:
    never in the first one, and not after failures only.  A request
    returns success only once generate has been called and none of the
    image checks has released the image; and one invocation leaves the
    generation-performed flag set exactly when it was set before or the
    invocation returned success. *)
Theorem reset_exactly_after_a_success
    (ctx : option C) (clk : list Z)
    (inputs : list (list byte * option sd35_generate_request_t))
    (mem : list byte) (req : option sd35_generate_request_t)
    (resp : option sd35_generate_response_t) (st : pipeline) :
  reset_discipline false (serve ctx (pipeline_init clk) inputs)
  /\ generation_performed
       (snd (process_generate_request mem ctx req resp st))
     = generation_performed st
       || is_ERR_NONE
            (fst (fst (fst (process_generate_request mem ctx req resp st)))).
Proof.
  split.
  - apply (serve_discipline ctx (pipeline_init clk) inputs).
  - apply process_generate_request_flag.
Qed.

End PipelineFacts.

(** The mock engine of the unit tests, failing on the first request
    and working afterwards: no reset before the second request, a reset
    before the third. *)
Example reset_after_first_success :
  let mem := build_valid_request 7 64 64 4 0x40900000 42 a_cat_in_space in
  let rq := Some (frame_request mem) in
  let failing := Some (mk_mock SD_WRAPPER_ERR_GPU_ERROR None 0) in
  let working := Some (mk_mock SD_WRAPPER_OK None 0) in
  let tag c :=
    match c with CallReset => 0 | CallGenerate _ => 1 | CallFreeImage => 2 end in
  let '(e1, c1, _, st1) := serve_one mem failing rq (pipeline_init []) in
  let '(e2, c2, _, st2) := serve_one mem working rq st1 in
  let '(e3, c3, _, st3) := serve_one mem working rq st2 in
  (e1, map tag c1, e2, map tag c2, e3, map tag c3)
  = (ERR_GPU_ERROR, [1], ERR_NONE, [1], ERR_NONE, [0; 1]).
Proof. vm_compute. reflexivity. Qed.

(** ** Connection timeouts (C8) *)

Import Socket SocketSpec.

Lemma fd_update_same k fd s : fd_update k fd s fd = s.
Proof. unfold fd_update. now rewrite Z.eqb_refl. Qed.

Lemma socket_set_timeouts_open fd r w k s :
  0 <= fd -> k fd = Some s ->
  fst (socket_set_timeouts fd r w k) = SOCKET_OK
  /\ snd (socket_set_timeouts fd r w k) fd
     = Some (mk_sock (peer_uid s)
               (if r >? 0 then r else so_rcvtimeo s)
               (if w >? 0 then w else so_sndtimeo s)).
Proof.
  intros Hfd Hk. unfold socket_set_timeouts, setsockopt.
  replace (fd <? 0) with false by (symmetry; apply Z.ltb_ge; lia).
  destruct (r >? 0), (w >? 0); rewrite ?Hk, ?fd_update_same; cbn;
    rewrite ?Hk, ?fd_update_same; cbn; try (split; reflexivity).
  all: now destruct s.
Qed.

Section AcceptLoopFacts.
Context {HS : Type}.


End AcceptLoopFacts.




(** An accept loop run: a connection from another user, an interrupted
    accept, a connection from the same user, then a termination
    signal.  The handler records the timeouts it finds. *)
Example accept_loop_run :
  let handler (fd : Z) (k : kernel) (h : list (Z * Z)) :=
    (0, k,
     match k fd with
     | Some s => h ++ [(so_rcvtimeo s, so_sndtimeo s)]
     | None => h
     end) in
  let srv := mk_server (fun _ => None) 1000 false [] [] in
  let run :=
    socket_accept_loop 4 (Some handler)
      [AcceptConn 5 (mk_sock (Some 1001) 0 0) false; AcceptEintr false;
       AcceptConn 5 (mk_sock (Some 1000) 0 0) false; AcceptEintr true] srv in
  fst run = Some SOCKET_OK
  /\ handler_state (snd run) = [(60, 5)]
  /\ events (snd run)
     = [EvAuth 5 SOCKET_ERR_AUTH_UID_MISMATCH; EvClose 5;
        EvAuth 5 SOCKET_OK; EvSetTimeouts 5 60 5 SOCKET_OK;
        EvHandler 5 (Some (mk_sock (Some 1000) 60 5)) 0; EvClose 5].
Proof. vm_compute. repeat split. Qed.

(** ** Bit flips in the header (C6) *)

Lemma flipped_octet_differs (o k : Z) :
  0 <= o < 256 -> 0 <= k < 8 ->
  byte.unsigned (byte.of_Z (Z.lxor o (2 ^ k))) <> o.
Proof.
  intros Ho Hk Heq. rewrite byte.unsigned_of_Z in Heq. unfold byte.wrap in Heq.
  apply (f_equal (fun z => Z.testbit z k)) in Heq.
  rewrite Z.mod_pow2_bits_low, Z.lxor_spec, Z.pow2_bits_true in Heq by lia.
  now destruct (Z.testbit o k).
Qed.

Lemma octet_poke_same i b d :
  (i < length d)%nat -> octet (poke i [b] d) i = byte.unsigned b.
Proof.
  intros Hi. unfold octet, poke.
  rewrite app_nth2 by (rewrite length_firstn; lia).
  rewrite length_firstn, Nat.min_l by lia. now rewrite Nat.sub_diag.
Qed.

Lemma octet_poke_other i j b d :
  (i < length d)%nat -> j <> i -> octet (poke i [b] d) j = octet d j.
Proof.
  intros Hi Hj. rewrite <- set_nth_poke by assumption. unfold octet. f_equal.
  revert j i Hi Hj. induction d as [|h t IH]; intros j i Hi Hj.
  - cbn in Hi. lia.
  - destruct i as [|i], j as [|j]; cbn [set_nth nth length] in *; try lia;
      try reflexivity.
    apply IH; lia.
Qed.

Lemma length_flip_bit d i k :
  (i < length d)%nat -> length (flip_bit d i k) = length d.
Proof. intros Hi. unfold flip_bit. apply length_poke. cbn. lia. Qed.

Lemma valid_frame_header n d :
  first_violation (gates n d) = ERR_NONE ->
  16 <= n /\ f_magic d = 0x57455645 /\ f_version d = 1 /\ f_kind d = 1.
Proof.
  intros Hv. apply first_violation_none in Hv; [|apply gates_kinds].
  unfold all_met, gates, gates_before_prompt in Hv.
  cbn [app forallb fst] in Hv. unbool. repeat split; lia.
Qed.

Ltac octets d' d i Hi :=
  repeat match goal with
  | |- context [octet d' ?j] =>
      first [ rewrite (octet_poke_other i j _ d Hi) by lia
            | progress (replace j with i by lia) ]
  end.

(** The claim as stated fails on the message-kind field: flipping a bit
    of it in the valid scenario request yields INTERNAL, which is not
    one of the INVALID kinds. *)
Lemma flipped_kind_is_internal :
  fst (fst (decode_generate_request (Some scenario_request) 118
              (Some Main.req_uninit))) = ERR_NONE
  /\ fst (fst (decode_generate_request (Some (flip_bit scenario_request 7 1))
                 118 (Some Main.req_uninit))) = ERR_INTERNAL
  /\ is_INVALID_kind ERR_INTERNAL = false.
Proof. vm_compute. repeat split. Qed.

(** C6, amended.  For every request frame that decodes successfully,
    flipping any single bit of its magic, version or message-kind field
    makes the decoder return the error kind of that field's gate:
    INVALID_MAGIC for the magic (bytes 0..3), UNSUPPORTED_VERSION for
    the version (bytes 4..5), INTERNAL for the message kind (bytes
    6..7); never success. *)
Theorem header_bit_flip_rejected
    (data : list byte) (req : sd35_generate_request_t) (i : nat) (k : Z) :
  fst (fst (decode_generate_request (Some data) (Z.of_nat (length data))
              (Some req))) = ERR_NONE ->
  (i < 8)%nat -> 0 <= k < 8 ->
  fst (fst (decode_generate_request (Some (flip_bit data i k))
              (Z.of_nat (length (flip_bit data i k))) (Some req)))
  = if (i <? 4)%nat then ERR_INVALID_MAGIC
    else if (i <? 6)%nat then ERR_UNSUPPORTED_VERSION
    else ERR_INTERNAL.
Proof.
  intros Hok Hi Hk. rewrite decode_value in Hok |- *.
  apply valid_frame_header in Hok. destruct Hok as (Hn & Hm & Hv & Hkind).
  assert (Hlen : (i < length data)%nat) by lia.
  rewrite (length_flip_bit data i k Hlen).
  pose proof (flipped_octet_differs (octet data i) k
                (octet_bounds data i) Hk) as Hflip.
  rewrite <- (octet_poke_same i _ data Hlen) in Hflip.
  fold (flip_bit data i k) in Hflip.
  set (d' := flip_bit data i k) in *.
  assert (Hother : forall j, j <> i -> octet d' j = octet data j).
  { intros j Hj. apply octet_poke_other; assumption. }
  unfold gates, gates_before_prompt. cbn [app first_violation].
  decide_bool (16 <=? Z.of_nat (length data)) true.
  unfold f_magic, f_version, f_kind, be_field in *. cbn [be_number] in *.
  pose proof (octet_bounds d' i) as Hb'. pose proof (octet_bounds data i) as Hb.
  assert (Hcases : (i = 0 \/ i = 1 \/ i = 2 \/ i = 3 \/ i = 4 \/ i = 5
                    \/ i = 6 \/ i = 7)%nat) by lia.
  clear Hi Hlen.
  repeat (destruct Hcases as [Hc|Hcases]; [subst i|]); try subst i.
  all: cbn [Nat.ltb Nat.leb].
  all: rewrite ?(Hother 0%nat), ?(Hother 1%nat), ?(Hother 2%nat),
         ?(Hother 3%nat), ?(Hother 4%nat), ?(Hother 5%nat),
         ?(Hother 6%nat), ?(Hother 7%nat) by lia.
  all: repeat match goal with
       | |- context [if ?c then _ else _] =>
           first [ decide_bool c true | decide_bool c false ]
       end; reflexivity.
Qed.

(** The theorem at the lowest bit of the first byte of the scenario
    request. *)
Lemma header_bit_flip_rejected_witness :
  fst (fst (decode_generate_request (Some (flip_bit scenario_request 0 0))
              (Z.of_nat (length (flip_bit scenario_request 0 0)))
              (Some Main.req_uninit)))
  = ERR_INVALID_MAGIC.
Proof.
  apply (header_bit_flip_rejected scenario_request Main.req_uninit 0 0).
  - vm_compute. reflexivity.
  - lia.
  - lia.
Defined.
(** ** The connection handler *)

Import Protocol Engine Generate Main WireSpec HandlerSpec IoSpec.

Lemma header_word_value header (i : nat) :
  Z.lor (Z.lor (Z.lor (shl32 (header_byte header i) 24)
                      (shl32 (header_byte header (S i)) 16))
               (shl32 (header_byte header (S (S i))) 8))
        (header_byte header (S (S (S i))))
  = be_field header i 4.
Proof.
  pose proof (read_u32_be_value header (Z.of_nat i) ltac:(lia)) as Hv.
  rewrite Nat2Z.id in Hv. rewrite <- Hv.
  unfold read_u32_be, load, header_byte. cbn [tr_bind tr_ret fst snd].
  replace (Z.to_nat (Z.of_nat i)) with i by lia.
  replace (Z.to_nat (Z.of_nat i + 1)) with (S i) by lia.
  replace (Z.to_nat (Z.of_nat i + 2)) with (S (S i)) by lia.
  replace (Z.to_nat (Z.of_nat i + 3)) with (S (S (S i))) by lia.
  reflexivity.
Qed.

Lemma firstn_firstn_skipn {A} (a b : nat) (l : list A) :
  firstn a l ++ firstn b (skipn a l) = firstn (a + b) l.
Proof.
  revert l; induction a as [|a IH]; intros l; cbn [firstn skipn Nat.add app].
  - reflexivity.
  - destruct l as [|x l]; cbn [firstn skipn app].
    + now rewrite firstn_nil.
    + now rewrite IH.
Qed.

(** What [write_full] delivers is a prefix of what remained to write,
    and all of it when it reports success. *)
Lemma write_full_delivers wr sent buf total count :
  0 <= total <= count ->
  exists t',
    total <= t' <= count
    /\ snd (write_full wr sent buf total count)
       = sent ++ firstn (Z.to_nat (t' - total)) (skipn (Z.to_nat total) buf)
    /\ (fst (fst (write_full wr sent buf total count)) = 0 -> t' = count)
    /\ (fst (fst (write_full wr sent buf total count)) = 0
        \/ fst (fst (write_full wr sent buf total count)) = -1).
Proof.
  revert sent total; induction wr as [|ev wr IH]; intros sent total Ht;
    cbn [write_full].
  - destruct (total <? count) eqn:E; cbn [negb fst snd].
    + exists total. rewrite Z.sub_diag. cbn [Z.to_nat firstn].
      rewrite app_nil_r. repeat split; lia.
    + exists total. rewrite Z.sub_diag. cbn [Z.to_nat firstn].
      rewrite app_nil_r. apply Z.ltb_ge in E. repeat split; lia.
  - destruct (total <? count) eqn:E; cbn [negb fst snd].
    2:{ exists total. rewrite Z.sub_diag. cbn [Z.to_nat firstn].
        rewrite app_nil_r. apply Z.ltb_ge in E. repeat split; lia. }
    apply Z.ltb_lt in E.
    destruct ev as [| |n].
    + apply IH; lia.
    + exists total. rewrite Z.sub_diag. cbn [Z.to_nat firstn fst snd].
      rewrite app_nil_r. repeat split; lia.
    + set (k := Nat.min n (Z.to_nat (count - total))).
      destruct (IH (sent ++ firstn k (skipn (Z.to_nat total) buf))
                  (total + Z.of_nat k) ltac:(lia))
        as (t' & Ht' & Hs & Hok & Hr).
      exists t'. split; [lia|]. split; [|split; assumption].
      rewrite Hs, <- app_assoc. f_equal.
      replace (Z.to_nat (total + Z.of_nat k)) with (k + Z.to_nat total)%nat
        by lia.
      rewrite <- skipn_skipn, firstn_firstn_skipn. f_equal. lia.
Qed.


(** [read_full] against what arrives: it appends the bytes that were
    still missing as far as they arrive, and reports success exactly
    when they all arrive. *)
Lemma read_full_arriving rd buf total count :
  0 <= total <= count ->
  snd (fst (read_full rd buf total count))
  = buf ++ firstn (Z.to_nat (count - total)) (arriving rd)
  /\ fst (fst (read_full rd buf total count))
     = if (Z.to_nat (count - total) <=? length (arriving rd))%nat
       then 0 else -1.
Proof.
  revert buf total; induction rd as [|ev rd IH]; intros buf total Ht;
    cbn [read_full arriving].
  - destruct (Z.ltb_spec total count); cbn [negb fst snd];
      rewrite firstn_nil, app_nil_r; (split; [reflexivity|]); cbn [length].
    + destruct (Nat.leb_spec (Z.to_nat (count - total)) 0);
        [lia|reflexivity].
    + destruct (Nat.leb_spec (Z.to_nat (count - total)) 0);
        [reflexivity|lia].
  - destruct (Z.ltb_spec total count) as [Hlt|Hge]; cbn [negb].
    2:{ cbn [fst snd].
        replace (Z.to_nat (count - total)) with 0%nat by lia.
        cbn [firstn Nat.leb]. now rewrite app_nil_r. }
    destruct ev as [| |bs].
    + apply IH; lia.
    + cbn [fst snd length]. rewrite firstn_nil, app_nil_r.
      split; [reflexivity|].
      destruct (Nat.leb_spec (Z.to_nat (count - total)) 0);
        [lia|reflexivity].
    + destruct bs as [|b bs].
      { cbn [length Nat.eqb fst snd]. rewrite firstn_nil, app_nil_r.
        split; [reflexivity|].
        destruct (Nat.leb_spec (Z.to_nat (count - total)) 0);
          [lia|reflexivity]. }
      set (cs := b :: bs).
      assert (Hcs : (length cs =? 0)%nat = false) by reflexivity.
      rewrite Hcs. clearbody cs.
      destruct (Nat.leb_spec (length cs) (Z.to_nat (count - total)))
        as [Hle|Hgt].
      * destruct (IH (buf ++ cs) (total + Z.of_nat (length cs)) ltac:(lia))
          as (Hb & Hr).
        rewrite Hb, Hr, firstn_app, length_app, <- app_assoc.
        rewrite (firstn_all2 cs) by lia.
        replace (Z.to_nat (count - (total + Z.of_nat (length cs))))
          with (Z.to_nat (count - total) - length cs)%nat by lia.
        split; [reflexivity|].
        destruct (Nat.leb_spec (Z.to_nat (count - total) - length cs)
                    (length (arriving rd)));
          destruct (Nat.leb_spec (Z.to_nat (count - total))
                      (length cs + length (arriving rd))); lia.
      * cbn [fst snd]. rewrite firstn_app, length_app.
        replace (Z.to_nat (count - total) - length cs)%nat with 0%nat by lia.
        cbn [firstn]. rewrite app_nil_r. split; [reflexivity|].
        destruct (Nat.leb_spec (Z.to_nat (count - total))
                    (length cs + length (arriving rd))); [reflexivity|lia].
Qed.

Lemma length_error_frame r :
  error_msg_len r
  <= Z.of_nat (length (match error_msg r with Some m => m | None => [] end)) ->
  0 <= error_msg_len r ->
  Z.of_nat (length (error_frame r)) = 16 + (8 + 4 + 4 + 2 + error_msg_len r).
Proof.
  intros Hm H0. unfold error_frame, be16, be32, be64.
  rewrite !length_app, !length_be_bytes, length_firstn. lia.
Qed.

Lemma firstn_poke_start n bs d :
  (n <= length bs)%nat -> firstn n (poke 0 bs d) = firstn n bs.
Proof.
  intros Hn. unfold poke. cbn [firstn app].
  rewrite firstn_app. replace (n - length bs)%nat with 0%nat by lia.
  cbn [firstn]. now rewrite app_nil_r.
Qed.

Section HandlerFacts.
Context {C : Type} `{Engine C}.

(** [send_error_response] touches the world only through the bytes it
    writes to the peer: a prefix of the error frame, and the whole frame
    when it reports success. *)
Lemma send_error_response_wire fd rid e msg (w : world C) :
  (length msg <= 4062)%nat ->
  let r := error_response_for rid e msg in
  let out := send_error_response fd rid e msg w in
  exists n,
    sent (snd out) = sent w ++ firstn n (error_frame r)
    /\ (fst out = 0 -> sent (snd out) = sent w ++ error_frame r)
    /\ rd (snd out) = rd w /\ heap (snd out) = heap w
    /\ g_sd_ctx (snd out) = g_sd_ctx w
    /\ pipeline_state (snd out) = pipeline_state w.
Proof.
  intros Hlen r out. subst out. unfold send_error_response. fold r.
  assert (Hl : error_msg_len r = Z.of_nat (length msg)).
  { unfold r, error_response_for. cbn [error_msg_len].
    apply wrap16_small. lia. }
  assert (Hr : 0 <= error_msg_len r < 2 ^ 16) by lia.
  assert (Hm : error_msg_len r
    <= Z.of_nat (length (match error_msg r with Some m => m | None => [] end)))
    by (rewrite Hl; unfold r, error_response_for; cbn [error_msg]; lia).
  assert (Hv : encode_error_verdict r 4096 = ERR_NONE).
  { unfold encode_error_verdict.
    replace (error_msg r) with (Some msg) by reflexivity. cbn [andb].
    destruct (16 + (8 + 4 + 4 + 2 + error_msg_len r) >? 4096) eqn:E;
      [|reflexivity]. apply Z.gtb_lt in E. lia. }
  pose proof (encode_error_response_value r 0 4096 Hr) as Hval.
  pose proof (encode_error_response_stores r 0 4096 Hr Hm Hv) as Hst.
  rewrite Hv in Hval.
  destruct (encode_error_response (Some r) (Some 0) 4096 (Some tt))
    as [encode_err stores]. cbn [fst snd] in Hval, Hst. subst encode_err stores.
  cbn [is_ERR_NONE negb].
  pose proof (length_error_frame r Hm ltac:(lia)) as Hfl.
  rewrite apply_stores_app, apply_stores_at_start
    by (rewrite repeat_length; lia).
  cbn [apply_stores fold_left apply_store].
  set (buf := poke 0 (error_frame r) (repeat Byte.x00 4096)).
  set (len := 16 + (8 + 4 + 4 + 2 + error_msg_len r)).
  change (fst (buf, 0)) with buf.
  destruct (write_full_delivers (wr w) (sent w) buf 0 len ltac:(lia))
    as (t' & Ht & Hs & Hok & _).
  destruct (write_full (wr w) (sent w) buf 0 len) as [[st wr'] sent'].
  cbn [fst snd] in Hs, Hok.
  exists (Z.to_nat t').
  assert (Hpre : sent' = sent w ++ firstn (Z.to_nat t') (error_frame r)).
  { rewrite Hs, Z.sub_0_r. cbn [Z.to_nat skipn]. f_equal.
    apply firstn_poke_start. lia. }
  destruct (st =? 0) eqn:E; cbn [negb fst snd with_wr sent rd heap g_sd_ctx
                                  pipeline_state].
  - apply Z.eqb_eq in E. split; [exact Hpre|]. split; [|repeat split].
    intros _. rewrite Hpre, (Hok E). f_equal. apply firstn_all2. lia.
  - split; [exact Hpre|]. split; [|repeat split]. intros; discriminate.
Qed.




End HandlerFacts.

Section HandlerStages.
Context {C : Type} `{Engine C}.

(** [handle_connection], stage by stage. *)
Lemma handle_connection_stages fd (w : world C) :
  handle_connection fd w =
  if negb (header_status w =? 0) then (-1, after_header w) else
  if negb (claimed_magic w =? PROTOCOL_MAGIC) then
    (0, snd (send_error_response fd 0 ERR_INVALID_MAGIC msg_invalid_magic
               (after_header w))) else
  if claimed_payload_len w >? MAX_REQUEST_SIZE - 16 then
    (0, snd (send_error_response fd 0 ERR_INTERNAL msg_payload_too_large
               (after_header w))) else
  if negb (buffer_obtained w) then (-1, snd (alloc (after_header w))) else
  if negb (payload_status w =? 0) then (-1, after_payload w) else
  if negb (is_ERR_NONE (fst (decoded w))) then
    (0, snd (send_error_response fd 0 (fst (decoded w)) msg_invalid_request
               (after_payload w))) else
  if negb (is_ERR_NONE (generate_status w)) then
    (0, snd (send_error_response fd (echoed_request_id w) (generate_status w)
               msg_generation_failed (after_generate w))) else
  if negb (response_buffer_obtained w) then (-1, before_reply w) else
  if negb (is_ERR_NONE (fst (encoded w))) then (-1, before_reply w) else
  (if negb (reply_status w =? 0) then -1 else 0,
   after_reply w).
Proof.
  unfold handle_connection, after_reply, reply_status, reply_written, before_reply,
    response_memory, encoded, response_buffer_obtained, response_buf_size,
    echoed_request_id, after_generate, response, generate_status, generated,
    decoded, after_payload, received, payload_status, payload_read,
    buffer_obtained, claimed_payload_len, claimed_magic, after_header,
    header_bytes, header_status, header_read.
  destruct (read_full (rd w) [] 0 16) as [[r header] rd'].
  cbn [fst snd]. rewrite !header_word_value.
  destruct (negb (r =? 0)); [reflexivity|].
  destruct (negb (be_field header 0 4 =? PROTOCOL_MAGIC)).
  { now destruct send_error_response. }
  destruct (be_field header 8 4 >? MAX_REQUEST_SIZE - 16).
  { now destruct send_error_response. }
  set (w1 := with_rd rd' w).
  destruct (alloc w1) as [allocated w2]. cbn [fst snd].
  destruct (negb allocated); [reflexivity|].
  destruct (if be_field header 8 4 >? 0
            then read_full (rd w2) header 0 (be_field header 8 4)
            else (0, header, rd w2)) as [[r2 buffer] rd2].
  cbn [fst snd].
  destruct (negb (r2 =? 0)); [reflexivity|].
  destruct (decode_generate_request (Some buffer)
              (wrap32 (16 + be_field header 8 4)) (Some req_uninit))
    as [[err req] log].
  cbn [fst snd].
  destruct (negb (is_ERR_NONE err)).
  { now destruct send_error_response. }
  set (w3 := with_rd rd2 w2).
  destruct (process_generate_request buffer (g_sd_ctx w3) req
              (Some resp_zeroed) (pipeline_state w3))
    as [[[err2 ctx] resp] st].
  cbn [fst snd].
  destruct (negb (is_ERR_NONE err2)).
  { now destruct send_error_response. }
  set (w4 := with_engine ctx st w3).
  destruct (alloc w4) as [allocated2 w5]. cbn [fst snd].
  destruct (free_generate_response resp (pipeline_state w5)) as [u st5].
  cbn [fst snd].
  destruct (negb allocated2); [reflexivity|].
  set (size := wrap32 (16 + 16 + 16 + match resp with
                                      | Some rs => image_data_len rs
                                      | None => 0
                                      end)).
  destruct (encode_generate_response resp (Some 0) size (Some tt))
    as [err3 stores].
  cbn [fst snd].
  destruct (apply_stores _ stores) as [buffer' response_len].
  cbn [fst snd].
  destruct (negb (is_ERR_NONE err3)); [reflexivity|].
  destruct (write_full _ _ buffer' 0 response_len) as [[r4 wr4] sent4].
  cbn [fst snd].
  now destruct (negb (r4 =? 0)).
Qed.

End HandlerStages.

(** ** Loop control and error statuses in the handler *)


Lemma is_ERR_NONE_false e : e <> ERR_NONE -> is_ERR_NONE e = false.
Proof. destruct e; try reflexivity. intros Hne. now elim Hne. Qed.

Lemma error_frame_status r :
  0 <= err_status r < 2 ^ 32 ->
  be_field (error_frame r) 24 4 = err_status r.
Proof.
  intros Hs. unfold error_frame. frame_field. reflexivity.
Qed.

Lemma error_frame_kind r :
  0 <= error_code r < 2 ^ 32 ->
  be_field (error_frame r) 28 4 = error_code r.
Proof.
  intros Hs. unfold error_frame. frame_field. reflexivity.
Qed.

Lemma error_response_status rid e msg :
  err_status (error_response_for rid e msg)
  = match status_table e with Some s => s | None => 400 end.
Proof. now destruct e. Qed.

Section HandlerClaims.
Context {C : Type} `{Engine C}.

Lemma error_frame_is_sent fd rid e msg (w : world C) :
  (length msg <= 4062)%nat ->
  error_frame_sent fd rid e msg w (snd (send_error_response fd rid e msg w)).
Proof.
  intros Hlen.
  destruct (send_error_response_wire fd rid e msg w Hlen)
    as (n & Hs & Hok & _).
  split; [reflexivity|]. split; [now exists n|exact Hok].
Qed.

(** C5: the status of an error frame is looked up from the error kind:
    the seven kinds that blame the request give 400, the four that blame
    the server give 500, and no other status is produced.  That status is
    the big-endian number in bytes 24..27 of the frame
    [send_error_response] writes to the peer. *)
Theorem error_status_by_table (rid : Z) (e : error_code_t) (msg : list byte) :
  let r := error_response_for rid e msg in
  (forall s, status_table e = Some s -> err_status r = s)
  /\ (err_status r = STATUS_BAD_REQUEST
      \/ err_status r = STATUS_INTERNAL_SERVER_ERROR)
  /\ (err_status r = STATUS_INTERNAL_SERVER_ERROR <->
      In e [ERR_OUT_OF_MEMORY; ERR_GPU_ERROR; ERR_TIMEOUT; ERR_INTERNAL])
  /\ be_field (error_frame r) 24 4 = err_status r
  /\ forall fd (w : world C),
       (length msg <= 4062)%nat ->
       error_frame_sent fd rid e msg w
         (snd (send_error_response fd rid e msg w)).
Proof.
  intros r. subst r.
  split; [|split; [|split; [|split]]].
  - intros s Hs. rewrite error_response_status, Hs. reflexivity.
  - rewrite error_response_status. destruct e; cbn; auto.
  - rewrite error_response_status. cbn [In].
    destruct e; cbn [status_table]; split; intros Hx;
      try discriminate Hx; try reflexivity; auto;
      repeat (destruct Hx as [Hx|Hx]; try discriminate Hx);
      try contradiction.
  - apply error_frame_status. rewrite error_response_status.
    destruct e; cbn; lia.
  - intros fd w Hlen. now apply error_frame_is_sent.
Qed.


End HandlerClaims.

(** The end-to-end scenarios, run against the test double. *)

Example handler_header_cut_short :
  scenario_run (mk_mock SD_WRAPPER_OK None 0)
    [RdData (firstn 10 scenario_request)] [WrAccept 4096]
  = (-1, []).
Proof. vm_compute. reflexivity. Qed.

Example handler_invalid_magic :
  scenario_run (mk_mock SD_WRAPPER_OK None 0)
    [RdData (map byte.of_Z [0xDE; 0xAD; 0xBE; 0xEF; 9; 9; 9; 9; 9; 9; 9; 9;
                            9; 9; 9; 9])]
    [WrAccept 4096]
  = (0, error_frame
          (mk_error_response 0 400 (error_code_value ERR_INVALID_MAGIC) 20
             (Some msg_invalid_magic))).
Proof. vm_compute. reflexivity. Qed.

Example handler_payload_too_large :
  scenario_run (mk_mock SD_WRAPPER_OK None 0)
    [RdData (poke 8 (be32 (MAX_REQUEST_SIZE - 15)) scenario_request)]
    [WrAccept 4096]
  = (0, error_frame
          (mk_error_response 0 500 (error_code_value ERR_INTERNAL) 17
             (Some msg_payload_too_large))).
Proof. vm_compute. reflexivity. Qed.

Example handler_unaligned_dimension :
  scenario_run (mk_mock SD_WRAPPER_OK None 0)
    [RdData (build_valid_request 12345 513 512 4 0x40900000 42 a_cat_in_space)]
    [WrAccept 4096]
  = (0, error_frame
          (mk_error_response 0 400 (error_code_value ERR_INVALID_DIMENSIONS) 15
             (Some msg_invalid_request))).
Proof. vm_compute. reflexivity. Qed.

Example handler_nan_cfg :
  scenario_run (mk_mock SD_WRAPPER_OK None 0)
    [RdData (build_valid_request 12345 512 512 4 0x7FC00000 42 a_cat_in_space)]
    [WrAccept 4096]
  = (0, error_frame
          (mk_error_response 0 400 (error_code_value ERR_INVALID_CFG) 15
             (Some msg_invalid_request))).
Proof. vm_compute. reflexivity. Qed.

Example handler_engine_error :
  scenario_run (mk_mock SD_WRAPPER_ERR_GPU_ERROR None 0)
    [RdData scenario_request] [WrAccept 4096]
  = (0, error_frame
          (mk_error_response 12345 500 (error_code_value ERR_GPU_ERROR) 17
             (Some msg_generation_failed))).
Proof. vm_compute. reflexivity. Qed.

Example handler_payload_cut_short :
  scenario_run (mk_mock SD_WRAPPER_OK None 0)
    [RdData (firstn 100 scenario_request)] [WrAccept 4096]
  = (-1, []).
Proof. vm_compute. reflexivity. Qed.

Example handler_serves_request :
  let request :=
    build_valid_request 12345 64 64 4 0x40900000 42 a_cat_in_space in
  fst (scenario_run (mk_mock SD_WRAPPER_OK None 0)
         [RdData (firstn 16 request); RdEintr; RdData (skipn 16 request)]
         [WrAccept 1000; WrEintr; WrAccept (Z.to_nat 20000)])
  = 0.
Proof. reflexivity. Qed.

Example handler_response_write_fails :
  let request :=
    build_valid_request 12345 64 64 4 0x40900000 42 a_cat_in_space in
  fst (scenario_run (mk_mock SD_WRAPPER_OK None 0)
         [RdData request] [WrAccept 1000; WrFail])
  = -1.
Proof. reflexivity. Qed.

Example request_loop_survives_garbage :
  let garbage := map byte.of_Z [0xDE; 0xAD; 0xBE; 0xEF; 9; 9; 9; 9; 9; 9; 9;
                                9; 9; 9; 9; 9] in
  let '(served, w) :=
    request_loop (fun _ => false) 0 5
      (scenario_world (mk_mock SD_WRAPPER_ERR_GPU_ERROR None 0)
         [RdData garbage; RdData (firstn 60 scenario_request);
          RdData (skipn 60 scenario_request);
          RdData (firstn 10 scenario_request)]
         [WrAccept 4096; WrAccept 4096]) in
  (served, sent w)
  = (3%nat,
     error_frame
       (mk_error_response 0 400 (error_code_value ERR_INVALID_MAGIC) 20
          (Some msg_invalid_magic))
     ++ error_frame
          (mk_error_response 12345 500 (error_code_value ERR_GPU_ERROR) 17
             (Some msg_generation_failed))).
Proof. vm_compute. reflexivity. Qed.
(** * Further properties of the code

    ** The wire codec *)

Import Protocol WireSpec.

Lemma be_field_poke (p n : nat) (v : Z) (buf : list byte) :
  (p + n <= length buf)%nat ->
  be_field (poke p (be_bytes n v) buf) p n = v mod 2 ^ (8 * Z.of_nat n).
Proof.
  intros Hp. unfold poke.
  rewrite be_field_app_skip by (rewrite length_firstn; lia).
  rewrite length_firstn, Nat.min_l, Nat.sub_diag by lia.
  unfold be_field. rewrite be_number_be_bytes. lia.
Qed.

(** X1.  A number stored big-endian by [write_u16_be], [write_u32_be] or
    [write_u64_be] is read back by the reader of the same width,
    reduced to that width, and the store leaves the length of the
    buffer as it was. *)
Theorem write_then_read_be (buf : list byte) (o : Z) (p : nat) (v : Z) :
  let mem16 := fst (apply_stores (buf, o) (snd (write_u16_be (Z.of_nat p) v))) in
  let mem32 := fst (apply_stores (buf, o) (snd (write_u32_be (Z.of_nat p) v))) in
  let mem64 := fst (apply_stores (buf, o) (snd (write_u64_be (Z.of_nat p) v))) in
  ((p + 2 <= length buf)%nat ->
     fst (read_u16_be mem16 (Z.of_nat p)) = wrap16 v
     /\ length mem16 = length buf)
  /\ ((p + 4 <= length buf)%nat ->
     fst (read_u32_be mem32 (Z.of_nat p)) = wrap32 v
     /\ length mem32 = length buf)
  /\ ((p + 8 <= length buf)%nat ->
     fst (read_u64_be mem64 (Z.of_nat p)) = wrap64 v
     /\ length mem64 = length buf).
Proof.
  cbv zeta. rewrite write_u16_be_stores, write_u32_be_stores,
    write_u64_be_stores. cbn [snd].
  unfold be16, be32, be64.
  split; [|split]; intros Hp.
  - rewrite apply_stores_at by (rewrite length_be_bytes; lia). cbn [fst].
    rewrite read_u16_be_value, Nat2Z.id by lia.
    rewrite be_field_poke by lia. split; [reflexivity|].
    rewrite length_poke; rewrite ?length_be_bytes; lia.
  - rewrite apply_stores_at by (rewrite length_be_bytes; lia). cbn [fst].
    rewrite read_u32_be_value, Nat2Z.id by lia.
    rewrite be_field_poke by lia. split; [reflexivity|].
    rewrite length_poke; rewrite ?length_be_bytes; lia.
  - rewrite apply_stores_at by (rewrite length_be_bytes; lia). cbn [fst].
    rewrite read_u64_be_value, Nat2Z.id by lia.
    rewrite be_field_poke by lia. split; [reflexivity|].
    rewrite length_poke; rewrite ?length_be_bytes; lia.
Qed.

Lemma write_then_read_be_witness :
  fst (read_u32_be
         (fst (apply_stores (repeat Byte.x00 8, 0)
                 (snd (write_u32_be 2 0x57455645)))) 2)
  = 0x57455645.
Proof.
  exact (proj1 (proj1 (proj2 (write_then_read_be (repeat Byte.x00 8) 0 2
                                0x57455645))
                  ltac:(cbn; lia))).
Defined.

Lemma octet_app_keep d extra i :
  (i < length d)%nat -> octet (d ++ extra) i = octet d i.
Proof. intros Hi. unfold octet. now rewrite app_nth1. Qed.

Lemma be_number_app_keep d extra off n acc :
  (off + n <= length d)%nat ->
  be_number (d ++ extra) off n acc = be_number d off n acc.
Proof.
  revert off acc; induction n as [|n IH]; intros off acc Hn; cbn [be_number].
  - reflexivity.
  - rewrite IH by lia. now rewrite octet_app_keep by lia.
Qed.

Lemma be_field_app_keep d extra off n :
  (off + n <= length d)%nat ->
  be_field (d ++ extra) off n = be_field d off n.
Proof. apply be_number_app_keep. Qed.

(** X2.  The fields of a frame the decoder has accepted: the structure it
    fills in holds the big-endian numbers at the offsets of the wire
    format, the prompt region starts at byte 76 and has the payload
    length less the 60 bytes of fixed fields. *)
Theorem decode_generate_request_fields
    (data : list byte) (n : Z) (req rq : sd35_generate_request_t) :
  fst (decode_generate_request (Some data) n (Some req)) = (ERR_NONE, Some rq) ->
  request_id rq = be_field data 16 8
  /\ model_id rq = 0
  /\ width rq = be_field data 28 4
  /\ height rq = be_field data 32 4
  /\ steps rq = be_field data 36 4
  /\ cfg_scale rq = float_of_bits (be_field data 40 4)
  /\ seed rq = be_field data 44 8
  /\ (clip_l_offset rq, clip_l_length rq)
     = (be_field data 52 4, be_field data 56 4)
  /\ (clip_g_offset rq, clip_g_length rq)
     = (be_field data 60 4, be_field data 64 4)
  /\ (t5_offset rq, t5_length rq) = (be_field data 68 4, be_field data 72 4)
  /\ prompt_data rq = Some 76
  /\ prompt_data_len rq = be_field data 8 4 - 60
  /\ 76 + prompt_data_len rq <= n.
Proof.
  intros Hd.
  assert (Hok : fst (fst (decode_generate_request (Some data) n (Some req)))
                = ERR_NONE) by now rewrite Hd.
  pose proof (decode_success_request data n req Hok) as Hrq.
  rewrite Hd in Hrq. cbn [snd] in Hrq. injection Hrq as ->.
  rewrite decode_value in Hok.
  unfold gates, gates_before_prompt in Hok. cbn [app first_violation] in Hok.
  repeat match type of Hok with
  | context [if ?c then _ else _] =>
      let E := fresh "E" in destruct c eqn:E; [|discriminate Hok]
  end.
  clear Hok Hd. unbool.
  unfold frame_request, prompt_region_size, f_request_id, f_model_id, f_width,
    f_height, f_steps, f_cfg_bits, f_seed, f_clip_l_offset, f_clip_l_length,
    f_clip_g_offset, f_clip_g_length, f_t5_offset, f_t5_length, f_payload_len
    in *.
  cbn [request_id model_id width height steps cfg_scale seed clip_l_offset
       clip_l_length clip_g_offset clip_g_length t5_offset t5_length
       prompt_data prompt_data_len].
  repeat split; try reflexivity; lia.
Qed.

Lemma decode_generate_request_fields_witness :
  request_id (frame_request scenario_request) = 12345
  /\ width (frame_request scenario_request) = 512
  /\ prompt_data_len (frame_request scenario_request) = 42.
Proof.
  pose proof (decode_generate_request_fields scenario_request 118
                Main.req_uninit (frame_request scenario_request)
                ltac:(vm_compute; reflexivity)) as H.
  destruct H as (H1 & _ & H2 & _ & _ & _ & _ & _ & _ & _ & _ & H3 & _).
  rewrite H1, H2, H3. vm_compute. repeat split.
Defined.

Lemma gates_app (n : Z) (d extra : list byte) :
  (76 <= length d)%nat -> gates n (d ++ extra) = gates n d.
Proof.
  intros Hl. unfold gates, gates_before_prompt, prompt_pairs_ok,
    prompt_region_size, f_magic, f_version, f_kind, f_payload_len,
    f_request_id, f_model_id, f_width, f_height, f_steps, f_cfg_bits, f_seed,
    f_clip_l_offset, f_clip_l_length, f_clip_g_offset, f_clip_g_length,
    f_t5_offset, f_t5_length.
  rewrite !be_field_app_keep by lia. reflexivity.
Qed.

(** X3.  Bytes that follow a valid frame are ignored: a slice that decodes
    still decodes, to the same request, when bytes are appended to it. *)
Theorem decode_generate_request_ignores_trailing_bytes
    (data extra : list byte) (req : sd35_generate_request_t) :
  fst (fst (decode_generate_request (Some data) (Z.of_nat (length data))
              (Some req))) = ERR_NONE ->
  fst (decode_generate_request (Some (data ++ extra))
         (Z.of_nat (length (data ++ extra))) (Some req))
  = fst (decode_generate_request (Some data) (Z.of_nat (length data))
           (Some req)).
Proof.
  intros Hok.
  pose proof (decode_success_request _ _ _ Hok) as Hrq.
  assert (Hlen : (76 <= length data)%nat).
  { rewrite decode_value in Hok.
    unfold gates, gates_before_prompt in Hok.
    cbn [app first_violation] in Hok.
    repeat match type of Hok with
    | context [if ?c then _ else _] =>
        let E := fresh "E" in destruct c eqn:E; [|discriminate Hok]
    end.
    clear Hok. unbool. lia. }
  assert (Hok' : fst (fst (decode_generate_request (Some (data ++ extra))
                             (Z.of_nat (length (data ++ extra))) (Some req)))
                 = ERR_NONE).
  { rewrite decode_value in Hok |- *.
    rewrite (gates_app _ data extra Hlen).
    unfold gates, gates_before_prompt in Hok |- *.
    cbn [app first_violation] in Hok |- *.
    rewrite length_app, Nat2Z.inj_add.
    repeat match type of Hok with
    | context [if ?c then _ else _] =>
        let E := fresh "E" in destruct c eqn:E; [|discriminate Hok]
    end.
    decide_bool (16 <=? Z.of_nat (length data) + Z.of_nat (length extra)) true.
    decide_bool ((f_payload_len data <=? 10 * 1024 * 1024 - 16)
                 && (16 + f_payload_len data
                     <=? Z.of_nat (length data) + Z.of_nat (length extra)))
                true.
    reflexivity. }
  pose proof (decode_success_request _ _ _ Hok') as Hrq'.
  assert (Hsame : frame_request (data ++ extra) = frame_request data).
  { unfold frame_request, prompt_region_size, f_request_id, f_model_id,
      f_width, f_height, f_steps, f_cfg_bits, f_seed, f_clip_l_offset,
      f_clip_l_length, f_clip_g_offset, f_clip_g_length, f_t5_offset,
      f_t5_length, f_payload_len.
    now rewrite !be_field_app_keep by lia. }
  rewrite (surjective_pairing
             (fst (decode_generate_request (Some (data ++ extra))
                     (Z.of_nat (length (data ++ extra))) (Some req)))).
  rewrite (surjective_pairing
             (fst (decode_generate_request (Some data)
                     (Z.of_nat (length data)) (Some req)))).
  now rewrite Hok, Hok', Hrq, Hrq', Hsame.
Qed.

Lemma decode_generate_request_ignores_trailing_bytes_witness :
  fst (decode_generate_request
         (Some (scenario_request ++ [Byte.xff; Byte.xff; Byte.xff]))
         121 (Some Main.req_uninit))
  = (ERR_NONE, Some (frame_request scenario_request)).
Proof.
  rewrite <- (decode_success_request scenario_request 118 Main.req_uninit)
    by (vm_compute; reflexivity).
  assert (H : fst (fst (decode_generate_request (Some scenario_request) 118
                          (Some Main.req_uninit))) = ERR_NONE)
    by (vm_compute; reflexivity).
  rewrite <- H at 1. rewrite <- surjective_pairing.
  exact (decode_generate_request_ignores_trailing_bytes scenario_request
           [Byte.xff; Byte.xff; Byte.xff] Main.req_uninit H).
Defined.

(** X4.  [encode_error_response] succeeds exactly when the message is there
    (or has length zero) and the buffer holds header, fixed fields and
    message; its only error is INTERNAL.  On success the buffer holds the
    error frame from index [b] on, the rest of it is as before, and
    [*out_len] is the length of the frame. *)
Theorem encode_error_response_frame
    (r : error_response_t) (b : nat) (size : Z) (buf : list byte) (o : Z) :
  0 <= error_msg_len r < 2 ^ 16 ->
  error_msg_len r
  <= Z.of_nat (length (match error_msg r with Some m => m | None => [] end)) ->
  Z.of_nat b + size <= Z.of_nat (length buf) ->
  let out := encode_error_response (Some r) (Some (Z.of_nat b)) size (Some tt) in
  (fst out = ERR_NONE <->
     (error_msg r <> None \/ error_msg_len r = 0)
     /\ 34 + error_msg_len r <= size)
  /\ (fst out = ERR_NONE ->
        apply_stores (buf, o) (snd out)
        = (poke b (error_frame r) buf, 34 + error_msg_len r)
        /\ Z.of_nat (length (error_frame r)) = 34 + error_msg_len r)
  /\ (fst out <> ERR_NONE -> fst out = ERR_INTERNAL).
Proof.
  intros Hl Hm Hb out. subst out.
  rewrite (encode_error_response_value r (Z.of_nat b) size Hl).
  pose proof (length_error_frame r Hm ltac:(lia)) as Hfl.
  split; [|split].
  - unfold encode_error_verdict.
    destruct (error_msg r) as [m|] eqn:Em; cbn [andb].
    + destruct (Z.gtb_spec (16 + (8 + 4 + 4 + 2 + error_msg_len r)) size).
      * split; [discriminate|]. intros [_ Hs]. lia.
      * split; [|reflexivity]. intros _. split; [left; discriminate|lia].
    + destruct (Z.ltb_spec 0 (error_msg_len r)).
      * split; [discriminate|]. intros [[Hn|Hz] _]; [now elim Hn|lia].
      * destruct (Z.gtb_spec (16 + (8 + 4 + 4 + 2 + error_msg_len r)) size).
        -- split; [discriminate|]. intros [_ Hs]. lia.
        -- split; [|reflexivity]. intros _. split; [right|]; lia.
  - intros Hv.
    assert (Hfit : 34 + error_msg_len r <= size).
    { revert Hv. unfold encode_error_verdict.
      destruct (_ && _); [discriminate|].
      destruct (Z.gtb_spec (16 + (8 + 4 + 4 + 2 + error_msg_len r)) size);
        [discriminate|lia]. }
    rewrite (encode_error_response_stores r (Z.of_nat b) size Hl Hm Hv).
    rewrite apply_stores_app, apply_stores_at by lia.
    cbn [apply_stores fold_left apply_store fst snd].
    split; [f_equal|]; lia.
  - unfold encode_error_verdict.
    destruct (_ && _); [reflexivity|].
    destruct (_ >? _); [reflexivity|]. intros Hne. now elim Hne.
Qed.

Lemma encode_error_response_frame_witness :
  fst (apply_stores (repeat Byte.x00 40, 0)
         (snd (encode_error_response
                 (Some (mk_error_response 7 400 5 2 (Some [Byte.x6e; Byte.x6f])))
                 (Some 2) 38 (Some tt))))
  = [Byte.x00; Byte.x00] ++
    error_frame (mk_error_response 7 400 5 2 (Some [Byte.x6e; Byte.x6f]))
    ++ [Byte.x00; Byte.x00].
Proof.
  pose proof (encode_error_response_frame
                (mk_error_response 7 400 5 2 (Some [Byte.x6e; Byte.x6f]))
                2 38 (repeat Byte.x00 40) 0
                ltac:(cbn; lia) ltac:(cbn; lia) ltac:(cbn; lia)) as H.
  cbv zeta in H. destruct H as (_ & H & _).
  change (Z.of_nat 2) with 2 in H.
  rewrite (proj1 (H ltac:(vm_compute; reflexivity))).
  vm_compute. reflexivity.
Defined.

(** X5.  The decoder does not take the daemon's own frames for requests:
    [decode_protocol_header] reads the header an encoder has written
    (magic, version 1, the kind and the payload length of the frame,
    reserved 0) and rejects the kind with INTERNAL, as does
    [decode_generate_request]. *)
Theorem encoded_frames_are_not_requests
    (r : error_response_t) (resp : sd35_generate_response_t) (n : Z)
    (h : protocol_header_t) (req : sd35_generate_request_t) :
  0 <= error_msg_len r < 2 ^ 16 ->
  0 <= image_data_len resp <= MAX_MESSAGE_SIZE - 48 ->
  16 <= n ->
  fst (decode_protocol_header (error_frame r) n h)
  = (ERR_INTERNAL,
     mk_header PROTOCOL_MAGIC PROTOCOL_VERSION_1 MSG_ERROR
       (8 + 4 + 4 + 2 + error_msg_len r) 0)
  /\ fst (decode_protocol_header (response_frame resp) n h)
     = (ERR_INTERNAL,
        mk_header PROTOCOL_MAGIC PROTOCOL_VERSION_1 MSG_GENERATE_RESPONSE
          (16 + 16 + image_data_len resp) 0)
  /\ fst (fst (decode_generate_request (Some (error_frame r)) n (Some req)))
     = ERR_INTERNAL
  /\ fst (fst (decode_generate_request (Some (response_frame resp)) n
                 (Some req)))
     = ERR_INTERNAL.
Proof.
  intros Hl Hi Hn. unfold MAX_MESSAGE_SIZE in Hi.
  assert (He : f_magic (error_frame r) = PROTOCOL_MAGIC
               /\ f_version (error_frame r) = 1
               /\ f_kind (error_frame r) = MSG_ERROR
               /\ f_payload_len (error_frame r) = 8 + 4 + 4 + 2 + error_msg_len r
               /\ be_field (error_frame r) 12 4 = 0).
  { unfold f_magic, f_version, f_kind, f_payload_len, error_frame.
    repeat split; frame_field; reflexivity. }
  assert (Hr : f_magic (response_frame resp) = PROTOCOL_MAGIC
               /\ f_version (response_frame resp) = 1
               /\ f_kind (response_frame resp) = MSG_GENERATE_RESPONSE
               /\ f_payload_len (response_frame resp)
                  = 16 + 16 + image_data_len resp
               /\ be_field (response_frame resp) 12 4 = 0).
  { unfold f_magic, f_version, f_kind, f_payload_len, response_frame.
    repeat split; frame_field; reflexivity. }
  destruct He as (He1 & He2 & He3 & He4 & He5).
  destruct Hr as (Hr1 & Hr2 & Hr3 & Hr4 & Hr5).
  assert (Hn' : (n <? 16) = false) by (apply Z.ltb_ge; lia).
  rewrite !decode_protocol_header_value by exact Hn'.
  rewrite !decode_value.
  unfold header_verdict, header_of, gates, gates_before_prompt.
  cbn [app first_violation].
  rewrite He1, He2, He3, He4, He5, Hr1, Hr2, Hr3, Hr4, Hr5.
  decide_bool (16 <=? n) true.
  repeat split.
Qed.

Lemma encoded_frames_are_not_requests_witness :
  fst (fst (decode_generate_request (Some (response_frame sample_response))
              12336 (Some Main.req_uninit)))
  = ERR_INTERNAL.
Proof.
  exact (proj2 (proj2 (proj2
    (encoded_frames_are_not_requests
       (mk_error_response 0 400 1 0 None) sample_response 12336
       header_uninit Main.req_uninit
       ltac:(cbn; lia) ltac:(cbn; lia) ltac:(lia))))).
Defined.

(** ** The generation pipeline *)

Import Protocol Engine Generate WireSpec.

Lemma c_string_terminated (s : list byte) :
  exists rest,
    s = c_string (s ++ [Byte.x00]) ++ rest
    /\ ~ In Byte.x00 (c_string (s ++ [Byte.x00]))
    /\ (rest = [] \/ exists rest', rest = Byte.x00 :: rest').
Proof.
  induction s as [|b s IH]; cbn [app c_string].
  - exists []. cbn. auto.
  - destruct (Byte.eqb b Byte.x00) eqn:Eb.
    + apply Byte.byte_dec_bl in Eb. subst b.
      exists (Byte.x00 :: s). cbn. split; [reflexivity|]. split; eauto.
    + destruct IH as (rest & Hs & Hn & Hr).
      exists rest. split; [now rewrite <- app_comm_cons, <- Hs|].
      split; [|exact Hr].
      intros [Hb|Hin]; [|now apply Hn].
      subst b. cbn in Eb. discriminate Eb.
Qed.

(** X6.  Every request the decoder accepts converts.  The CLIP-L slice of
    the frame, whole and 1 to 256 bytes long, is copied to the local
    buffer and terminated, and the prompt handed to the engine is the C
    string found there: the slice up to its first NUL byte, the whole
    slice when it holds none.  The other parameters are the request's
    (the seed reinterpreted as a signed 64-bit number, no negative
    prompt, no CLIP skip). *)
Theorem convert_request_params_of_decoded
    (data : list byte) (n : Z) (req rq : sd35_generate_request_t) :
  n <= Z.of_nat (length data) ->
  fst (decode_generate_request (Some data) n (Some req)) = (ERR_NONE, Some rq) ->
  let slice :=
    firstn (Z.to_nat (clip_l_length rq))
      (skipn (Z.to_nat (76 + clip_l_offset rq)) data) in
  exists params rest,
    convert_request_params data (Some rq) (SD35_MAX_PROMPT_LENGTH + 1)
    = (ERR_NONE, Some params)
    /\ Z.of_nat (length slice) = clip_l_length rq
    /\ 1 <= clip_l_length rq <= SD35_MAX_PROMPT_LENGTH
    /\ slice = prompt params ++ rest
    /\ ~ In Byte.x00 (prompt params)
    /\ (rest = [] \/ exists rest', rest = Byte.x00 :: rest')
    /\ (~ In Byte.x00 slice -> prompt params = slice)
    /\ negative_prompt params = None
    /\ gen_width params = width rq /\ gen_height params = height rq
    /\ gen_steps params = steps rq /\ gen_cfg_scale params = cfg_scale rq
    /\ gen_seed params = to_int64 (seed rq) /\ clip_skip params = 0.
Proof.
  intros Hn Hd.
  assert (Hok : fst (fst (decode_generate_request (Some data) n (Some req)))
                = ERR_NONE) by now rewrite Hd.
  pose proof (decode_success_request data n req Hok) as Hrq.
  rewrite Hd in Hrq. cbn [snd] in Hrq. injection Hrq as ->.
  rewrite decode_value in Hok.
  unfold gates, gates_before_prompt in Hok. cbn [app first_violation] in Hok.
  repeat match type of Hok with
  | context [if ?c then _ else _] =>
      let E := fresh "E" in destruct c eqn:E; [|discriminate Hok]
  end.
  clear Hok Hd.
  unfold prompt_pairs_ok, prompt_pair_ok, prompt_region_size in *.
  unbool.
  pose proof (be_field_4_range data 52) as Ho.
  pose proof (be_field_4_range data 56) as Hl.
  fold (f_clip_l_offset data) in Ho. fold (f_clip_l_length data) in Hl.
  unfold convert_request_params, frame_request.
  cbn [prompt_data clip_l_length clip_l_offset prompt_data_len width height
       steps cfg_scale seed].
  unfold prompt_region_size, SD35_MAX_PROMPT_LENGTH.
  decide_bool ((f_clip_l_length data =? 0)
               || (f_clip_l_length data >=? 256 + 1)) false.
  rewrite wrap32_small by lia.
  decide_bool (f_clip_l_offset data + f_clip_l_length data
               >? f_payload_len data - 60) false.
  set (slice := firstn (Z.to_nat (f_clip_l_length data))
                  (skipn (Z.to_nat (76 + f_clip_l_offset data)) data)).
  destruct (c_string_terminated slice) as (rest & Hs & Hnul & Hrest).
  eexists. exists rest. split; [reflexivity|].
  cbn [prompt negative_prompt gen_width gen_height gen_steps gen_cfg_scale
       gen_seed clip_skip].
  split.
  { unfold slice. rewrite length_firstn, length_skipn. lia. }
  split; [lia|]. split; [exact Hs|]. split; [exact Hnul|].
  split; [exact Hrest|]. split; [|repeat split].
  intros Hfree.
  destruct Hrest as [->|(rest' & ->)].
  - now rewrite app_nil_r in Hs.
  - elim Hfree. rewrite Hs. apply in_or_app. right. now left.
Qed.

Lemma convert_request_params_of_decoded_witness :
  exists params rest,
    convert_request_params scenario_request
      (Some (frame_request scenario_request)) 257
    = (ERR_NONE, Some params)
    /\ a_cat_in_space = prompt params ++ rest
    /\ ~ In Byte.x00 (prompt params)
    /\ (rest = [] \/ exists rest', rest = Byte.x00 :: rest').
Proof.
  destruct (convert_request_params_of_decoded scenario_request 118
              Main.req_uninit (frame_request scenario_request)
              ltac:(vm_compute; discriminate)
              ltac:(vm_compute; reflexivity))
    as (params & rest & Hc & _ & _ & Hs & Hn & Hr & _).
  exists params, rest. split; [exact Hc|]. split; [exact Hs|].
  split; [exact Hn|exact Hr].
Defined.

(** A prompt with a NUL inside reaches the engine cut at the NUL. *)
Example convert_request_params_stops_at_nul :
  let frame :=
    build_valid_request 12345 512 512 4 0x40900000 42
      [Byte.x61; Byte.x00; Byte.x62] in
  fst (fst (decode_generate_request (Some frame) (Z.of_nat (length frame))
              (Some Main.req_uninit))) = ERR_NONE
  /\ option_map prompt
       (snd (convert_request_params frame (Some (frame_request frame)) 257))
     = Some [Byte.x61].
Proof. vm_compute. split; reflexivity. Qed.

Lemma convert_request_params_codes mem req size e p :
  convert_request_params mem req size = (e, p) ->
  e = ERR_NONE \/ e = ERR_INTERNAL \/ e = ERR_INVALID_PROMPT.
Proof.
  unfold convert_request_params.
  repeat match goal with
  | |- context [match ?x with _ => _ end] => destruct x
  end; intros [= <- <-]; auto.
Qed.

Lemma convert_request_params_some mem req size p :
  convert_request_params mem req size = (ERR_NONE, p) -> p <> None.
Proof.
  unfold convert_request_params.
  repeat match goal with
  | |- context [match ?x with _ => _ end] => destruct x
  end; intros [= <-]; discriminate.
Qed.

Lemma wrap32_range z : 0 <= wrap32 z <= UINT32_MAX.
Proof.
  unfold wrap32, UINT32_MAX.
  pose proof (Z.mod_pos_bound z (2 ^ 32) ltac:(lia)). lia.
Qed.

Section PipelineExtra.
Context {C : Type} `{Engine C}.

Ltac pipeline_cases :=
  unfold process_generate_request;
  repeat match goal with
  | |- context [match ?x with _ => _ end] =>
      lazymatch x with
      | convert_request_params _ _ _ => destruct x as [? [?|]] eqn:?
      | sd_wrapper_reset _ => destruct x as [? ?] eqn:?
      | sd_wrapper_generate _ _ => destruct x as [[? ?] ?] eqn:?
      | get_time_ms _ => unfold get_time_ms
      | map_sd_error _ => destruct x as [? ?] eqn:?
      | _ => destruct x eqn:?
      end
  end.

(** X7.  A failed [process_generate_request] leaves [*resp] as it was, and
    the only codes it returns are INTERNAL, INVALID_PROMPT,
    OUT_OF_MEMORY and GPU_ERROR: the engine's INVALID_PARAM comes back
    as INVALID_PROMPT, its OUT_OF_MEMORY and GPU_ERROR under their own
    names, every other engine error as INTERNAL. *)
Theorem process_generate_request_failure
    (mem : list byte) (ctx : option C) (req : option sd35_generate_request_t)
    (resp : option sd35_generate_response_t) (st : pipeline) :
  let out := process_generate_request mem ctx req resp st in
  fst (fst (fst out)) <> ERR_NONE ->
  snd (fst out) = resp
  /\ In (fst (fst (fst out)))
       [ERR_INTERNAL; ERR_INVALID_PROMPT; ERR_OUT_OF_MEMORY; ERR_GPU_ERROR].
Proof.
  cbv zeta.
  pipeline_cases; cbn [fst snd In]; intros Hne;
    try (now elim Hne); split; try reflexivity; auto;
    repeat match goal with
    | E : map_sd_error ?s = _ |- _ =>
        destruct s; cbn in E; injection E as ? ?; subst
    | E : convert_request_params _ _ _ = _ |- _ =>
        apply convert_request_params_codes in E; destruct E as [E|[E|E]]; subst
    end; auto; try discriminate; try (now elim Hne).
Qed.

(** X8.  A successful [process_generate_request] has called the engine and
    fills [*resp] in: the request id is echoed, the status is 200, the
    image has the dimensions the request asked for, which are multiples
    of 64 within 64..2048, three or four channels and its data present;
    the context passed was not NULL, and the generation time fits 32
    bits. *)
Theorem process_generate_request_success
    (mem : list byte) (ctx : option C) (req : option sd35_generate_request_t)
    (resp : option sd35_generate_response_t) (st : pipeline) :
  let out := process_generate_request mem ctx req resp st in
  fst (fst (fst out)) = ERR_NONE ->
  exists rq r,
    req = Some rq /\ snd (fst out) = Some r
    /\ resp_request_id r = request_id rq
    /\ resp_status r = STATUS_OK
    /\ image_width r = width rq /\ image_height r = height rq
    /\ bad_dimension (image_width r) = false
    /\ bad_dimension (image_height r) = false
    /\ (channels r = 3 \/ channels r = 4)
    /\ image_data r <> None
    /\ 0 <= generation_time_ms r <= UINT32_MAX
    /\ snd (fst (fst out)) <> None
    /\ generation_performed (snd out) = true.
Proof.
  cbv zeta. pipeline_cases; cbn [fst snd]; intros He; try discriminate He;
    repeat match goal with
    | E : map_sd_error ?s = _ |- _ =>
        destruct s; cbn in E; injection E as ? ?; subst
    | E : is_ERR_NONE ?e = true |- _ =>
        is_var e; destruct e; try discriminate E; clear E
    | E : is_ERR_NONE ?e = false, E' : ?e = ERR_NONE |- _ =>
        rewrite E' in E; discriminate E
    | E : convert_request_params _ _ _ = (ERR_NONE, None) |- _ =>
        now apply convert_request_params_some in E
    end; try discriminate.
  all: eexists; eexists; split; [reflexivity|]; split; [reflexivity|].
  all: cbn [resp_request_id resp_status image_width image_height channels
            image_data generation_time_ms generation_performed
            set_generation_performed].
  all: repeat match goal with
       | E : (_ || _) = false |- _ => apply orb_false_iff in E; destruct E
       | E : (_ && _) = false |- _ => apply andb_false_iff in E
       | E : negb _ = false |- _ => apply negb_false_iff in E
       | E : negb _ = false \/ negb _ = false |- _ => destruct E
       | E : (_ =? _) = true |- _ => apply Z.eqb_eq in E
       end.
  all: repeat split; try assumption; try congruence; try discriminate;
    try apply wrap32_range; auto.
Qed.

(** X9.  [free_generate_response] releases the image once: after it the
    response holds no image and a data length of zero when it held one,
    and a second call does nothing. *)
Theorem free_generate_response_once
    (resp : option sd35_generate_response_t) (st : pipeline) :
  let out := free_generate_response resp st in
  free_generate_response (fst out) (snd out) = out
  /\ (forall r, fst out = Some r -> image_data r = None)
  /\ (forall r image, resp = Some r -> image_data r = Some image ->
        calls (snd out) = CallFreeImage :: calls st
        /\ exists r', fst out = Some r' /\ image_data_len r' = 0
                      /\ resp_request_id r' = resp_request_id r)
  /\ ((resp = None \/ exists r, resp = Some r /\ image_data r = None) ->
        out = (resp, st)).
Proof.
  cbv zeta. unfold free_generate_response.
  destruct resp as [r|]; [destruct (image_data r) as [image|] eqn:Ei|];
    cbn [fst snd image_data calls called].
  - split; [reflexivity|]. split; [|split].
    + intros r0 [= <-]. reflexivity.
    + intros r0 image0 [= <-] _. split; [reflexivity|].
      eexists. repeat split.
    + intros [Hn|(r0 & [= <-] & Hn)]; [discriminate Hn|congruence].
  - rewrite Ei. split; [reflexivity|]. split; [|split].
    + intros r0 [= <-]. exact Ei.
    + intros r0 image0 [= <-] Hi. congruence.
    + reflexivity.
  - split; [reflexivity|]. split; [|split]; try discriminate. reflexivity.
Qed.

End PipelineExtra.


Lemma process_generate_request_failure_witness :
  snd (fst (process_generate_request scenario_request
              (Some (mk_mock SD_WRAPPER_ERR_GPU_ERROR None 0))
              (Some (frame_request scenario_request))
              (Some Main.resp_zeroed) (pipeline_init [])))
  = Some Main.resp_zeroed.
Proof.
  pose proof (process_generate_request_failure scenario_request
                (Some (mk_mock SD_WRAPPER_ERR_GPU_ERROR None 0))
                (Some (frame_request scenario_request))
                (Some Main.resp_zeroed) (pipeline_init [])) as H.
  cbv zeta in H.
  assert (H1 : fst (fst (fst (process_generate_request scenario_request
                (Some (mk_mock SD_WRAPPER_ERR_GPU_ERROR None 0))
                (Some (frame_request scenario_request))
                (Some Main.resp_zeroed) (pipeline_init [])))) <> ERR_NONE)
    by (vm_compute; discriminate).
  exact (proj1 (H H1)).
Defined.

Lemma process_generate_request_success_witness :
  exists r,
    snd (fst (process_generate_request scenario_request
                (Some (mk_mock SD_WRAPPER_OK None 0))
                (Some (frame_request scenario_request))
                (Some Main.resp_zeroed) (pipeline_init [10; 35])))
    = Some r
    /\ resp_request_id r = 12345.
Proof.
  pose proof (process_generate_request_success scenario_request
                (Some (mk_mock SD_WRAPPER_OK None 0))
                (Some (frame_request scenario_request))
                (Some Main.resp_zeroed) (pipeline_init [10; 35])) as H.
  cbv zeta in H.
  assert (H1 : fst (fst (fst (process_generate_request scenario_request
                (Some (mk_mock SD_WRAPPER_OK None 0))
                (Some (frame_request scenario_request))
                (Some Main.resp_zeroed) (pipeline_init [10; 35])))) = ERR_NONE)
    by (vm_compute; reflexivity).
  destruct (H H1) as (rq & r & Hq & Hr & Hid & _).
  exists r. split; [exact Hr|]. rewrite Hid.
  injection Hq as <-. reflexivity.
Defined.

Lemma free_generate_response_once_witness :
  calls (snd (free_generate_response
                (Some (mk_response 7 200 0 64 64 3 3
                         (Some [Byte.x01; Byte.x02; Byte.x03])))
                (pipeline_init [])))
  = [CallFreeImage].
Proof.
  pose proof (free_generate_response_once
                (Some (mk_response 7 200 0 64 64 3 3
                         (Some [Byte.x01; Byte.x02; Byte.x03])))
                (pipeline_init [])) as H.
  cbv zeta in H. destruct H as (_ & _ & H & _).
  exact (proj1 (H _ _ eq_refl eq_refl)).
Defined.

(** ** The socket layer *)

Import Socket SocketSpec.

Lemma fd_update_other k fd s fd' : fd' <> fd -> fd_update k fd s fd' = k fd'.
Proof.
  intros Hne. unfold fd_update.
  now destruct (Z.eqb_spec fd' fd); [contradiction|].
Qed.

Lemma socket_auth_connection_ok uid fd k :
  socket_auth_connection uid fd k = SOCKET_OK <->
  0 <= fd /\ exists s, k fd = Some s /\ peer_uid s = Some uid.
Proof.
  unfold socket_auth_connection.
  destruct (Z.ltb_spec fd 0) as [Hneg|Hpos].
  { split; [discriminate|]. intros [Hfd _]. lia. }
  destruct (k fd) as [s|].
  2:{ split; [discriminate|]. intros (_ & s & Hs & _). discriminate Hs. }
  destruct (peer_uid s) as [cred_uid|] eqn:Ecred.
  2:{ split; [discriminate|]. intros (_ & s' & [= <-] & Hu). congruence. }
  destruct (Z.eqb_spec cred_uid uid) as [->|Hne]; cbn [negb].
  - split; [|reflexivity]. intros _. split; [exact Hpos|]. now exists s.
  - split; [discriminate|]. intros (_ & s' & [= <-] & Hu). congruence.
Qed.

(** X10.  [socket_set_timeouts] touches nothing but the two timeouts of its
    descriptor: every other descriptor, and the peer credentials of its
    own, are as before; when it fails the whole table is as before; and
    a second call with the same arguments changes nothing more. *)
Theorem socket_set_timeouts_frame
    (fd read_timeout_s write_timeout_s : Z) (k : kernel) :
  let out := socket_set_timeouts fd read_timeout_s write_timeout_s k in
  (forall fd', fd' <> fd -> snd out fd' = k fd')
  /\ (match snd out fd, k fd with
      | Some s', Some s => peer_uid s' = peer_uid s
      | None, None => True
      | _, _ => False
      end)
  /\ (fst out <> SOCKET_OK -> forall fd', snd out fd' = k fd')
  /\ (forall fd',
        snd (socket_set_timeouts fd read_timeout_s write_timeout_s (snd out))
          fd'
        = snd out fd')
  /\ In (fst out) [SOCKET_OK; SOCKET_ERR_INVALID_FD; SOCKET_ERR_TIMEOUT_FAILED].
Proof.
  cbv zeta. unfold socket_set_timeouts, setsockopt.
  destruct (fd <? 0) eqn:Efd; cbn [fst snd].
  { repeat split; cbn [In]; auto.
    destruct (k fd); auto. }
  destruct (read_timeout_s >? 0) eqn:Er, (write_timeout_s >? 0) eqn:Ew;
    destruct (k fd) as [s|] eqn:Ek; cbn [fst snd];
    rewrite ?fd_update_same, ?Efd, ?Er, ?Ew, ?Ek; cbn [fst snd];
    rewrite ?fd_update_same, ?Ek; cbn [fst snd peer_uid so_rcvtimeo so_sndtimeo];
    rewrite ?fd_update_same; cbn [fst snd peer_uid so_rcvtimeo so_sndtimeo].
  all: split; [intros fd' Hne; now rewrite ?fd_update_other by exact Hne|].
  all: split; [rewrite ?Ek; auto|].
  all: split; [intros Hne fd'; try reflexivity; now elim Hne|].
  all: split; [|cbn [In]; auto].
  all: intros fd'; unfold fd_update;
    destruct (fd' =? fd); reflexivity.
Qed.

Section AcceptLoopExtra.
Context {HS : Type}.

Lemma process_uid_signalled sig (w : server (HS := HS)) :
  process_uid (signalled sig w) = process_uid w.
Proof. now destruct sig. Qed.

Lemma events_signalled sig (w : server (HS := HS)) :
  events (signalled sig w) = events w.
Proof. now destruct sig. Qed.

(** X11.  The handler is only ever given connections of the daemon's own
    user: every connection the accept loop hands to the handler has
    passed [SO_PEERCRED] authentication, so the socket the handler sees
    reports the UID of the process as its peer's. *)
Theorem accept_loop_handles_own_user_only
    (handler : socket_connection_handler_t (HS := HS))
    (pending : list accept_event) (srv : server)
    (fd : Z) (seen : option sock) (result : Z) :
  In (EvHandler fd seen result)
     (events (snd (accept_loop handler pending srv))) ->
  In (EvHandler fd seen result) (events srv)
  \/ exists s, seen = Some s /\ peer_uid s = Some (process_uid srv).
Proof.
  revert srv; induction pending as [|ev pending IH]; intros w;
    cbn [accept_loop].
  - destruct (g_shutdown_requested w); auto.
  - destruct (g_shutdown_requested w); [auto|].
    destruct ev as [sig| |c s sig].
    + intros Hin. apply IH in Hin.
      now rewrite process_uid_signalled, events_signalled in Hin.
    + auto.
    + cbn [with_fds fds process_uid logged events handler_state
           g_shutdown_requested].
      set (client_fd := Z.of_nat c).
      set (k1 := fd_update (fds w) client_fd (Some s)).
      destruct (socket_auth_connection (process_uid w) client_fd k1)
        eqn:Eauth; cbn [is_SOCKET_OK negb].
      2-7: intros Hin; apply IH in Hin;
        cbn [with_fds fds process_uid logged events handler_state
             g_shutdown_requested] in Hin;
        destruct Hin as [Hin|Hin]; [|now right];
        rewrite <- app_assoc in Hin; apply in_app_or in Hin;
        destruct Hin as [Hin|Hin]; [now left|];
        cbn [app In] in Hin;
        destruct Hin as [Hin|[Hin|[]]]; discriminate Hin.
      apply socket_auth_connection_ok in Eauth.
      destruct Eauth as (Hfd & s' & Hs' & Huid).
      unfold k1 in Hs'. rewrite fd_update_same in Hs'. injection Hs' as <-.
      destruct (socket_set_timeouts_open client_fd
                  DEFAULT_READ_TIMEOUT_S DEFAULT_WRITE_TIMEOUT_S k1 s)
        as [Hok Hsock]; [lia|apply fd_update_same|].
      destruct (socket_set_timeouts client_fd DEFAULT_READ_TIMEOUT_S
                  DEFAULT_WRITE_TIMEOUT_S k1) as [terr k2].
      cbn [fst snd] in Hok, Hsock. subst terr.
      cbn [with_fds fds process_uid logged events handler_state
           g_shutdown_requested].
      destruct (handler client_fd k2 (handler_state w)) as [[res k3] h].
      intros Hin. apply IH in Hin.
      cbn [with_fds fds process_uid logged events handler_state
           g_shutdown_requested] in Hin.
      rewrite process_uid_signalled, events_signalled in Hin.
      cbn [with_fds fds process_uid logged events handler_state
           g_shutdown_requested] in Hin.
      destruct Hin as [Hin|Hin]; [|now right].
      rewrite <- !app_assoc in Hin. apply in_app_or in Hin.
      destruct Hin as [Hin|Hin]; [now left|].
      cbn [app In] in Hin.
      destruct Hin as [Hin|[Hin|[Hin|[Hin|[]]]]]; try discriminate Hin.
      injection Hin as <- <- <-. right.
      rewrite Hsock. eexists. split; [reflexivity|exact Huid].
Qed.

Lemma g_shutdown_requested_signalled sig (w : server (HS := HS)) :
  g_shutdown_requested w = false ->
  g_shutdown_requested (signalled sig w) = sig.
Proof. intros Hw. now destruct sig. Qed.

Lemma socket_auth_connection_authentic uid (c : nat) (k : kernel) (s : sock) :
  is_SOCKET_OK
    (socket_auth_connection uid (Z.of_nat c)
       (fd_update k (Z.of_nat c) (Some s)))
  = authentic uid s.
Proof.
  unfold socket_auth_connection, authentic.
  destruct (Z.ltb_spec (Z.of_nat c) 0); [lia|].
  rewrite fd_update_same.
  destruct (peer_uid s) as [u|]; [|reflexivity].
  now destruct (u =? uid).
Qed.

(** The loop proper, entered with any state. *)
Lemma accept_loop_ends
    (handler : socket_connection_handler_t (HS := HS))
    (pending : list accept_event) (srv : server) :
  let out := accept_loop handler pending srv in
  fst out = loop_end (process_uid srv) (g_shutdown_requested srv) pending
  /\ (fst out = Some SOCKET_OK -> g_shutdown_requested (snd out) = true)
  /\ (fst out = Some SOCKET_ERR_ACCEPT_FAILED -> In AcceptError pending)
  /\ (forall e, fst out = Some e ->
        e = SOCKET_OK \/ e = SOCKET_ERR_ACCEPT_FAILED)
  /\ (fst out = None -> g_shutdown_requested (snd out) = false)
  /\ process_uid (snd out) = process_uid srv.
Proof.
  cbv zeta. revert srv; induction pending as [|ev pending IH]; intros w;
    cbn [accept_loop loop_end].
  - destruct (g_shutdown_requested w) eqn:Es; cbn [fst snd];
      repeat split; auto; try discriminate.
    intros e [= <-]. now left.
  - destruct (g_shutdown_requested w) eqn:Es; cbn [fst snd].
    { repeat split; auto; try discriminate. intros e [= <-]. now left. }
    destruct ev as [sig| |c s sig].
    + destruct (IH (signalled sig w)) as (H0 & H1 & H2 & H3 & H4 & H5).
      rewrite process_uid_signalled in H0, H5.
      rewrite g_shutdown_requested_signalled in H0 by exact Es.
      repeat split; auto. intros Hf. right. auto.
    + cbn [fst snd]. repeat split; auto; try discriminate.
      * intros _. now left.
      * intros e [= <-]. now right.
    + cbn [with_fds fds process_uid logged events handler_state
           g_shutdown_requested].
      rewrite socket_auth_connection_authentic.
      destruct (authentic (process_uid w) s); cbn [negb].
      * destruct (socket_set_timeouts _ _ _ _) as [terr k2].
        cbn [with_fds fds process_uid logged events handler_state
             g_shutdown_requested].
        destruct (handler _ _ _) as [[res k3] h].
        match goal with
        | |- context [accept_loop handler pending ?w'] =>
            destruct (IH w') as (H0 & H1 & H2 & H3 & H4 & H5)
        end.
        cbn [with_fds fds process_uid logged events handler_state
             g_shutdown_requested] in H0, H5.
        rewrite process_uid_signalled in H0, H5.
        rewrite g_shutdown_requested_signalled in H0 by exact Es.
        cbn [process_uid] in H0, H5. rewrite andb_true_r.
        repeat split; auto. intros Hf. right. auto.
      * match goal with
        | |- context [accept_loop handler pending ?w'] =>
            destruct (IH w') as (H0 & H1 & H2 & H3 & H4 & H5)
        end.
        cbn [with_fds fds process_uid logged events handler_state
             g_shutdown_requested] in H0, H5.
        rewrite Es in H0. rewrite andb_false_r.
        repeat split; auto. intros Hf. right. auto.
Qed.

(** X12.  [socket_accept_loop] refuses a negative descriptor with
    INVALID_FD and a NULL handler with NULL_HANDLER before it accepts
    anything.  Otherwise it ends only on a shutdown request or when
    [accept] fails, whatever authentication, the timeouts and the
    handler report: it returns SOCKET_OK once the shutdown flag is set
    (by a signal that interrupts [accept] or arrives while a connection
    is served; entered with the flag set it accepts nothing) and
    SOCKET_ERR_ACCEPT_FAILED when an [accept] fails before that.  It
    never returns with the flag clear and SOCKET_OK, and never changes
    the UID it authenticates against. *)
Theorem socket_accept_loop_termination
    (listen_fd : Z) (handler : option (socket_connection_handler_t (HS := HS)))
    (pending : list accept_event) (srv : server) :
  let out := socket_accept_loop listen_fd handler pending srv in
  (listen_fd < 0 -> out = (Some SOCKET_ERR_INVALID_FD, srv))
  /\ (0 <= listen_fd -> handler = None ->
        out = (Some SOCKET_ERR_NULL_HANDLER, srv))
  /\ (0 <= listen_fd -> handler <> None ->
        fst out
        = loop_end (process_uid srv) (g_shutdown_requested srv) pending)
  /\ (0 <= listen_fd -> handler <> None ->
      g_shutdown_requested srv = true -> out = (Some SOCKET_OK, srv))
  /\ (fst out = Some SOCKET_OK -> g_shutdown_requested (snd out) = true)
  /\ (fst out = Some SOCKET_ERR_ACCEPT_FAILED -> In AcceptError pending)
  /\ (forall e, fst out = Some e ->
        In e [SOCKET_OK; SOCKET_ERR_ACCEPT_FAILED; SOCKET_ERR_INVALID_FD;
              SOCKET_ERR_NULL_HANDLER])
  /\ (fst out = None -> g_shutdown_requested (snd out) = false)
  /\ process_uid (snd out) = process_uid srv.
Proof.
  cbv zeta. unfold socket_accept_loop.
  destruct (Z.ltb_spec listen_fd 0) as [Hneg|Hpos].
  { cbn [fst snd In]. repeat split; auto; try discriminate; try lia.
    intros e [= <-]. auto. }
  destruct handler as [handler|].
  2:{ cbn [fst snd In]. repeat split; auto; try discriminate; try lia.
      - intros _ Hn. now elim Hn.
      - intros _ Hn. now elim Hn.
      - intros e [= <-]. auto. }
  destruct (accept_loop_ends handler pending srv)
    as (H0 & H1 & H2 & H3 & H4 & H5).
  split; [lia|]. split; [discriminate|]. split; [auto|].
  split.
  { intros _ _ Hs. destruct pending; cbn [accept_loop]; now rewrite Hs. }
  split; [exact H1|]. split; [exact H2|]. split; [|split; assumption].
  intros e He. cbn [In]. destruct (H3 e He); auto.
Qed.

End AcceptLoopExtra.

Lemma accept_loop_handles_own_user_only_witness :
  In (EvHandler 5 (Some (mk_sock (Some 1000) 60 5)) 0) []
  \/ exists s,
       Some (mk_sock (Some 1000) 60 5) = Some s /\ peer_uid s = Some 1000.
Proof.
  apply (accept_loop_handles_own_user_only
           (fun (fd : Z) (k : kernel) (h : unit) => (0, k, h))
           [AcceptConn 5 (mk_sock (Some 1001) 0 0) false;
            AcceptConn 5 (mk_sock (Some 1000) 0 0) true]
           (mk_server (fun _ => None) 1000 false tt [])).
  vm_compute. do 4 right. left. reflexivity.
Defined.

(** ** Socket input and output, and the connection handler *)

Import Protocol Engine Generate Main WireSpec HandlerSpec IoSpec.

Lemma read_full_stream
    (rd : list rd_event) (buf : list byte) (total count : Z) :
  0 <= total <= count ->
  let out := read_full rd buf total count in
  exists taken,
    snd (fst out) = buf ++ taken
    /\ data_of rd = taken ++ data_of (snd out)
    /\ (fst (fst out) = 0 /\ total + Z.of_nat (length taken) = count
        \/ fst (fst out) = -1 /\ total + Z.of_nat (length taken) < count).
Proof.
  cbv zeta. revert buf total; induction rd as [|ev rd IH]; intros buf total Ht;
    cbn [read_full].
  - destruct (Z.ltb_spec total count); cbn [negb fst snd data_of];
      exists []; rewrite app_nil_r; cbn [length app]; repeat split; lia.
  - destruct (Z.ltb_spec total count) as [Hlt|Hge]; cbn [negb].
    2:{ cbn [fst snd]. exists []. rewrite app_nil_r. cbn [length app].
        repeat split. lia. }
    destruct ev as [| |bs]; cbn [data_of].
    + apply IH; lia.
    + cbn [fst snd]. exists []. rewrite app_nil_r. cbn [length app].
      repeat split. lia.
    + destruct (Nat.eqb_spec (length bs) 0) as [H0|Hn0].
      { cbn [fst snd]. exists []. rewrite app_nil_r. cbn [length app].
        destruct bs; [|discriminate H0]. repeat split. lia. }
      destruct (Nat.leb_spec (length bs) (Z.to_nat (count - total)))
        as [Hle|Hgt].
      * destruct (IH (buf ++ bs) (total + Z.of_nat (length bs)) ltac:(lia))
          as (taken & Hb & Hd & Hr).
        exists (bs ++ taken). rewrite Hb, Hd, !app_assoc, length_app.
        repeat split. lia.
      * cbn [fst snd data_of].
        exists (firstn (Z.to_nat (count - total)) bs).
        rewrite app_assoc, firstn_skipn, length_firstn.
        repeat split. lia.
Qed.

(** X13.  [read_full] brings the buffer to [count] bytes with the bytes
    that arrive: interrupted reads are retried and short reads
    continued, until a read fails or finds the peer gone.  What it
    appends is the beginning of what arrives, as much as was missing or
    as much as there is; it returns 0 exactly when all that was missing
    arrives and -1 otherwise; and it loses nothing: what it did not
    take stays to be read. *)
Theorem read_full_exact
    (rd : list rd_event) (buf : list byte) (total count : Z) :
  0 <= total <= count ->
  let out := read_full rd buf total count in
  let missing := Z.to_nat (count - total) in
  let taken := firstn missing (arriving rd) in
  snd (fst out) = buf ++ taken
  /\ (fst (fst out) = 0 <-> (missing <= length (arriving rd))%nat)
  /\ (fst (fst out) = 0 \/ fst (fst out) = -1)
  /\ data_of rd = taken ++ data_of (snd out).
Proof.
  intros Ht. cbv zeta.
  destruct (read_full_arriving rd buf total count Ht) as (Hb & Hr).
  destruct (read_full_stream rd buf total count Ht) as (taken & Hb' & Hd & _).
  rewrite Hb in Hb'. apply app_inv_head in Hb'. subst taken.
  split; [exact Hb|]. split; [|split; [|exact Hd]].
  - rewrite Hr.
    destruct (Nat.leb_spec (Z.to_nat (count - total)) (length (arriving rd)));
      split; intros; try lia; discriminate.
  - rewrite Hr. destruct (_ <=? _)%nat; auto.
Qed.

Lemma read_full_exact_witness :
  (snd (fst (read_full [RdData [Byte.x01]; RdEintr;
                        RdData [Byte.x02; Byte.x03; Byte.x04]] [] 0 3))
   = [Byte.x01; Byte.x02; Byte.x03]
   /\ fst (fst (read_full [RdData [Byte.x01]; RdEintr;
                           RdData [Byte.x02; Byte.x03; Byte.x04]] [] 0 3))
      = 0)
  /\ (snd (fst (read_full [RdData [Byte.x01]; RdFail;
                           RdData [Byte.x02; Byte.x03; Byte.x04]] [] 0 3))
      = [Byte.x01]
      /\ fst (fst (read_full [RdData [Byte.x01]; RdFail;
                              RdData [Byte.x02; Byte.x03; Byte.x04]] [] 0 3))
         = -1).
Proof.
  split.
  - destruct (read_full_exact [RdData [Byte.x01]; RdEintr;
                               RdData [Byte.x02; Byte.x03; Byte.x04]] [] 0 3
                ltac:(lia)) as (Hb & Hr & _).
    split; [exact Hb|]. apply Hr. cbn. lia.
  - destruct (read_full_exact [RdData [Byte.x01]; RdFail;
                               RdData [Byte.x02; Byte.x03; Byte.x04]] [] 0 3
                ltac:(lia)) as (Hb & Hr & [H0|H1] & _).
    + apply Hr in H0. cbn in H0. lia.
    + split; [exact Hb|exact H1].
Defined.

Lemma write_full_progress (buf : list byte) (count : Z)
    (wr : list wr_event) (sent : list byte) (total : Z) :
  0 <= total <= count ->
  exists t', total <= t' <= count
    /\ snd (write_full wr sent buf total count)
       = sent ++ firstn (Z.to_nat (t' - total)) (skipn (Z.to_nat total) buf)
    /\ (fst (fst (write_full wr sent buf total count)) = 0 /\ t' = count
        \/ fst (fst (write_full wr sent buf total count)) = -1
           /\ t' < count).
Proof.
  revert sent total; induction wr as [|ev wr IH]; intros sent total Ht;
    cbn [write_full].
  - destruct (Z.ltb_spec total count); cbn [negb fst snd];
      exists total; rewrite Z.sub_diag; cbn [Z.to_nat firstn];
      rewrite app_nil_r; repeat split; lia.
  - destruct (Z.ltb_spec total count) as [Hlt|Hge]; cbn [negb fst snd].
    2:{ exists total. rewrite Z.sub_diag. cbn [Z.to_nat firstn].
        rewrite app_nil_r. repeat split; lia. }
    destruct ev as [| |n].
    + apply IH; lia.
    + exists total. rewrite Z.sub_diag. cbn [Z.to_nat firstn fst snd].
      rewrite app_nil_r. repeat split; lia.
    + set (k := Nat.min n (Z.to_nat (count - total))).
      destruct (IH (sent ++ firstn k (skipn (Z.to_nat total) buf))
                  (total + Z.of_nat k) ltac:(lia))
        as (t' & Ht' & Hs & Hr).
      exists t'. split; [lia|]. split; [|exact Hr].
      rewrite Hs, <- app_assoc. f_equal.
      replace (Z.to_nat (total + Z.of_nat k)) with (k + Z.to_nat total)%nat
        by lia.
      rewrite <- skipn_skipn, firstn_firstn_skipn. f_equal. lia.
Qed.



Section HandlerExtra.
Context {C : Type} `{Engine C}.

(** X15.  What [send_error_response] does for any message.  The message
    length is stored in 16 bits.  When the frame does not fit the 4096
    bytes of the local buffer nothing is written and -1 is returned.
    Otherwise the peer receives the beginning of the error frame: the
    whole frame when 0 is returned, less when -1 is.  Nothing else of
    the handler's surroundings changes. *)
Theorem send_error_response_outcome
    (fd rid : Z) (e : error_code_t) (msg : list byte) (w : world C) :
  let r := error_response_for rid e msg in
  let out := send_error_response fd rid e msg w in
  error_msg_len r = Z.of_nat (length msg) mod 2 ^ 16
  /\ (4062 < error_msg_len r -> out = (-1, w))
  /\ (error_msg_len r <= 4062 ->
        exists n,
          sent (snd out) = sent w ++ firstn n (error_frame r)
          /\ (fst out = 0 /\ n = length (error_frame r)
              \/ fst out = -1 /\ (n < length (error_frame r))%nat))
  /\ rd (snd out) = rd w /\ heap (snd out) = heap w
  /\ g_sd_ctx (snd out) = g_sd_ctx w
  /\ pipeline_state (snd out) = pipeline_state w.
Proof.
  intros r out. subst out. unfold send_error_response. fold r.
  assert (Hl : error_msg_len r = Z.of_nat (length msg) mod 2 ^ 16)
    by reflexivity.
  assert (Hr : 0 <= error_msg_len r < 2 ^ 16)
    by (rewrite Hl; apply Z.mod_pos_bound; lia).
  assert (Hm : error_msg_len r
    <= Z.of_nat (length (match error_msg r with Some m => m | None => [] end))).
  { rewrite Hl. replace (error_msg r) with (Some msg) by reflexivity.
    apply Z.mod_le; lia. }
  pose proof (encode_error_response_value r 0 4096 Hr) as Hval.
  split; [exact Hl|].
  destruct (Z.ltb_spec 4062 (error_msg_len r)) as [Hbig|Hfit].
  - assert (Hv : encode_error_verdict r 4096 = ERR_INTERNAL).
    { unfold encode_error_verdict.
      replace (error_msg r) with (Some msg) by reflexivity. cbn [andb].
      destruct (Z.gtb_spec (16 + (8 + 4 + 4 + 2 + error_msg_len r)) 4096);
        [reflexivity|lia]. }
    rewrite Hv in Hval.
    destruct (encode_error_response (Some r) (Some 0) 4096 (Some tt))
      as [encode_err stores]. cbn [fst] in Hval. subst encode_err.
    cbn [is_ERR_NONE negb fst snd].
    split; [reflexivity|]. split; [intros; lia|]. repeat split.
  - assert (Hv : encode_error_verdict r 4096 = ERR_NONE).
    { unfold encode_error_verdict.
      replace (error_msg r) with (Some msg) by reflexivity. cbn [andb].
      destruct (Z.gtb_spec (16 + (8 + 4 + 4 + 2 + error_msg_len r)) 4096);
        [lia|reflexivity]. }
    pose proof (encode_error_response_stores r 0 4096 Hr Hm Hv) as Hst.
    rewrite Hv in Hval.
    destruct (encode_error_response (Some r) (Some 0) 4096 (Some tt))
      as [encode_err stores]. cbn [fst snd] in Hval, Hst.
    subst encode_err stores. cbn [is_ERR_NONE negb].
    pose proof (length_error_frame r Hm ltac:(lia)) as Hfl.
    rewrite apply_stores_app, apply_stores_at_start
      by (rewrite repeat_length; lia).
    cbn [apply_stores fold_left apply_store].
    set (buf := poke 0 (error_frame r) (repeat Byte.x00 4096)).
    set (len := 16 + (8 + 4 + 4 + 2 + error_msg_len r)).
    change (fst (buf, 0)) with buf.
    destruct (write_full_progress buf len (wr w) (sent w) 0 ltac:(lia))
      as (t' & Ht & Hs & Hok).
    destruct (write_full (wr w) (sent w) buf 0 len) as [[st wr'] sent'].
    cbn [fst snd] in Hs, Hok.
    assert (Hpre : sent' = sent w ++ firstn (Z.to_nat t') (error_frame r)).
    { rewrite Hs, Z.sub_0_r. cbn [Z.to_nat skipn]. f_equal.
      apply firstn_poke_start. lia. }
    split; [intros; lia|]. split.
    + intros _. exists (Z.to_nat t').
      destruct Hok as [[-> ->]|[-> Hlt]];
        cbn [Z.eqb negb fst snd with_wr sent].
      * split; [exact Hpre|]. left. split; [reflexivity|lia].
      * split; [exact Hpre|]. right. split; [reflexivity|lia].
    + destruct (negb (st =? 0)); cbn [fst snd with_wr rd heap g_sd_ctx
                                       pipeline_state]; repeat split.
Qed.

End HandlerExtra.

Lemma send_error_response_outcome_witness :
  send_error_response 0 7 ERR_INTERNAL (repeat Byte.x41 (Z.to_nat 5000))
    (scenario_world (mk_mock SD_WRAPPER_OK None 0) [] [WrAccept 1])
  = (-1, scenario_world (mk_mock SD_WRAPPER_OK None 0) [] [WrAccept 1]).
Proof.
  pose proof (send_error_response_outcome 0 7 ERR_INTERNAL
                (repeat Byte.x41 (Z.to_nat 5000))
                (scenario_world (mk_mock SD_WRAPPER_OK None 0) []
                   [WrAccept 1])) as H.
  cbv zeta in H. destruct H as (_ & H & _).
  apply H. vm_compute. reflexivity.
Defined.

Lemma is_ERR_NONE_true e : is_ERR_NONE e = true -> e = ERR_NONE.
Proof. now destruct e. Qed.

Lemma length_response_frame_le r image :
  image_data r = Some image ->
  0 <= image_data_len r <= Z.of_nat (length image) ->
  Z.of_nat (length (response_frame r)) = 16 + (16 + 16 + image_data_len r).
Proof.
  intros Hi Hl. unfold response_frame, be16, be32, be64. rewrite Hi.
  rewrite !length_app, !length_be_bytes, length_firstn. lia.
Qed.

Section HandlerExtra2.
Context {C : Type} `{Engine C}.

(** [handle_connection] once the request has been received. *)
Lemma handle_connection_received fd (w : world C) :
  request_received w ->
  handle_connection fd w =
  if negb (is_ERR_NONE (fst (decoded w))) then
    (0, snd (send_error_response fd 0 (fst (decoded w)) msg_invalid_request
               (after_payload w))) else
  if negb (is_ERR_NONE (generate_status w)) then
    (0, snd (send_error_response fd (echoed_request_id w)
               (generate_status w) msg_generation_failed
               (after_generate w))) else
  if negb (response_buffer_obtained w) then (-1, before_reply w) else
  if negb (is_ERR_NONE (fst (encoded w))) then (-1, before_reply w) else
  (if negb (reply_status w =? 0) then -1 else 0, after_reply w).
Proof.
  intros ((Hh & Hm & Hp) & Hb & Hs).
  rewrite handle_connection_stages, Hh, Hm, Hb, Hs.
  cbn [Z.eqb Pos.eqb PROTOCOL_MAGIC negb].
  destruct (Z.gtb_spec (claimed_payload_len w) (MAX_REQUEST_SIZE - 16));
    [lia|reflexivity].
Qed.

Lemma stages_received (w : world C) :
  negb (header_status w =? 0) = false ->
  negb (claimed_magic w =? PROTOCOL_MAGIC) = false ->
  (claimed_payload_len w >? MAX_REQUEST_SIZE - 16) = false ->
  negb (buffer_obtained w) = false ->
  negb (payload_status w =? 0) = false ->
  request_received w.
Proof.
  intros H1 H2 H3 H4 H5.
  apply negb_false_iff in H1, H2, H4, H5.
  apply Z.eqb_eq in H1, H2, H5.
  destruct (Z.gtb_spec (claimed_payload_len w) (MAX_REQUEST_SIZE - 16));
    [discriminate H3|].
  repeat split; assumption.
Qed.

(** X16.  Connection errors are silent: whenever the handler returns -1 for
    another reason than a failed write of a response that was ready,
    nothing at all has been written to the peer. *)
Theorem handle_connection_silent_exit (fd : Z) (w : world C) :
  fst (handle_connection fd w) = -1 ->
  ~ response_ready w ->
  sent (snd (handle_connection fd w)) = sent w
  /\ wr (snd (handle_connection fd w)) = wr w.
Proof.
  rewrite handle_connection_stages. intros Hout Hnot.
  destruct (negb (header_status w =? 0)) eqn:E1; [split; reflexivity|].
  destruct (negb (claimed_magic w =? PROTOCOL_MAGIC)) eqn:E2;
    [discriminate Hout|].
  destruct (claimed_payload_len w >? MAX_REQUEST_SIZE - 16) eqn:E3;
    [discriminate Hout|].
  destruct (negb (buffer_obtained w)) eqn:E4; [split; reflexivity|].
  destruct (negb (payload_status w =? 0)) eqn:E5; [split; reflexivity|].
  pose proof (stages_received w E1 E2 E3 E4 E5) as Hrecv.
  destruct (negb (is_ERR_NONE (fst (decoded w)))) eqn:E6;
    [discriminate Hout|].
  destruct (negb (is_ERR_NONE (generate_status w))) eqn:E7;
    [discriminate Hout|].
  destruct (negb (response_buffer_obtained w)) eqn:E8; [split; reflexivity|].
  destruct (negb (is_ERR_NONE (fst (encoded w)))) eqn:E9;
    [split; reflexivity|].
  exfalso. apply Hnot.
  apply negb_false_iff in E6, E7, E8, E9.
  apply is_ERR_NONE_true in E6, E7, E9.
  repeat split; try assumption; apply Hrecv.
Qed.

(** X17.  A malformed request never reaches the engine: the engine handle
    and the pipeline's state are as before.  When it is the header that
    is rejected (wrong magic or too large a payload claim), no buffer
    has been asked for either, and only the 16 bytes of the header have
    been taken from the stream. *)
Theorem handle_connection_malformed_isolated (fd : Z) (w : world C) :
  malformed_request w ->
  g_sd_ctx (snd (handle_connection fd w)) = g_sd_ctx w
  /\ pipeline_state (snd (handle_connection fd w)) = pipeline_state w
  /\ (~ request_received w ->
      heap (snd (handle_connection fd w)) = heap w
      /\ data_of (rd w)
         = header_bytes w ++ data_of (rd (snd (handle_connection fd w)))
      /\ length (header_bytes w) = 16%nat).
Proof.
  intros (Hh & Hcase).
  assert (Hmsg : forall rid e msg (w0 : world C),
            (length msg <= 4062)%nat ->
            rd (snd (send_error_response fd rid e msg w0)) = rd w0
            /\ heap (snd (send_error_response fd rid e msg w0)) = heap w0
            /\ g_sd_ctx (snd (send_error_response fd rid e msg w0))
               = g_sd_ctx w0
            /\ pipeline_state (snd (send_error_response fd rid e msg w0))
               = pipeline_state w0).
  { intros rid e msg w0 Hlen.
    destruct (send_error_response_wire fd rid e msg w0 Hlen)
      as (n & _ & _ & H1 & H2 & H3 & H4). auto. }
  assert (Hhdr : data_of (rd w) = header_bytes w ++ data_of (rd (after_header w))
                 /\ length (header_bytes w) = 16%nat).
  { destruct (read_full_stream (rd w) [] 0 16 ltac:(lia))
      as (taken & Hb & Hd & Hr).
    unfold header_bytes, after_header, header_status, header_read in *.
    cbn [with_rd rd]. rewrite Hb. cbn [app].
    split; [exact Hd|]. destruct Hr as [[_ Hr]|[Hr _]]; lia. }
  destruct Hcase as [Hm|[(Hm & Hp)|(Hr & Hd)]].
  - rewrite handle_connection_stages, Hh. cbn [Z.eqb negb].
    destruct (Z.eqb_spec (claimed_magic w) PROTOCOL_MAGIC); [contradiction|].
    cbn [negb snd].
    destruct (Hmsg 0 ERR_INVALID_MAGIC msg_invalid_magic (after_header w)
                ltac:(cbn; lia)) as (H1 & H2 & H3 & H4).
    rewrite H1, H2, H3, H4. repeat split; apply Hhdr.
  - rewrite handle_connection_stages, Hh, Hm.
    cbn [Z.eqb Pos.eqb PROTOCOL_MAGIC negb].
    destruct (Z.gtb_spec (claimed_payload_len w) (MAX_REQUEST_SIZE - 16));
      [|lia].
    cbn [snd].
    destruct (Hmsg 0 ERR_INTERNAL msg_payload_too_large (after_header w)
                ltac:(cbn; lia)) as (H1 & H2 & H3 & H4).
    rewrite H1, H2, H3, H4. repeat split; apply Hhdr.
  - rewrite (handle_connection_received fd w Hr),
      (is_ERR_NONE_false _ Hd). cbn [negb snd].
    destruct (Hmsg 0 (fst (decoded w)) msg_invalid_request (after_payload w)
                ltac:(cbn; lia)) as (H1 & H2 & H3 & H4).
    rewrite H3, H4. split; [reflexivity|]. split; [reflexivity|].
    intros Hn. contradiction.
Qed.

End HandlerExtra2.

Section HandlerExtra3.
Context {C : Type} `{Engine C}.

Lemma rd_after_request fd (w : world C) :
  request_received w ->
  rd (snd (handle_connection fd w)) = rd (after_payload w).
Proof.
  intros Hr. rewrite (handle_connection_received fd w Hr).
  destruct (negb (is_ERR_NONE (fst (decoded w)))).
  { cbn [snd].
    now destruct (send_error_response_wire fd 0 (fst (decoded w))
                    msg_invalid_request (after_payload w) ltac:(cbn; lia))
      as (n & _ & _ & -> & _). }
  destruct (negb (is_ERR_NONE (generate_status w))).
  { cbn [snd].
    now destruct (send_error_response_wire fd (echoed_request_id w)
                    (generate_status w) msg_generation_failed
                    (after_generate w) ltac:(cbn; lia))
      as (n & _ & _ & -> & _). }
  destruct (negb (response_buffer_obtained w)); [reflexivity|].
  destruct (negb (is_ERR_NONE (fst (encoded w)))); reflexivity.
Qed.

(** X18.  A request that is received takes exactly its frame from the
    stream: the buffer the decoder is given holds the 16 header bytes
    followed by the payload, 16 + payload length bytes in all, these are
    the first bytes the peer sent, and what follows them is left for the
    next request, whatever becomes of this one. *)
Theorem handle_connection_takes_one_frame (fd : Z) (w : world C) :
  request_received w ->
  Z.of_nat (length (received w)) = 16 + claimed_payload_len w
  /\ firstn 16 (received w) = header_bytes w
  /\ data_of (rd w)
     = received w ++ data_of (rd (snd (handle_connection fd w))).
Proof.
  intros Hr. rewrite (rd_after_request fd w Hr).
  destruct Hr as ((Hh & Hm & Hp) & Hb & Hs).
  pose proof (be_field_4_range (header_bytes w) 8) as Hrange.
  fold (claimed_payload_len w) in Hrange.
  destruct (read_full_stream (rd w) [] 0 16 ltac:(lia))
    as (hdr & Hhb & Hhd & Hhr).
  fold (header_read w) in Hhb, Hhd, Hhr.
  fold (header_bytes w) in Hhb. fold (header_status w) in Hhr.
  cbn [app] in Hhb. symmetry in Hhb. subst hdr.
  destruct Hhr as [[_ Hlen]|[Hbad _]]; [|lia].
  unfold received, payload_status, after_payload in *.
  unfold payload_read in *.
  change (rd (snd (alloc (after_header w)))) with (snd (header_read w)) in *.
  destruct (Z.gtb_spec (claimed_payload_len w) 0) as [Hpos|Hzero].
  - destruct (read_full_stream (snd (header_read w)) (header_bytes w) 0
                (claimed_payload_len w) ltac:(lia))
      as (pl & Hpb & Hpd & Hpr).
    destruct Hpr as [[_ Hplen]|[Hbad _]]; [|lia].
    cbn [with_rd rd]. rewrite Hpb, Hhd, Hpd, length_app.
    split; [lia|]. split; [|now rewrite app_assoc].
    rewrite firstn_app. replace (16 - length (header_bytes w))%nat with 0%nat by lia.
    rewrite firstn_O, app_nil_r. apply firstn_all2. lia.
  - cbn [fst snd with_rd rd]. rewrite Hhd.
    split; [lia|]. split; [apply firstn_all2; lia|reflexivity].
Qed.

(** X19.  The reply to a request that was served: when the response is ready
    and its write goes through, the handler returns 0 and what the peer
    receives is the response frame, nothing before it and nothing
    after. *)
Theorem handle_connection_reply
    (fd : Z) (w : world C) (r : sd35_generate_response_t)
    (image : list byte) :
  response_ready w ->
  response w = Some r ->
  image_data r = Some image ->
  image_data_len r <= Z.of_nat (length image) ->
  reply_status w = 0 ->
  fst (handle_connection fd w) = 0
  /\ sent (snd (handle_connection fd w)) = sent w ++ response_frame r
  /\ Z.of_nat (length (response_frame r)) = 16 + 16 + 16 + image_data_len r.
Proof.
  intros (Hrecv & Hd & Hg & Hb & He) Hresp Hi Hlen Hs.
  rewrite (handle_connection_received fd w Hrecv), Hd, Hg, Hb, He, Hs.
  cbn [is_ERR_NONE negb Z.eqb fst snd]. split; [reflexivity|].
  unfold reply_status, reply_written in Hs.
  unfold after_reply, reply_written. cbn [with_wr sent].
  change (sent (before_reply w)) with (sent w) in *.
  unfold response_memory, encoded in *. rewrite Hresp in *.
  set (size := response_buf_size w) in *.
  pose proof (encode_generate_response_value r image 0 size Hi) as Hval.
  rewrite He in Hval. symmetry in Hval.
  assert (Hfacts : 0 <= image_data_len r
                   /\ 16 + (16 + 16 + image_data_len r) <= size).
  { revert Hval. unfold encode_response_verdict.
    destruct (response_valid r) eqn:Ev; [|discriminate]. cbn [negb].
    destruct (Z.gtb_spec (16 + (16 + 16 + image_data_len r))
                (10 * 1024 * 1024)); [discriminate|].
    destruct (Z.gtb_spec (16 + (16 + 16 + image_data_len r)) size);
      [discriminate|].
    intros _. split; [|lia].
    unfold response_valid in Ev.
    apply andb_true_iff in Ev. destruct Ev as [Ev Eq].
    apply andb_true_iff in Ev. destruct Ev as [Ev _].
    apply andb_true_iff in Ev. destruct Ev as [Ev Ec].
    apply andb_true_iff in Ev. destruct Ev as [Ew Eh].
    apply dimension_ok_range in Ew, Eh. apply Z.eqb_eq in Eq.
    apply orb_true_iff in Ec.
    destruct Ec as [Ec|Ec]; apply Z.eqb_eq in Ec; nia. }
  destruct Hfacts as [H0 Hfit].
  pose proof (length_response_frame_le r image Hi ltac:(lia)) as Hfl.
  rewrite (encode_generate_response_stores r image 0 size Hi Hlen Hval) in *.
  set (buf0 := firstn (Z.to_nat size)
                 (received w ++ repeat Byte.x00 (Z.to_nat size))) in *.
  assert (Hbl : length buf0 = Z.to_nat size).
  { unfold buf0. rewrite length_firstn, length_app, repeat_length. lia. }
  rewrite apply_stores_app, apply_stores_at_start in * by lia.
  cbn [apply_stores fold_left apply_store fst snd] in *.
  set (buf := poke 0 (response_frame r) buf0) in *.
  set (len := 16 + (16 + 16 + image_data_len r)) in *.
  destruct (write_full_progress buf len (wr (before_reply w)) (sent w) 0
              ltac:(lia)) as (t' & Ht & Hsent & Hok).
  rewrite Hsent. rewrite Hs in Hok.
  destruct Hok as [[_ ->]|[Hbad _]]; [|discriminate Hbad].
  rewrite Z.sub_0_r. cbn [Z.to_nat skipn].
  split; [|lia]. f_equal. unfold buf.
  rewrite firstn_poke_start by lia. apply firstn_all2. lia.
Qed.

End HandlerExtra3.

Lemma served_world_ready : response_ready served_world.
Proof. repeat split; try reflexivity. discriminate. Qed.

Lemma handle_connection_reply_witness :
  fst (handle_connection 0 served_world) = 0
  /\ sent (snd (handle_connection 0 served_world))
     = sent served_world ++ response_frame small_response
  /\ Z.of_nat (length (response_frame small_response)) = 16 + 16 + 16 + 12288.
Proof.
  apply (handle_connection_reply 0 served_world small_response
           (repeat Byte.x00 (Z.to_nat 12288))).
  - exact served_world_ready.
  - reflexivity.
  - reflexivity.
  - rewrite repeat_length. cbn [image_data_len small_response]. lia.
  - reflexivity.
Defined.

Lemma handle_connection_takes_one_frame_witness :
  Z.of_nat (length (received served_world)) = 16 + 102
  /\ firstn 16 (received served_world) = header_bytes served_world
  /\ data_of (rd served_world)
     = received served_world
       ++ data_of (rd (snd (handle_connection 0 served_world))).
Proof.
  apply (handle_connection_takes_one_frame 0 served_world).
  apply served_world_ready.
Defined.

Lemma handle_connection_silent_exit_witness :
  sent (snd (handle_connection 0
               (scenario_world (mk_mock SD_WRAPPER_OK None 0)
                  [RdData (firstn 100 small_request)] [WrAccept 4096])))
  = []
  /\ wr (snd (handle_connection 0
                (scenario_world (mk_mock SD_WRAPPER_OK None 0)
                   [RdData (firstn 100 small_request)] [WrAccept 4096])))
     = [WrAccept 4096].
Proof.
  apply (handle_connection_silent_exit 0
           (scenario_world (mk_mock SD_WRAPPER_OK None 0)
              [RdData (firstn 100 small_request)] [WrAccept 4096])).
  - vm_compute. reflexivity.
  - intros ((_ & _ & Hs) & _). vm_compute in Hs. discriminate Hs.
Defined.

Lemma handle_connection_malformed_isolated_witness :
  g_sd_ctx (snd (handle_connection 0
                   (scenario_world (mk_mock SD_WRAPPER_OK None 0)
                      [RdData (poke 0 [Byte.xde; Byte.xad] small_request)]
                      [WrAccept 4096])))
  = Some (mk_mock SD_WRAPPER_OK None 0).
Proof.
  apply (handle_connection_malformed_isolated 0
           (scenario_world (mk_mock SD_WRAPPER_OK None 0)
              [RdData (poke 0 [Byte.xde; Byte.xad] small_request)]
              [WrAccept 4096])).
  split; [vm_compute; reflexivity|]. left. vm_compute. discriminate.
Defined.

(** ** Socket creation, connection and removal *)

Import SocketSetup SetupSpec.

Lemma strlen_app a b : strlen (a ++ b) = strlen a + strlen b.
Proof. unfold strlen. rewrite length_app. lia. Qed.

Lemma strlen_socket_path x : strlen (socket_path_of x) = strlen x + 17.
Proof.
  unfold socket_path_of. rewrite !strlen_app. unfold strlen. cbn. lia.
Qed.

Lemma strlen_dir_path x : strlen (dir_path_of x) = strlen x + 6.
Proof.
  unfold dir_path_of. rewrite !strlen_app. unfold strlen. cbn. lia.
Qed.

Lemma strlen_nonneg s : 0 <= strlen s.
Proof. unfold strlen. lia. Qed.

Lemma socket_get_path_ok xdg buf size :
  fst (socket_get_path xdg (Some buf) size) = SOCKET_OK <->
  exists x, xdg = Some x /\ x <> []
            /\ strlen x + 18 <= size /\ strlen x + 18 <= SOCKET_PATH_MAX.
Proof.
  unfold socket_get_path.
  destruct xdg as [[|b x]|].
  - split; [discriminate|]. intros (x & [= <-] & Hx & _). now elim Hx.
  - set (s := b :: x).
    fold (socket_path_of s). unfold snprintf.
    rewrite strlen_socket_path.
    pose proof (strlen_nonneg s) as H0.
    replace (strlen SOCKET_DIR_NAME) with 5 by reflexivity.
    replace (strlen SOCKET_FILE_NAME) with 10 by reflexivity.
    unfold SOCKET_PATH_MAX, INT_MAX, wrap64.
    destruct (Z.ltb_spec (strlen s) (2 ^ 64 - 18)) as [Hsmall|Hbig].
    + rewrite Z.mod_small by lia.
      destruct (Z.gtb_spec (strlen s + 1 + 5 + 1 + 10 + 1) size);
        destruct (Z.gtb_spec (strlen s + 1 + 5 + 1 + 10 + 1) 108);
        cbn [orb fst].
      1-3: split; [discriminate|]; intros (x' & [= <-] & _ & Ha & Hb); lia.
      destruct (Z.gtb_spec (strlen s + 17) 2147483647); [lia|].
      destruct (Z.ltb_spec (strlen s + 17) 0); [lia|].
      destruct (Z.geb_spec (strlen s + 17) size); [lia|]. cbn [orb fst].
      split; [|reflexivity]. intros _. exists s.
      repeat split; try lia. discriminate.
    + assert (Hx : ~ exists x0, Some s = Some x0 /\ x0 <> []
                     /\ strlen x0 + 18 <= size /\ strlen x0 + 18 <= 108).
      { intros (x' & [= <-] & _ & _ & Hb). lia. }
      destruct (_ || _); [split; [discriminate|contradiction]|].
      destruct (Z.gtb_spec (strlen s + 17) 2147483647); [|lia].
      cbn [Z.ltb Z.compare orb fst]. split; [discriminate|contradiction].
  - split; [discriminate|]. intros (x & [= ] & _).
Qed.

Lemma socket_get_path_value xdg buf size x :
  fst (socket_get_path xdg (Some buf) size) = SOCKET_OK ->
  xdg = Some x ->
  snd (socket_get_path xdg (Some buf) size) = Some (socket_path_of x).
Proof.
  intros Hok ->. pose proof Hok as Hx.
  apply socket_get_path_ok in Hx.
  destruct Hx as (x' & [= <-] & Hne & Ha & Hb).
  revert Hok. unfold socket_get_path.
  destruct x as [|b x]; [now elim Hne|].
  set (s := b :: x). fold (socket_path_of s).
  destruct (_ || _); [discriminate|].
  unfold snprintf.
  destruct (_ || _); [discriminate|]. intros _. cbn [snd]. f_equal.
  apply firstn_all2. pose proof (strlen_socket_path s) as Hl.
  subst s. unfold strlen in *. lia.
Qed.

Lemma socket_get_dir_path_fits x buf size :
  x <> [] -> strlen x + 7 <= size -> strlen x < 2 ^ 31 - 6 ->
  socket_get_dir_path (Some x) (Some buf) size
  = (SOCKET_OK, Some (dir_path_of x)).
Proof.
  intros Hne Hfit Hint. unfold socket_get_dir_path.
  destruct x as [|b x]; [now elim Hne|].
  set (s := b :: x) in *. fold (dir_path_of s). unfold snprintf.
  rewrite strlen_dir_path. pose proof (strlen_nonneg s) as H0.
  replace (strlen SOCKET_DIR_NAME) with 5 by reflexivity.
  unfold INT_MAX, wrap64. rewrite Z.mod_small by lia.
  destruct (Z.gtb_spec (strlen s + 1 + 5 + 1) size); [lia|].
  destruct (Z.gtb_spec (strlen s + 6) 2147483647); [lia|].
  destruct (Z.ltb_spec (strlen s + 6) 0); [lia|].
  destruct (Z.geb_spec (strlen s + 6) size); [lia|]. cbn [orb].
  f_equal. f_equal. apply firstn_all2.
  pose proof (strlen_dir_path s) as Hl. unfold strlen in *. lia.
Qed.

(** X20.  [socket_get_path] succeeds exactly when the variable is set, not
    empty, and the path with its terminator fits both the buffer and the
    108 bytes of a socket address.  The path is then
    "$XDG_RUNTIME_DIR/weave/weave.sock".  A NULL buffer gives
    NULL_POINTER, an unset or empty variable XDG_NOT_SET with the buffer
    untouched, and the only other error is PATH_TOO_LONG. *)
Theorem socket_get_path_result
    (xdg : option (list byte)) (path_buf : option (list byte)) (size : Z) :
  let out := socket_get_path xdg path_buf size in
  (fst out = SOCKET_OK <->
     exists buf x, path_buf = Some buf /\ xdg = Some x /\ x <> []
                   /\ strlen x + 18 <= size
                   /\ strlen x + 18 <= SOCKET_PATH_MAX)
  /\ (forall x, fst out = SOCKET_OK -> xdg = Some x ->
        snd out = Some (socket_path_of x)
        /\ strlen (socket_path_of x) < size
        /\ strlen (socket_path_of x) < SUN_PATH_SIZE)
  /\ (path_buf = None -> out = (SOCKET_ERR_NULL_POINTER, None))
  /\ (path_buf <> None -> xdg = None \/ xdg = Some [] ->
        out = (SOCKET_ERR_XDG_NOT_SET, path_buf))
  /\ In (fst out) [SOCKET_OK; SOCKET_ERR_NULL_POINTER; SOCKET_ERR_XDG_NOT_SET;
                   SOCKET_ERR_PATH_TOO_LONG].
Proof.
  cbv zeta. destruct path_buf as [buf|].
  2:{ cbn. split; [|repeat split; auto; try discriminate].
      - split; [discriminate|]. intros (b & x & [=] & _).
      - intros Hn. now elim Hn. }
  split; [|split; [|split; [|split]]].
  - rewrite socket_get_path_ok. split.
    + intros (x & Hx). exists buf, x. now split.
    + intros (b & x & _ & Hx). now exists x.
  - intros x Hok Hx. split; [now apply socket_get_path_value|].
    apply socket_get_path_ok in Hok.
    destruct Hok as (x' & Hx' & _ & Ha & Hb).
    rewrite Hx in Hx'. injection Hx' as <-.
    rewrite strlen_socket_path. unfold SOCKET_PATH_MAX, SUN_PATH_SIZE in *.
    lia.
  - discriminate.
  - intros _ [->| ->]; reflexivity.
  - unfold socket_get_path.
    repeat match goal with
    | |- context [match ?x with _ => _ end] => destruct x
    end; cbn [fst In]; auto.
Qed.

Lemma socket_get_path_result_witness :
  snd (socket_get_path (Some run_user_1000) (Some []) 108)
  = Some (socket_path_of run_user_1000)
  /\ strlen (socket_path_of run_user_1000) < 108
  /\ strlen (socket_path_of run_user_1000) < SUN_PATH_SIZE.
Proof.
  apply (proj1 (proj2 (socket_get_path_result (Some run_user_1000) (Some [])
                         108)) run_user_1000);
    reflexivity.
Defined.

(** X21.  The directory [socket_get_dir_path] names is the one the socket
    lies in, and it fits whenever the socket path does: after a
    successful [socket_get_path], [socket_get_dir_path] with a buffer of
    the same size succeeds, and the socket path is its result followed
    by "/weave.sock". *)
Theorem socket_get_dir_path_agrees
    (xdg : option (list byte)) (buf buf' : list byte) (size : Z) :
  fst (socket_get_path xdg (Some buf) size) = SOCKET_OK ->
  exists x,
    xdg = Some x
    /\ socket_get_dir_path xdg (Some buf') size
       = (SOCKET_OK, Some (dir_path_of x))
    /\ snd (socket_get_path xdg (Some buf) size)
       = Some (dir_path_of x ++ [slash] ++ SOCKET_FILE_NAME).
Proof.
  intros Hok. pose proof Hok as Hx. apply socket_get_path_ok in Hx.
  destruct Hx as (x & -> & Hne & Ha & Hb). exists x.
  split; [reflexivity|]. split.
  - apply socket_get_dir_path_fits; [exact Hne|lia|].
    unfold SOCKET_PATH_MAX in Hb. lia.
  - rewrite (socket_get_path_value _ _ _ x Hok eq_refl).
    unfold socket_path_of, dir_path_of. now rewrite <- !app_assoc.
Qed.

Lemma socket_get_dir_path_agrees_witness :
  exists x,
    Some run_user_1000 = Some x
    /\ socket_get_dir_path (Some run_user_1000) (Some []) 108
       = (SOCKET_OK, Some (dir_path_of x))
    /\ snd (socket_get_path (Some run_user_1000) (Some []) 108)
       = Some (dir_path_of x ++ [slash] ++ SOCKET_FILE_NAME).
Proof.
  apply (socket_get_dir_path_agrees (Some run_user_1000) [] [] 108).
  reflexivity.
Defined.

Lemma open_fds_app a b acc :
  open_fds (a ++ b) acc = open_fds b (open_fds a acc).
Proof.
  revert acc; induction a as [|[c r] a IH]; intros acc; cbn [app open_fds].
  - reflexivity.
  - destruct c; apply IH.
Qed.

Lemma unlink_scan_app path may a b :
  unlink_scan path may (a ++ b)
  = match unlink_scan path may a with
    | Some m => unlink_scan path m b
    | None => None
    end.
Proof.
  revert may; induction a as [|[c r] a IH]; intros may;
    cbn [app unlink_scan].
  - reflexivity.
  - destruct c; try apply IH.
    destruct (may && path_eqb path0 path); [apply IH|reflexivity].
Qed.

Lemma path_eqb_refl p : path_eqb p p = true.
Proof. unfold path_eqb. destruct (list_eq_dec _ p p); congruence. Qed.

Lemma remove_last fd : remove Z.eq_dec fd [fd] = [].
Proof. cbn. destruct (Z.eq_dec fd fd); congruence. Qed.

Lemma extends_refl p : extends p p [].
Proof. split; [now rewrite app_nil_r|reflexivity]. Qed.

Lemma extends_trans p p' p'' a b :
  extends p p' a -> extends p' p'' b -> extends p p'' (a ++ b).
Proof.
  intros [Ha Hx] [Hb Hy]. split; [|congruence].
  now rewrite Hb, Ha, app_assoc.
Qed.

Lemma sys_run c p :
  extends p (snd (sys c p)) [(c, rc (fst (sys c p)))]
  /\ g_socket_path (snd (sys c p)) = g_socket_path p.
Proof. repeat split. Qed.

Ltac run_sys c p r p' :=
  let Hext := fresh "Hext" in
  let Hg := fresh "Hg" in
  let Herr := fresh "Herr" in
  destruct (sys_run c p) as [Hext Hg];
  assert (Herr : errno (snd (sys c p))
                 = if rc (fst (sys c p)) <? 0 then res_errno (fst (sys c p))
                   else errno p) by reflexivity;
  destruct (sys c p) as [r p']; cbn [fst snd] in Hext, Hg, Herr.

Lemma create_socket_directory_run dir p :
  exists tr,
    extends p (snd (create_socket_directory dir p)) tr
    /\ g_socket_path (snd (create_socket_directory dir p)) = g_socket_path p
    /\ (forall acc, open_fds tr acc = acc)
    /\ (forall path may, unlink_scan path may tr = Some may).
Proof.
  unfold create_socket_directory, sys_bind, get_errno, sys_ret.
  run_sys (Sys_stat dir) p st p1.
  destruct (rc st =? 0).
  - destruct (S_ISDIR (st_mode st)); cbn [snd].
    + destruct (negb (Z.land (st_mode st) MODE_0777 =? MODE_0700)).
      * run_sys (Sys_chmod dir MODE_0700) p1 c p2.
        exists [(Sys_stat dir, rc st); (Sys_chmod dir MODE_0700, rc c)].
        destruct (negb (rc c =? 0)); cbn [snd];
          (split; [exact (extends_trans _ _ _ _ _ Hext Hext0)|]);
          (split; [congruence|]); split; reflexivity.
      * exists [(Sys_stat dir, rc st)]. cbn [snd]. repeat split; auto.
        apply Hext. apply Hext.
    + exists [(Sys_stat dir, rc st)]. repeat split; auto.
      apply Hext. apply Hext.
  - run_sys (Sys_mkdir dir MODE_0700) p1 m p2.
    exists [(Sys_stat dir, rc st); (Sys_mkdir dir MODE_0700, rc m)].
    destruct (negb (rc m =? 0)); [destruct (errno_eqb (errno p2) EEXIST)|];
      cbn [snd];
      (split; [exact (extends_trans _ _ _ _ _ Hext Hext0)|]);
      (split; [congruence|]); split; reflexivity.
Qed.

Lemma is_socket_stale_run path p :
  exists tr,
    extends p (snd (is_socket_stale path p)) tr
    /\ g_socket_path (snd (is_socket_stale path p)) = g_socket_path p
    /\ open_fds tr [] = []
    /\ (forall may,
          unlink_scan path may tr
          = Some (may || (fst (is_socket_stale path p) =? 1)))
    /\ (fst (is_socket_stale path p) = 0 \/ fst (is_socket_stale path p) = 1).
Proof.
  unfold is_socket_stale, sys_bind, sys_ret.
  run_sys (Sys_stat path) p st p1.
  destruct (negb (rc st =? 0)); cbn [fst snd].
  { exists [(Sys_stat path, rc st)]. repeat split; auto; try apply Hext.
    intros may. cbn. now rewrite orb_false_r. }
  destruct (negb (S_ISSOCK (st_mode st))); cbn [fst snd].
  { exists [(Sys_stat path, rc st)]. repeat split; auto; try apply Hext.
    intros may. cbn. now rewrite orb_false_r. }
  run_sys Sys_socket p1 s p2.
  destruct (rc s <? 0) eqn:Efd; cbn [fst snd].
  { exists [(Sys_stat path, rc st); (Sys_socket, rc s)].
    split; [exact (extends_trans _ _ _ _ _ Hext Hext0)|].
    split; [congruence|]. cbn [open_fds unlink_scan]. rewrite Efd.
    repeat split; auto. intros may. cbn. now rewrite orb_false_r. }
  destruct (strlen path >=? SUN_PATH_SIZE).
  { run_sys (Sys_close (rc s)) p2 c p3. cbn [fst snd].
    exists [(Sys_stat path, rc st); (Sys_socket, rc s);
            (Sys_close (rc s), rc c)].
    split; [exact (extends_trans _ _ _ _ _ Hext
                     (extends_trans _ _ _ _ _ Hext0 Hext1))|].
    split; [congruence|]. cbn [open_fds unlink_scan app]. rewrite Efd.
    rewrite remove_last.
    repeat split; auto. intros may. cbn. now rewrite orb_false_r. }
  run_sys (Sys_connect (rc s) path) p2 c p3.
  run_sys (Sys_close (rc s)) p3 d p4.
  assert (Hall : extends p p4
            [(Sys_stat path, rc st); (Sys_socket, rc s);
             (Sys_connect (rc s) path, rc c); (Sys_close (rc s), rc d)])
    by exact (extends_trans _ _ _ _ _ Hext
                (extends_trans _ _ _ _ _ Hext0
                   (extends_trans _ _ _ _ _ Hext1 Hext2))).
  exists [(Sys_stat path, rc st); (Sys_socket, rc s);
          (Sys_connect (rc s) path, rc c); (Sys_close (rc s), rc d)].
  cbn [open_fds unlink_scan app]. rewrite Efd, remove_last, path_eqb_refl.
  destruct (rc c =? 0); cbn [fst snd negb andb Z.eqb];
    (split; [exact Hall|]); (split; [congruence|]); repeat split; auto;
    try (intros may; now rewrite orb_false_r).
Qed.

Lemma remove_stale_socket_run path p :
  extends p (snd (remove_stale_socket path p))
    [(Sys_unlink path, rc (fst (sys (Sys_unlink path) p)))]
  /\ g_socket_path (snd (remove_stale_socket path p)) = g_socket_path p.
Proof.
  unfold remove_stale_socket, sys_bind, get_errno, sys_ret.
  run_sys (Sys_unlink path) p u p1.
  destruct (_ && _); cbn [snd]; split; assumption.
Qed.

Lemma create_and_bind_socket_run path p :
  exists tr,
    extends p (snd (create_and_bind_socket path p)) tr
    /\ g_socket_path (snd (create_and_bind_socket path p)) = g_socket_path p
    /\ (fst (create_and_bind_socket path p) = -1
        /\ open_fds tr [] = []
        /\ (forall may, unlink_scan path may tr = Some may)
        \/ 0 <= fst (create_and_bind_socket path p)
           /\ tr = [(Sys_socket, fst (create_and_bind_socket path p));
                    (Sys_bind (fst (create_and_bind_socket path p)) path, 0)]).
Proof.
  unfold create_and_bind_socket, sys_bind, sys_ret.
  run_sys Sys_socket p s p1.
  destruct (rc s <? 0) eqn:Efd; cbn [fst snd].
  { exists [(Sys_socket, rc s)]. repeat split; auto; try apply Hext.
    left. cbn [open_fds unlink_scan]. rewrite Efd. repeat split. }
  run_sys (Sys_bind (rc s) path) p1 b p2.
  destruct (Z.eqb_spec (rc b) 0) as [Hb|Hb]; cbn [negb fst snd].
  - exists [(Sys_socket, rc s); (Sys_bind (rc s) path, rc b)].
    split; [exact (extends_trans _ _ _ _ _ Hext Hext0)|].
    split; [congruence|]. right. apply Z.ltb_ge in Efd.
    split; [exact Efd|]. now rewrite Hb.
  - run_sys (Sys_close (rc s)) p2 c p3. cbn [fst snd].
    exists [(Sys_socket, rc s); (Sys_bind (rc s) path, rc b);
            (Sys_close (rc s), rc c)].
    split; [exact (extends_trans _ _ _ _ _ Hext
                     (extends_trans _ _ _ _ _ Hext0 Hext1))|].
    split; [congruence|]. left. cbn [open_fds unlink_scan].
    rewrite Efd, remove_last. split; [reflexivity|].
    split; [reflexivity|]. intros may.
    destruct (Z.eqb_spec (rc b) 0); [contradiction|].
    now rewrite andb_false_r, orb_false_r.
Qed.

(** X22.  [socket_connect] leaves no descriptor behind when it fails: the
    socket it opened is closed again and [*connected_fd] is -1.  When it
    succeeds the descriptor it returns is the one it opened and
    connected to the path, which fits a socket address.  NULL arguments
    are refused before anything is done. *)
Theorem socket_connect_outcome (path : list byte) (old : Z) (p : process) :
  let out := socket_connect (Some path) (Some old) p in
  (forall fd, socket_connect None fd p = (SOCKET_ERR_NULL_POINTER, fd, p)
              /\ socket_connect (Some path) None p
                 = (SOCKET_ERR_NULL_POINTER, None, p))
  /\ exists tr,
       extends p (snd out) tr
       /\ match fst out with
          | (SOCKET_OK, fd) =>
              exists f, fd = Some f /\ 0 <= f
                        /\ strlen path < SUN_PATH_SIZE
                        /\ tr = [(Sys_socket, f); (Sys_connect f path, 0)]
          | (e, fd) =>
              fd = Some (-1) /\ open_fds tr [] = []
              /\ In e [SOCKET_ERR_PATH_TOO_LONG; SOCKET_ERR_SOCKET_FAILED;
                       SOCKET_ERR_CONNECT_FAILED]
          end.
Proof.
  cbv zeta. split; [intros fd; split; reflexivity|].
  unfold socket_connect, sys_bind, sys_ret.
  destruct (Z.geb_spec (strlen path) SUN_PATH_SIZE) as [Hlong|Hfits].
  { exists []. cbn [fst snd]. split; [apply extends_refl|].
    cbn [open_fds In]. repeat split; auto 10. }
  run_sys Sys_socket p s p1.
  destruct (rc s <? 0) eqn:Efd; cbn [fst snd].
  { exists [(Sys_socket, rc s)]. split; [exact Hext|].
    cbn [open_fds In]. rewrite Efd. repeat split; auto 10. }
  run_sys (Sys_connect (rc s) path) p1 c p2.
  destruct (Z.eqb_spec (rc c) 0) as [Hc|Hc]; cbn [negb fst snd].
  - exists [(Sys_socket, rc s); (Sys_connect (rc s) path, rc c)].
    split; [exact (extends_trans _ _ _ _ _ Hext Hext0)|].
    exists (rc s). apply Z.ltb_ge in Efd. rewrite Hc. repeat split; auto.
  - run_sys (Sys_close (rc s)) p2 d p3. cbn [fst snd].
    exists [(Sys_socket, rc s); (Sys_connect (rc s) path, rc c);
            (Sys_close (rc s), rc d)].
    split; [exact (extends_trans _ _ _ _ _ Hext
                     (extends_trans _ _ _ _ _ Hext0 Hext1))|].
    cbn [open_fds In]. rewrite Efd, remove_last. repeat split; auto 10.
Qed.

Lemma socket_create_run (old : Z) (p : process) :
  let out := socket_create (Some old) p in
  exists tr,
    extends p (snd out) tr
    /\ (forall x, xdg_runtime_dir p = Some x ->
          unlink_scan (socket_path_of x) false tr <> None)
    /\ created p (snd out) tr (fst out).
Proof.
  cbv zeta.
  set (Post := fun out : socket_error_t * option Z * process =>
         exists tr,
           extends p (snd out) tr
           /\ (forall x, xdg_runtime_dir p = Some x ->
                 unlink_scan (socket_path_of x) false tr <> None)
           /\ created p (snd out) tr (fst out)).
  change (Post (socket_create (Some old) p)).
  unfold socket_create, path_uninit.
  unfold sys_bind at 1. unfold getenv_XDG_RUNTIME_DIR at 1.
  destruct (socket_get_path (xdg_runtime_dir p) (Some []) SOCKET_PATH_MAX)
    as [err socket_path] eqn:Epath.
  destruct err; cbn [is_SOCKET_OK negb];
    try (exists []; cbn [sys_ret fst snd open_fds unlink_scan created];
         split; [apply extends_refl|]; split; [discriminate|];
         repeat split; reflexivity).
  assert (Hok : fst (socket_get_path (xdg_runtime_dir p) (Some [])
                       SOCKET_PATH_MAX) = SOCKET_OK) by now rewrite Epath.
  pose proof Hok as Hx.
  apply socket_get_path_ok in Hx.
  destruct Hx as (x & Hxdg & Hne & _ & Hfit).
  pose proof (socket_get_path_value _ _ _ x Hok Hxdg) as Hval.
  rewrite Epath in Hval. cbn [snd] in Hval. subst socket_path.
  cbn [path_of]. set (path := socket_path_of x).
  assert (Hlen : strlen path < SUN_PATH_SIZE).
  { unfold path. rewrite strlen_socket_path.
    unfold SOCKET_PATH_MAX, SUN_PATH_SIZE in *. lia. }
  destruct (Z.geb_spec (strlen path) SUN_PATH_SIZE); [lia|].
  unfold sys_bind at 1. unfold getenv_XDG_RUNTIME_DIR at 1.
  rewrite Hxdg.
  rewrite (socket_get_dir_path_fits x [] SOCKET_PATH_MAX Hne)
    by (unfold SOCKET_PATH_MAX in *; lia).
  cbn [is_SOCKET_OK negb path_of].
  (* the directory *)
  unfold sys_bind at 1.
  destruct (create_socket_directory_run (dir_path_of x) p)
    as (tr1 & Hext1 & Hg1 & Hopen1 & Hscan1).
  destruct (create_socket_directory (dir_path_of x) p) as [err1 p1].
  cbn [fst snd] in Hext1, Hg1.
  assert (Hfail : forall e (q : process) tr,
            extends p q tr -> g_socket_path q = g_socket_path p ->
            open_fds tr [] = [] ->
            unlink_scan path false tr <> None ->
            e <> SOCKET_OK ->
            Post (e, Some (-1), q)).
  { intros e q tr Hq Hgq Hopen Hscan He. exists tr. cbn [fst snd].
    split; [exact Hq|]. split.
    - intros x0 Hx0. rewrite Hxdg in Hx0. injection Hx0 as <-. exact Hscan.
    - destruct e; try (now elim He); cbn; auto. }
  destruct (is_SOCKET_OK err1) eqn:Eerr1; cbn [negb].
  2:{ cbn [sys_ret].
      apply (Hfail err1 p1 tr1 Hext1 Hg1 (Hopen1 [])).
      - rewrite Hscan1. discriminate.
      - intros ->. discriminate Eerr1. }
  (* the first probe *)
  unfold sys_bind at 1.
  destruct (is_socket_stale_run path p1)
    as (tr2 & Hext2 & Hg2 & Hopen2 & Hscan2 & Hres2).
  destruct (is_socket_stale path p1) as [stale p2].
  cbn [fst snd] in Hext2, Hg2, Hscan2, Hres2.
  pose proof (extends_trans _ _ _ _ _ Hext1 Hext2) as Hext12.
  assert (Hopen12 : open_fds (tr1 ++ tr2) [] = [])
    by now rewrite open_fds_app, Hopen1.
  assert (Hscan12 : forall may, unlink_scan path may (tr1 ++ tr2)
                                = Some (may || (stale =? 1)))
    by (intros may; now rewrite unlink_scan_app, Hscan1, Hscan2).
  unfold sys_bind at 1.
  (* removal of a stale socket *)
  assert (Hremoved : exists tr3 p3 err3,
            (if negb (stale =? 0) then remove_stale_socket path
             else sys_ret SOCKET_OK) p2 = (err3, p3)
            /\ extends p p3 tr3 /\ g_socket_path p3 = g_socket_path p
            /\ open_fds tr3 [] = []
            /\ unlink_scan path false tr3 = Some false).
  { destruct Hres2 as [-> | ->]; cbn [Z.eqb negb].
    - exists (tr1 ++ tr2), p2, SOCKET_OK. split; [reflexivity|].
      split; [exact Hext12|]. split; [congruence|].
      split; [exact Hopen12|]. now rewrite Hscan12.
    - destruct (remove_stale_socket_run path p2) as [Hext3 Hg3].
      destruct (remove_stale_socket path p2) as [err3 p3].
      cbn [fst snd] in Hext3, Hg3.
      eexists (( tr1 ++ tr2) ++ _), p3, err3. split; [reflexivity|].
      split; [exact (extends_trans _ _ _ _ _ Hext12 Hext3)|].
      split; [congruence|].
      split; [rewrite open_fds_app, Hopen12; reflexivity|].
      rewrite unlink_scan_app, Hscan12. cbn [orb Z.eqb unlink_scan andb].
      now rewrite path_eqb_refl. }
  destruct Hremoved as (tr3 & p3 & err3 & -> & Hext3 & Hg3 & Hopen3 & Hscan3).
  destruct (is_SOCKET_OK err3) eqn:Eerr3; cbn [negb].
  2:{ cbn [sys_ret].
      apply (Hfail SOCKET_ERR_BIND_FAILED p3 tr3 Hext3 Hg3 Hopen3).
      - rewrite Hscan3. discriminate.
      - discriminate. }
  (* the first bind *)
  unfold sys_bind at 1.
  destruct (create_and_bind_socket_run path p3)
    as (tr4 & Hext4 & Hg4 & Hbind4).
  destruct (create_and_bind_socket path p3) as [fd4 p4].
  cbn [fst snd] in Hext4, Hg4, Hbind4.
  pose proof (extends_trans _ _ _ _ _ Hext3 Hext4) as Hext34.
  (* the second attempt *)
  unfold sys_bind at 1.
  assert (Hbound : exists tr5 p5 fd5,
            (if fd4 <? 0 then
               e <~ get_errno ;;
               if errno_eqb e EADDRINUSE then
                 stale0 <~ is_socket_stale path ;;
                 if negb (stale0 =? 0) then
                   r <~ remove_stale_socket path ;;
                   if is_SOCKET_OK r then create_and_bind_socket path
                   else sys_ret fd4
                 else sys_ret fd4
               else sys_ret fd4
             else sys_ret fd4) p4 = (fd5, p5)
            /\ extends p p5 tr5 /\ g_socket_path p5 = g_socket_path p
            /\ (fd5 < 0 /\ open_fds tr5 [] = []
                /\ unlink_scan path false tr5 <> None
                \/ 0 <= fd5
                   /\ exists tr0,
                        tr5 = tr0 ++ [(Sys_socket, fd5);
                                      (Sys_bind fd5 path, 0)]
                        /\ open_fds tr0 [] = []
                        /\ unlink_scan path false tr0 <> None)).
  { destruct Hbind4 as [(-> & Hopen4 & Hscan4)|(Hfd4 & ->)].
    2:{ destruct (Z.ltb_spec fd4 0); [lia|].
        exists (tr3 ++ [(Sys_socket, fd4); (Sys_bind fd4 path, 0)]), p4, fd4.
        split; [reflexivity|]. split; [exact Hext34|].
        split; [congruence|]. right. split; [exact Hfd4|].
        exists tr3. split; [reflexivity|]. split; [exact Hopen3|].
        rewrite Hscan3. discriminate. }
    cbn [Z.ltb Z.compare].
    assert (Hopen34 : open_fds (tr3 ++ tr4) [] = [])
      by now rewrite open_fds_app, Hopen3.
    assert (Hscan34 : unlink_scan path false (tr3 ++ tr4) = Some false)
      by now rewrite unlink_scan_app, Hscan3, Hscan4.
    unfold sys_bind at 1. unfold get_errno.
    destruct (errno_eqb (errno p4) EADDRINUSE).
    2:{ exists (tr3 ++ tr4), p4, (-1). split; [reflexivity|].
        split; [exact Hext34|]. split; [congruence|]. left.
        split; [lia|]. split; [exact Hopen34|].
        rewrite Hscan34. discriminate. }
    unfold sys_bind at 1.
    destruct (is_socket_stale_run path p4)
      as (tr5 & Hext5 & Hg5 & Hopen5 & Hscan5 & Hres5).
    destruct (is_socket_stale path p4) as [stale5 p5].
    cbn [fst snd] in Hext5, Hg5, Hscan5, Hres5.
    pose proof (extends_trans _ _ _ _ _ Hext34 Hext5) as Hext345.
    assert (Hopen345 : open_fds ((tr3 ++ tr4) ++ tr5) [] = [])
      by now rewrite open_fds_app, Hopen34.
    assert (Hscan345 : unlink_scan path false ((tr3 ++ tr4) ++ tr5)
                       = Some (stale5 =? 1))
      by now rewrite unlink_scan_app, Hscan34, Hscan5.
    destruct Hres5 as [-> | ->]; cbn [Z.eqb negb].
    { exists ((tr3 ++ tr4) ++ tr5), p5, (-1). split; [reflexivity|].
      split; [exact Hext345|]. split; [congruence|]. left.
      split; [lia|]. split; [exact Hopen345|].
      rewrite Hscan345. discriminate. }
    unfold sys_bind at 1.
    destruct (remove_stale_socket_run path p5) as [Hext6 Hg6].
    destruct (remove_stale_socket path p5) as [err6 p6].
    cbn [fst snd] in Hext6, Hg6.
    set (tr6 := [(Sys_unlink path, rc (fst (sys (Sys_unlink path) p5)))])
      in *.
    pose proof (extends_trans _ _ _ _ _ Hext345 Hext6) as Hext3456.
    assert (Hopen3456 : open_fds (((tr3 ++ tr4) ++ tr5) ++ tr6) [] = [])
      by (rewrite open_fds_app, Hopen345; reflexivity).
    assert (Hscan3456 : unlink_scan path false
                          (((tr3 ++ tr4) ++ tr5) ++ tr6) = Some false).
    { rewrite unlink_scan_app, Hscan345. unfold tr6.
      cbn [Z.eqb unlink_scan andb]. now rewrite path_eqb_refl. }
    destruct (is_SOCKET_OK err6).
    2:{ exists (((tr3 ++ tr4) ++ tr5) ++ tr6), p6, (-1).
        split; [reflexivity|]. split; [exact Hext3456|].
        split; [congruence|]. left. split; [lia|].
        split; [exact Hopen3456|]. rewrite Hscan3456. discriminate. }
    destruct (create_and_bind_socket_run path p6)
      as (tr7 & Hext7 & Hg7 & Hbind7).
    destruct (create_and_bind_socket path p6) as [fd7 p7].
    cbn [fst snd] in Hext7, Hg7, Hbind7.
    exists ((((tr3 ++ tr4) ++ tr5) ++ tr6) ++ tr7), p7, fd7.
    split; [reflexivity|].
    split; [exact (extends_trans _ _ _ _ _ Hext3456 Hext7)|].
    split; [congruence|].
    destruct Hbind7 as [(-> & Hopen7 & Hscan7)|(Hfd7 & ->)].
    - left. split; [lia|].
      split; [now rewrite open_fds_app, Hopen3456|].
      rewrite unlink_scan_app, Hscan3456, Hscan7. discriminate.
    - right. split; [exact Hfd7|].
      exists (((tr3 ++ tr4) ++ tr5) ++ tr6). split; [reflexivity|].
      split; [exact Hopen3456|]. rewrite Hscan3456. discriminate. }
  destruct Hbound as (tr5 & p5 & fd5 & -> & Hext5 & Hg5 & Hfd5).
  destruct Hfd5 as [(Hneg & Hopen5 & Hscan5)|(Hpos & tr0 & -> & Hopen0 & Hscan0)].
  { destruct (Z.ltb_spec fd5 0); [|lia]. cbn [sys_ret].
    apply (Hfail SOCKET_ERR_BIND_FAILED p5 tr5 Hext5 Hg5 Hopen5 Hscan5).
    discriminate. }
  destruct (Z.ltb_spec fd5 0) as [|Hge]; [lia|].
  assert (Hbase : forall may', unlink_scan path false tr0 = Some may' ->
            unlink_scan path false
              (tr0 ++ [(Sys_socket, fd5); (Sys_bind fd5 path, 0)])
            = Some true).
  { intros may' Hm. rewrite unlink_scan_app, Hm.
    cbn [unlink_scan Z.eqb andb]. rewrite path_eqb_refl.
    now rewrite andb_true_l, orb_true_r. }
  destruct (unlink_scan path false tr0) as [may0|] eqn:Escan0;
    [|now elim Hscan0].
  specialize (Hbase may0 eq_refl).
  assert (Hopenb : open_fds (tr0 ++ [(Sys_socket, fd5);
                                     (Sys_bind fd5 path, 0)]) [] = [fd5]).
  { rewrite open_fds_app, Hopen0. cbn [open_fds].
    destruct (Z.ltb_spec fd5 0); [lia|reflexivity]. }
  set (trb := tr0 ++ [(Sys_socket, fd5); (Sys_bind fd5 path, 0)]) in *.
  (* permissions and listening *)
  unfold sys_bind at 1.
  run_sys (Sys_chmod path MODE_0600) p5 c p6.
  destruct (Z.eqb_spec (rc c) 0) as [Hc|Hc]; cbn [negb].
  2:{ unfold sys_bind at 1. run_sys (Sys_close fd5) p6 d p7.
      unfold sys_bind at 1. run_sys (Sys_unlink path) p7 u p8.
      cbn [sys_ret].
      apply (Hfail SOCKET_ERR_CHMOD_FAILED p8
               (trb ++ [(Sys_chmod path MODE_0600, rc c);
                        (Sys_close fd5, rc d); (Sys_unlink path, rc u)])).
      - exact (extends_trans _ _ _ _ _ Hext5
                 (extends_trans _ _ _ _ _ Hext
                    (extends_trans _ _ _ _ _ Hext0 Hext6))).
      - congruence.
      - rewrite open_fds_app, Hopenb. cbn [open_fds]. apply remove_last.
      - rewrite unlink_scan_app, Hbase. cbn [unlink_scan andb].
        rewrite path_eqb_refl. discriminate.
      - discriminate. }
  unfold sys_bind at 1.
  run_sys (Sys_listen fd5 LISTEN_BACKLOG) p6 l p7.
  destruct (Z.eqb_spec (rc l) 0) as [Hl|Hl]; cbn [negb].
  2:{ unfold sys_bind at 1. run_sys (Sys_close fd5) p7 d p8.
      unfold sys_bind at 1. run_sys (Sys_unlink path) p8 u p9.
      cbn [sys_ret].
      apply (Hfail SOCKET_ERR_LISTEN_FAILED p9
               (trb ++ [(Sys_chmod path MODE_0600, rc c);
                        (Sys_listen fd5 LISTEN_BACKLOG, rc l);
                        (Sys_close fd5, rc d); (Sys_unlink path, rc u)])).
      - exact (extends_trans _ _ _ _ _ Hext5
                 (extends_trans _ _ _ _ _ Hext
                    (extends_trans _ _ _ _ _ Hext0
                       (extends_trans _ _ _ _ _ Hext6 Hext7)))).
      - congruence.
      - rewrite open_fds_app, Hopenb. cbn [open_fds]. apply remove_last.
      - rewrite unlink_scan_app, Hbase. cbn [unlink_scan andb].
        rewrite path_eqb_refl. discriminate.
      - discriminate. }
  unfold sys_bind, set_g_socket_path, sys_ret. unfold Post. cbn [fst snd].
  exists (trb ++ [(Sys_chmod path MODE_0600, rc c);
                  (Sys_listen fd5 LISTEN_BACKLOG, rc l)]).
  split; [|split].
  - destruct Hext5 as [Ht5 Hx5]. destruct Hext as [Ht6 Hx6].
    destruct Hext0 as [Ht7 Hx7].
    split; cbn [trace xdg_runtime_dir]; [|congruence].
    rewrite Ht7, Ht6, Ht5, <- !app_assoc. reflexivity.
  - intros x0 Hx0. rewrite Hxdg in Hx0. injection Hx0 as <-. fold path.
    rewrite unlink_scan_app, Hbase. cbn. discriminate.
  - cbn [created]. exists x, fd5, tr0. fold path. rewrite Hc, Hl. unfold trb.
    rewrite <- !app_assoc. cbn [app g_socket_path]. auto 10.
Qed.

(** X23.  [socket_create] leaks no descriptor: when it fails, every socket
    it opened (to probe an existing socket file, or to bind) has been
    closed again and [*listen_fd] is -1; when it succeeds, the one
    descriptor left open is the listening socket it returns.  A NULL
    argument is refused before anything is done. *)
Theorem socket_create_descriptors (old : Z) (p : process) :
  let out := socket_create (Some old) p in
  socket_create None p = (SOCKET_ERR_NULL_POINTER, None, p)
  /\ exists tr,
       extends p (snd out) tr
       /\ match fst out with
          | (SOCKET_OK, fd) =>
              exists f, fd = Some f /\ 0 <= f /\ open_fds tr [] = [f]
          | (_, fd) => fd = Some (-1) /\ open_fds tr [] = []
          end.
Proof.
  cbv zeta. split; [reflexivity|].
  destruct (socket_create_run old p) as (tr & Hext & _ & Hres).
  exists tr. split; [exact Hext|].
  destruct (socket_create (Some old) p) as [[e fd] p'].
  cbn [fst snd created] in *.
  destruct e; try (split; apply Hres).
  destruct Hres as (x & f & tr0 & _ & Hfd & Hf & -> & Hopen & _).
  exists f. split; [exact Hfd|]. split; [exact Hf|].
  rewrite open_fds_app, Hopen. cbn [open_fds].
  now destruct (Z.ltb_spec f 0); [lia|].
Qed.


(** X25.  A successful [socket_create] ends with the socket opened, bound to
    "$XDG_RUNTIME_DIR/weave/weave.sock", the file given mode 0600 and
    the socket listening with a backlog of 5, in this order and each
    call having returned 0; the path fits a socket address and is
    remembered for [socket_cleanup]; and the descriptor returned is the
    one bound. *)
Theorem socket_create_success (old : Z) (p : process) :
  fst (fst (socket_create (Some old) p)) = SOCKET_OK ->
  exists x f tr0,
    xdg_runtime_dir p = Some x
    /\ snd (fst (socket_create (Some old) p)) = Some f /\ 0 <= f
    /\ trace (snd (socket_create (Some old) p))
       = trace p ++ tr0
         ++ [(Sys_socket, f);
             (Sys_bind f (socket_path_of x), 0);
             (Sys_chmod (socket_path_of x) MODE_0600, 0);
             (Sys_listen f LISTEN_BACKLOG, 0)]
    /\ g_socket_path (snd (socket_create (Some old) p)) = socket_path_of x
    /\ strlen (socket_path_of x) < SUN_PATH_SIZE.
Proof.
  intros Hok.
  destruct (socket_create_run old p) as (tr & [Hext _] & _ & Hres).
  destruct (socket_create (Some old) p) as [[e fd] p'].
  cbn [fst snd created] in *. subst e.
  destruct Hres as (x & f & tr0 & Hx & Hfd & Hf & -> & _ & Hg & Hlen).
  exists x, f, tr0. repeat split; assumption.
Qed.

Lemma socket_path_of_cons (x : list byte) :
  exists b path, socket_path_of x = b :: path.
Proof.
  unfold socket_path_of.
  destruct x as [|b x]; cbn; eauto.
Qed.

(** X26.  [socket_cleanup] after a successful [socket_create] makes one call:
    it unlinks the path the socket was bound to.  When the file is
    removed, or is no longer there, it returns SOCKET_OK and forgets the
    path; on another failure it returns UNLINK_FAILED and keeps the
    path, so that a later call tries again. *)
Theorem socket_cleanup_after_create
    (old : Z) (p : process) (x : list byte) :
  fst (fst (socket_create (Some old) p)) = SOCKET_OK ->
  xdg_runtime_dir p = Some x ->
  let p1 := snd (socket_create (Some old) p) in
  let out := socket_cleanup p1 in
  let answer := hd (mk_result (-1) EOTHER 0) (answers p1) in
  trace (snd out) = trace p1 ++ [(Sys_unlink (socket_path_of x), rc answer)]
  /\ (rc answer = 0 \/ rc answer < 0 /\ res_errno answer = ENOENT ->
      fst out = SOCKET_OK /\ g_socket_path (snd out) = [])
  /\ (rc answer < 0 /\ res_errno answer <> ENOENT ->
      fst out = SOCKET_ERR_UNLINK_FAILED
      /\ g_socket_path (snd out) = socket_path_of x).
Proof.
  intros Hok Hx.
  destruct (socket_create_run old p) as (tr & _ & _ & Hres).
  destruct (socket_create (Some old) p) as [[e fd] p1].
  cbn [fst snd created] in *. subst e.
  destruct Hres as (x' & f & tr0 & Hx' & _ & _ & _ & _ & Hg & _).
  assert (x' = x) by congruence. subst x'.
  cbv zeta. unfold socket_cleanup. rewrite Hg.
  destruct (socket_path_of_cons x) as (b & path & Epath).
  rewrite Epath.
  unfold sys_bind, sys, get_errno, sys_ret, set_g_socket_path.
  cbn [fst snd rc trace errno].
  set (answer := hd (mk_result (-1) EOTHER 0) (answers p1)).
  split.
  { destruct (_ && _); reflexivity. }
  destruct (Z.eqb_spec (rc answer) 0) as [H0|H0]; cbn [negb andb].
  { cbn [fst snd g_socket_path]. split; [auto|]. intros [? _]. lia. }
  destruct (Z.ltb_spec (rc answer) 0) as [Hneg|Hpos].
  2:{ split; [intros [?|[? _]]; lia|intros [? _]; lia]. }
  destruct (res_errno answer) eqn:Eerrno;
    cbn [errno_eqb negb fst snd g_socket_path]; rewrite ?Hg, ?Epath;
    (split;
     [ intros [E|[_ E]]; [lia|try discriminate E; auto]
     | intros [_ E]; try (now elim E); auto ]).
Qed.


Lemma socket_create_success_witness :
  exists x f tr0,
    xdg_runtime_dir (started stale_socket_script (Some run_user_1000))
    = Some x
    /\ snd (fst (socket_create (Some 0)
                   (started stale_socket_script (Some run_user_1000))))
       = Some f
    /\ 0 <= f
    /\ trace (snd (socket_create (Some 0)
                     (started stale_socket_script (Some run_user_1000))))
       = trace (started stale_socket_script (Some run_user_1000)) ++ tr0
         ++ [(Sys_socket, f);
             (Sys_bind f (socket_path_of x), 0);
             (Sys_chmod (socket_path_of x) MODE_0600, 0);
             (Sys_listen f LISTEN_BACKLOG, 0)]
    /\ g_socket_path (snd (socket_create (Some 0)
                             (started stale_socket_script
                                (Some run_user_1000))))
       = socket_path_of x
    /\ strlen (socket_path_of x) < SUN_PATH_SIZE.
Proof.
  apply (socket_create_success 0
           (started stale_socket_script (Some run_user_1000))).
  vm_compute. reflexivity.
Defined.

Lemma socket_cleanup_after_create_witness :
  fst (socket_cleanup
         (snd (socket_create (Some 0)
                 (started stale_socket_script (Some run_user_1000)))))
  = SOCKET_OK
  /\ g_socket_path
       (snd (socket_cleanup
               (snd (socket_create (Some 0)
                       (started stale_socket_script
                          (Some run_user_1000))))))
     = [].
Proof.
  pose proof (socket_cleanup_after_create 0
                (started stale_socket_script (Some run_user_1000))
                run_user_1000) as H.
  assert (H1 : fst (fst (socket_create (Some 0)
                           (started stale_socket_script
                              (Some run_user_1000)))) = SOCKET_OK)
    by (vm_compute; reflexivity).
  specialize (H H1 eq_refl). cbv zeta in H.
  apply (proj1 (proj2 H)). left. vm_compute. reflexivity.
Defined.
